(** * crawler.py: sitemap resolution and bounded-concurrency crawl

    A shallow embedding of [src/crawler.py] and the properties of its
    URL normalisation, file naming, sitemap resolver, retry loop and
    semaphore-gated task pool. *)

From Stdlib Require Import ZArith List Bool Ascii String Lia Arith.
Import ListNotations.

Local Open Scope string_scope.
Local Open Scope nat_scope.

(** ** Python strings

    A Python [str] is modelled as a Rocq [string]; each [ascii] stands for
    one character (a code point below 256, read as Latin-1), so [length]
    is Python's [len]. *)

Module PyStr.

Definition code (c : ascii) : nat := nat_of_ascii c.

(** [str.lower] on one character: [A-Z] and the Latin-1 capitals
    U+00C0..U+00DE (the multiplication sign U+00D7 excepted) move down by
    32; every other character below 256 is left as it is. *)
Definition lower_char (c : ascii) : ascii :=
  let n := code c in
  if ((65 <=? n) && (n <=? 90)) ||
     ((192 <=? n) && (n <=? 222) && negb (n =? 215))
  then ascii_of_nat (n + 32) else c.

Fixpoint lower (s : string) : string :=
  match s with
  | EmptyString => EmptyString
  | String c s' => String (lower_char c) (lower s')
  end.

(** [s.startswith(p)] *)
Definition startswith (s p : string) : bool := String.prefix p s.

(** [c in chars] for a single character *)
Fixpoint mem (c : ascii) (chars : string) : bool :=
  match chars with
  | EmptyString => false
  | String d chars' => Ascii.eqb c d || mem c chars'
  end.

(** [sub in s] *)
Fixpoint contains (s sub : string) : bool :=
  String.prefix sub s ||
  match s with
  | EmptyString => false
  | String _ s' => contains s' sub
  end.

(** [s.rstrip(chars)]: drop every trailing character that is in [chars]. *)
Fixpoint rstrip (s chars : string) : string :=
  match s with
  | EmptyString => EmptyString
  | String a rest =>
      match rstrip rest chars with
      | EmptyString => if mem a chars then EmptyString else String a EmptyString
      | r => String a r
      end
  end.

(** [s.lstrip(chars)] *)
Fixpoint lstrip (s chars : string) : string :=
  match s with
  | EmptyString => EmptyString
  | String a rest => if mem a chars then lstrip rest chars else s
  end.

(** [s.strip(chars)] *)
Definition strip (s chars : string) : string := rstrip (lstrip s chars) chars.

(** [s.endswith(p)] *)
Fixpoint endswith (s p : string) : bool :=
  String.eqb s p ||
  match s with
  | EmptyString => false
  | String _ s' => endswith s' p
  end.

(** [s[:n]] for [n >= 0] *)
Fixpoint take (n : nat) (s : string) : string :=
  match n, s with
  | O, _ => EmptyString
  | _, EmptyString => EmptyString
  | S n', String c s' => String c (take n' s')
  end.

(** The last character, when there is one. *)
Fixpoint last_char (s : string) : option ascii :=
  match s with
  | EmptyString => None
  | String c EmptyString => Some c
  | String _ s' => last_char s'
  end.

(** [c * n] for a one-character string *)
Fixpoint replicate (n : nat) (c : ascii) : string :=
  match n with
  | O => EmptyString
  | S n' => String c (replicate n' c)
  end.

End PyStr.

Import PyStr.

(** ** [format_sitemap_url] (crawler.py, lines 93-107) *)

Definition sitemap_markers : list string :=
  ["sitemap"; "sitemap.xml"; "sitemap_index.xml"].

Definition format_sitemap_url (url : string) : string :=
  (* url = url.rstrip("/") *)
  let url := rstrip url "/" in
  (* if not url.startswith(("http://", "https://")): url = f"https://{url}" *)
  let url :=
    if negb (startswith url "http://" || startswith url "https://")
    then "https://" ++ url else url in
  (* if any(x in url.lower() for x in [...]): return url *)
  if existsb (fun x => contains (lower url) x) sitemap_markers
  then url
  else url ++ "/sitemap.xml".

(** The URL carries one of the two schemes the code looks for. *)
Definition has_scheme (url : string) : bool :=
  startswith url "http://" || startswith url "https://".

(** "Contains the substring sitemap, letter case ignored, anywhere":
    some stretch of the string lower-cases to [sitemap]. *)
Definition mentions_sitemap (u : string) : Prop :=
  exists pre mid post, u = pre ++ mid ++ post /\ lower mid = "sitemap".

(** ** The clock and [strftime]

    [datetime.now()] is an input of the model: a calendar date and a time
    of day. *)

Record datetime : Type := mk_datetime {
  year : Z; month : Z; day : Z;
  hour : Z; minute : Z; second : Z
}.

(** The ranges the [datetime] type enforces (MINYEAR = 1, MAXYEAR = 9999). *)
Definition valid_datetime (d : datetime) : Prop :=
  (1 <= year d <= 9999 /\ 1 <= month d <= 12 /\ 1 <= day d <= 31 /\
   0 <= hour d < 24 /\ 0 <= minute d < 60 /\ 0 <= second d < 60)%Z.

Definition digit (n : Z) : ascii := ascii_of_nat (48 + Z.to_nat n).

(** Decimal digits of [n >= 0], most significant first. *)
Fixpoint dec_aux (fuel : nat) (n : Z) (acc : string) : string :=
  match fuel with
  | O => acc
  | S fuel' =>
      let acc' := String (digit (n mod 10)) acc in
      if (n <? 10)%Z then acc' else dec_aux fuel' (n / 10) acc'
  end.

Definition str_of_int (n : Z) : string := dec_aux (S (Z.to_nat n)) n "".

(** [%m], [%d], [%H], [%M], [%S]: decimal, zero-padded to two digits. *)
Definition fmt_02 (n : Z) : string :=
  if (n <? 10)%Z then String "0" (str_of_int n) else str_of_int n.

(** [d.strftime("%Y%m%d_%H%M%S")]; [%Y] is the year in decimal. *)
Definition strftime_stamp (d : datetime) : string :=
  str_of_int (year d) ++ fmt_02 (month d) ++ fmt_02 (day d) ++ "_" ++
  fmt_02 (hour d) ++ fmt_02 (minute d) ++ fmt_02 (second d).

(** ** [save_markdown_file] (crawler.py, lines 21-51) *)

(** The fields of [urllib.parse.urlparse]'s result that the code reads. *)
Record ParseResult : Type := mk_parse {
  scheme : string; netloc : string; path : string
}.

(** [re.sub(r'[^\w\-_.]', '_', s)]: every character outside the class is
    replaced by an underscore.  [is_word] is the regex class [\w]. *)
Definition keep_char (is_word : ascii -> bool) (c : ascii) : bool :=
  is_word c || mem c "-_.".

Fixpoint re_sub_invalid (is_word : ascii -> bool) (s : string) : string :=
  match s with
  | EmptyString => EmptyString
  | String c s' =>
      String (if keep_char is_word c then c else "_"%char)
             (re_sub_invalid is_word s')
  end.

(** The name of the file written under MARKDOWN_DIR.  [urlparse] is the
    library's URL parser ([None] when it raises), [now] the clock reading
    of line 36; the write itself (lines 40-48) is not part of the model. *)
Definition save_markdown_file
    (is_word : ascii -> bool) (urlparse : string -> option ParseResult)
    (now : datetime) (url markdown_content : string) : option string :=
  match urlparse url with
  | None => None
  | Some parsed_url =>
      let domain := netloc parsed_url in
      let path := strip (path parsed_url) "/" in
      let filename := re_sub_invalid is_word (domain ++ "_" ++ path) in
      let filename :=
        if 200 <? String.length filename then take 200 filename else filename in
      let timestamp := strftime_stamp now in
      Some (filename ++ "_" ++ timestamp ++ ".md")
  end.

(** Every character of [s] satisfies [p]. *)
Fixpoint all_chars (p : ascii -> bool) (s : string) : bool :=
  match s with
  | EmptyString => true
  | String c s' => p c && all_chars p s'
  end.

(** ** The outside world of the sitemap resolver

    [requests.get], [ElementTree.fromstring] and [urlparse] are library
    calls.  The web may answer the same URL differently each time, so the
    HTTP layer is an oracle indexed by the number of requests issued so
    far; the two parsers are functions of their input. *)

Record Response : Type := mk_response {
  status_code : Z;
  content : string;   (* the body as received *)
  text : string       (* the body decoded to text *)
}.

(** An [xml.etree.ElementTree.Element]: tag (with its namespace in
    braces), text ([None] for an empty element) and children. *)
#[warnings="-register-all"]
Inductive Element : Type :=
| Elem (tag : string) (elem_text : option string) (children : list Element).

Definition tag (e : Element) : string := let (t, _, _) := e in t.
Definition elem_text (e : Element) : option string := let (_, x, _) := e in x.
Definition children (e : Element) : list Element := let (_, _, cs) := e in cs.

Record World : Type := mk_world {
  (** [http t url]: the answer to the request number [t] of the run when
      it asks for [url]; [None] when [requests.get] raises. *)
  http : nat -> string -> option Response;
  (** [ElementTree.fromstring]; [None] when it raises [ParseError]. *)
  xml_fromstring : string -> option Element;
  (** [urllib.parse.urlparse]; [None] when it raises [ValueError]. *)
  urlparse : string -> option ParseResult
}.

(** ** Exceptions, divergence and the request counter *)

Inductive Exn : Type :=
| RequestException   (* connection errors, invalid URLs, ... *)
| HTTPError          (* raised by [raise_for_status] *)
| ParseError
| ValueError
| IndexError.

(** The result of running a piece of the resolver from a given request
    count: a value or an exception, each with the new request count, or
    [OutOfFuel] when the recursion went deeper than the fuel allows. *)
Inductive Outcome (A : Type) : Type :=
| Return (a : A) (t : nat)
| Raise (e : Exn) (t : nat)
| OutOfFuel.

Arguments Return {A} a t.
Arguments Raise {A} e t.
Arguments OutOfFuel {A}.

Definition M (A : Type) : Type := nat -> Outcome A.

Definition ret {A : Type} (a : A) : M A := fun t => Return a t.

Definition raise {A : Type} (e : Exn) : M A := fun t => Raise e t.

Definition bind {A B : Type} (m : M A) (k : A -> M B) : M B :=
  fun t =>
    match m t with
    | Return a t' => k a t'
    | Raise e t' => Raise e t'
    | OutOfFuel => OutOfFuel
    end.

(** [try: m except Exception as e: h e] *)
Definition try_except {A : Type} (m : M A) (h : Exn -> M A) : M A :=
  fun t =>
    match m t with
    | Raise e t' => h e t'
    | o => o
    end.

Declare Scope py_scope.
Delimit Scope py_scope with py.
Notation "x <- m ;; k" := (bind m (fun x => k))
  (at level 61, m at next level, right associativity) : py_scope.
Notation "m ;;; k" := (bind m (fun _ => k))
  (at level 61, right associativity) : py_scope.

(** [requests.get(url, headers=...)].  A URL that is [None] has no scheme
    and is refused before anything is sent. *)
Definition requests_get (W : World) (url : option string) : M Response :=
  match url with
  | None => raise RequestException
  | Some u =>
      fun t =>
        match http W t u with
        | Some r => Return r (S t)
        | None => Raise RequestException (S t)
        end
  end.

(** [response.raise_for_status()]: raises [HTTPError] for a status in
    400..599 and for no other. *)
Definition is_error_status (code : Z) : bool :=
  ((400 <=? code) && (code <? 600))%Z.

Definition raise_for_status (r : Response) : M unit :=
  if is_error_status (status_code r) then raise HTTPError else ret tt.

Definition fromstring (W : World) (body : string) : M Element :=
  match xml_fromstring W body with
  | Some root => ret root
  | None => raise ParseError
  end.

(** ** [Element.findall(".//ns:loc", namespace)] *)

Definition loc_tag : string :=
  "{http://www.sitemaps.org/schemas/sitemap/0.9}loc".

(** [Element.iter()]: the element and all its descendants in document
    order. *)
Fixpoint iter (e : Element) : list Element :=
  match e with
  | Elem _ _ cs => e :: flat_map iter cs
  end.

(** All proper descendants with the tag [ns:loc], in document order. *)
Definition findall_loc (root : Element) : list Element :=
  filter (fun e => String.eqb (tag e) loc_tag) (flat_map iter (children root)).

(** ** [get_urls_from_sitemap] (crawler.py, lines 110-151) *)

(** A URL as it comes out of a [<loc>]: [loc.text], which is [None] for
    an empty element. *)
Definition Url : Type := option string.

(** [for x in xs: sub = f(x); urls.extend(sub)] *)
Fixpoint for_extend (f : Url -> M (list Url)) (xs : list Url)
    (urls : list Url) : M (list Url) :=
  match xs with
  | [] => ret urls
  | x :: xs' => (sub_urls <- f x ;; for_extend f xs' (urls ++ sub_urls))%py
  end.

(** [fuel] bounds the depth of the recursion into sitemap indexes, which
    the source leaves unbounded (the interpreter's recursion limit is not
    modelled). *)
Fixpoint get_urls_from_sitemap (W : World) (fuel : nat) (sitemap_url : Url)
    : M (list Url) :=
  match fuel with
  | O => fun _ => OutOfFuel
  | S fuel' =>
      try_except
        (response <- requests_get W sitemap_url ;;
         raise_for_status response ;;;
         root <- fromstring W (content response) ;;
         let is_sitemap_index := endswith (tag root) "sitemapindex" in
         if is_sitemap_index then
           let sitemap_urls := map elem_text (findall_loc root) in
           for_extend (get_urls_from_sitemap W fuel') sitemap_urls []
         else
           ret (map elem_text (findall_loc root)))%py
        (fun _ => ret [])
  end.

(** ** [check_and_get_sitemap_urls] (crawler.py, lines 154-198) *)

(** [s.split(sep)] for a one-character separator: the pieces between the
    separators, at least one piece. *)
Fixpoint split (s : string) (sep : ascii) : list string :=
  match s with
  | EmptyString => [EmptyString]
  | String c s' =>
      if Ascii.eqb c sep then EmptyString :: split s' sep
      else match split s' sep with
           | piece :: pieces => String c piece :: pieces
           | [] => [String c EmptyString]
           end
  end.

(** [s.split(sep, 1)]: cut at the first separator only. *)
Fixpoint split_once (s : string) (sep : ascii) : list string :=
  match s with
  | EmptyString => [EmptyString]
  | String c s' =>
      if Ascii.eqb c sep then [EmptyString; s']
      else match split_once s' sep with
           | piece :: pieces => String c piece :: pieces
           | [] => [String c EmptyString]
           end
  end.

(** The characters [str.strip()] removes, below 256: tab, line feed,
    vertical tab, form feed, carriage return, the separators
    U+001C..U+001F, space, U+0085 and U+00A0. *)
Definition whitespace : string :=
  String (ascii_of_nat 9) (String (ascii_of_nat 10) (String (ascii_of_nat 11)
  (String (ascii_of_nat 12) (String (ascii_of_nat 13) (String (ascii_of_nat 28)
  (String (ascii_of_nat 29) (String (ascii_of_nat 30) (String (ascii_of_nat 31)
  (String (ascii_of_nat 32) (String (ascii_of_nat 133)
  (String (ascii_of_nat 160) EmptyString))))))))))).

(** [xs[i]], raising [IndexError] out of range. *)
Definition index {A : Type} (xs : list A) (i : nat) : M A :=
  match nth_error xs i with
  | Some x => ret x
  | None => raise IndexError
  end.

Definition newline : ascii := ascii_of_nat 10.

(** [not urls] *)
Definition is_empty {A : Type} (xs : list A) : bool :=
  match xs with [] => true | _ => false end.

(** The loop of lines 187-194 over the lines still to read, with the
    current values of [sitemap_url] and [urls]. *)
Fixpoint scan_robots (W : World) (fuel : nat) (lines : list string)
    (sitemap_url : string) (urls : list Url) : M (string * list Url) :=
  match lines with
  | [] => ret (sitemap_url, urls)
  | line :: rest =>
      if startswith (lower line) "sitemap:" then
        (piece <- index (split_once line ":") 1 ;;
         let alt_sitemap_url := strip piece whitespace in
         urls <- get_urls_from_sitemap W fuel (Some alt_sitemap_url) ;;
         if negb (is_empty urls) then
           (* sitemap_url = alt_sitemap_url; break *)
           ret (alt_sitemap_url, urls)
         else
           scan_robots W fuel rest sitemap_url urls)%py
      else scan_robots W fuel rest sitemap_url urls
  end.

Definition check_and_get_sitemap_urls (W : World) (fuel : nat) (url : string)
    : M (string * list Url) :=
  let base_url := rstrip url "/" in
  let base_url :=
    if negb (startswith base_url "http://" || startswith base_url "https://")
    then "https://" ++ base_url else base_url in
  let sitemap_url := format_sitemap_url base_url in
  (urls <- get_urls_from_sitemap W fuel (Some sitemap_url) ;;
   if is_empty urls then
     try_except
       (parsed_url <- match urlparse W base_url with
                      | Some p => ret p
                      | None => raise ValueError
                      end ;;
        let domain := scheme parsed_url ++ "://" ++ netloc parsed_url in
        let robots_url := domain ++ "/robots.txt" in
        response <- requests_get W (Some robots_url) ;;
        if (status_code response =? 200)%Z then
          scan_robots W fuel (split (text response) newline) sitemap_url urls
        else ret (sitemap_url, urls))
       (fun _ => ret (sitemap_url, urls))
   else ret (sitemap_url, urls))%py.

(** Running the resolver on the children of an index one after the
    other, from request count [t]: child [i] yields the list [ls_i]. *)
Inductive children_yield (W : World) (fuel : nat)
    : list Url -> nat -> list (list Url) -> nat -> Prop :=
| cy_nil (t : nat) : children_yield W fuel [] t [] t
| cy_cons (c : Url) (cs : list Url) (t t1 t2 : nat)
          (l : list Url) (ls : list (list Url)) :
    get_urls_from_sitemap W fuel c t = Return l t1 ->
    children_yield W fuel cs t1 ls t2 ->
    children_yield W fuel (c :: cs) t (l :: ls) t2.

(** The fetch of [url] as request number [t] ends in an exception at
    this level: the URL is [None], [requests.get] raises, the status is
    one [raise_for_status] rejects, or the body does not parse. *)
Definition fails_here (W : World) (t : nat) (url : Url) : Prop :=
  match url with
  | None => True
  | Some u =>
      match http W t u with
      | None => True
      | Some r =>
          is_error_status (status_code r) = true \/
          xml_fromstring W (content r) = None
      end
  end.

(** The request count after one call that fails at its own level. *)
Definition after_failure (t : nat) (url : Url) : nat :=
  match url with None => t | Some _ => S t end.

(** The sitemap indexes of the world are acyclic: [rank] goes down from
    every index, whenever it is fetched, to each of its children. *)
Definition ranked (W : World) (rank : Url -> nat) : Prop :=
  forall (t : nat) (u : string) (r : Response) (root : Element) (c : Url),
    http W t u = Some r ->
    xml_fromstring W (content r) = Some root ->
    endswith (tag root) "sitemapindex" = true ->
    In c (map elem_text (findall_loc root)) ->
    rank c < rank (Some u).

(** ** Reading [check_and_get_sitemap_urls] *)

(** Lines 157-159: the base URL the function works from. *)
Definition base_url_of (url : string) : string :=
  let base_url := rstrip url "/" in
  if negb (startswith base_url "http://" || startswith base_url "https://")
  then "https://" ++ base_url else base_url.

(** Line 182: where robots.txt is looked for. *)
Definition robots_url_of (p : ParseResult) : string :=
  (scheme p ++ "://" ++ netloc p) ++ "/robots.txt".

(** The sitemap URL a line of robots.txt names, when it carries a
    [sitemap:] directive (lines 188-189). *)
Definition directive (line : string) : option string :=
  if startswith (lower line) "sitemap:" then
    option_map (fun piece => strip piece whitespace)
               (nth_error (split_once line ":") 1)
  else None.

(** The directives of a robots.txt in line order. *)
Fixpoint directives (lines : list string) : list string :=
  match lines with
  | [] => []
  | line :: rest =>
      match directive line with
      | Some d => d :: directives rest
      | None => directives rest
      end
  end.

(** Each of the sitemaps [ds], resolved one after the other from request
    count [t], yields no URL. *)
Definition all_yield_nothing (W : World) (fuel : nat) (ds : list string)
    (t t' : nat) : Prop :=
  children_yield W fuel (map Some ds) t (map (fun _ => []) ds) t'.

(** C6 as the claim words it, at one input: once the direct fetch has
    yielded nothing and robots.txt is there, the first directive alone
    decides the result. *)
Definition first_match_wins (W : World) (fuel : nat) (url : string) (t : nat)
    : Prop :=
  let guess := format_sitemap_url (base_url_of url) in
  forall (t1 t2 : nat) (p : ParseResult) (r : Response) (d : string)
         (l : list Url),
    get_urls_from_sitemap W fuel (Some guess) t = Return [] t1 ->
    urlparse W (base_url_of url) = Some p ->
    http W t1 (robots_url_of p) = Some r ->
    status_code r = 200%Z ->
    hd_error (directives (split (text r) newline)) = Some d ->
    get_urls_from_sitemap W fuel (Some d) (S t1) = Return l t2 ->
    check_and_get_sitemap_urls W fuel url t =
      Return (if is_empty l then (guess, []) else (d, l)) t2.

(** C7 as the claim words it, at one input: an answer whose status is
    not 2xx makes the call return no URL. *)
Definition non_2xx_yields_nothing (W : World) (fuel : nat) (url : string)
    (t : nat) : Prop :=
  forall r : Response,
    http W t url = Some r ->
    ~ (200 <= status_code r < 300)%Z ->
    get_urls_from_sitemap W (S fuel) (Some url) t = Return [] (S t).

(** ** Small webs to run the resolver on *)

Module Web.

Definition ns : string := "http://www.sitemaps.org/schemas/sitemap/0.9".

Definition ns_tag (name : string) : string := "{" ++ ns ++ "}" ++ name.

Definition entry (wrapper loc : string) : Element :=
  Elem (ns_tag wrapper) None [Elem (ns_tag "loc") (Some loc) []].

(** What [ElementTree.fromstring] builds from a [<urlset>] ... *)
Definition urlset_doc (locs : list string) : Element :=
  Elem (ns_tag "urlset") None (map (entry "url") locs).

(** ... and from a [<sitemapindex>]. *)
Definition index_doc (locs : list string) : Element :=
  Elem (ns_tag "sitemapindex") None (map (entry "sitemap") locs).

Fixpoint render_entries (wrapper : string) (locs : list string) : string :=
  match locs with
  | [] => ""
  | loc :: rest =>
      "<" ++ wrapper ++ "><loc>" ++ loc ++ "</loc></" ++ wrapper ++ ">"
      ++ render_entries wrapper rest
  end.

(** The XML text of the two kinds of document. *)
Definition urlset_xml (locs : list string) : string :=
  "<urlset xmlns='" ++ ns ++ "'>" ++ render_entries "url" locs ++ "</urlset>".

Definition index_xml (locs : list string) : string :=
  "<sitemapindex xmlns='" ++ ns ++ "'>" ++ render_entries "sitemap" locs
  ++ "</sitemapindex>".

Fixpoint lookup {A : Type} (key : string) (table : list (string * A))
    : option A :=
  match table with
  | [] => None
  | (k, v) :: rest => if String.eqb key k then Some v else lookup key rest
  end.

Definition ok (body : string) : Response := mk_response 200 body body.

Definition not_found : Response := mk_response 404 "Not Found" "Not Found".

(** A web that answers each listed URL the same way every time and
    refuses the connection for any other; a parser that knows the listed
    bodies and rejects any other. *)
Definition site (pages : list (string * Response))
    (docs : list (string * Element))
    (parsed : list (string * ParseResult)) : World :=
  mk_world (fun _ url => lookup url pages)
           (fun body => lookup body docs)
           (fun url => lookup url parsed).

Definition doc_of_urlset (locs : list string) : string * Element :=
  (urlset_xml locs, urlset_doc locs).

Definition doc_of_index (locs : list string) : string * Element :=
  (index_xml locs, index_doc locs).

(** An index with two child sitemaps of three and two URLs. *)
Definition a_s1 : list string :=
  ["https://a.test/1"; "https://a.test/2"; "https://a.test/3"].
Definition a_s2 : list string := ["https://a.test/4"; "https://a.test/5"].
Definition a_index : list string :=
  ["https://a.test/s1.xml"; "https://a.test/s2.xml"].

Definition site_a : World :=
  site [("https://a.test/sitemap_index.xml", ok (index_xml a_index));
        ("https://a.test/s1.xml", ok (urlset_xml a_s1));
        ("https://a.test/s2.xml", ok (urlset_xml a_s2))]
       [doc_of_index a_index; doc_of_urlset a_s1; doc_of_urlset a_s2]
       [].

Definition nl : string := String newline "".

(** No sitemap.xml; a robots.txt with two directives, the first of which
    points to a sitemap that is gone. *)
Definition b_robots : string :=
  "User-agent: *" ++ nl ++
  "Sitemap: https://b.test/old.xml" ++ nl ++
  "Sitemap: https://b.test/new.xml" ++ nl.

Definition site_b : World :=
  site [("https://b.test/sitemap.xml", not_found);
        ("https://b.test/robots.txt", ok b_robots);
        ("https://b.test/old.xml", not_found);
        ("https://b.test/new.xml", ok (urlset_xml ["https://b.test/page"]))]
       [doc_of_urlset ["https://b.test/page"]]
       [("https://b.test", mk_parse "https" "b.test" "")].

(** A sitemap served with status 300 (Multiple Choices). *)
Definition site_c : World :=
  site [("https://c.test/sitemap.xml",
         mk_response 300 (urlset_xml ["https://c.test/page"])
                         (urlset_xml ["https://c.test/page"]))]
       [doc_of_urlset ["https://c.test/page"]]
       [].

(** An index whose second child is gone. *)
Definition d_index : list string :=
  ["https://d.test/s1.xml"; "https://d.test/gone.xml"; "https://d.test/s2.xml"].

Definition site_d : World :=
  site [("https://d.test/sitemap.xml", ok (index_xml d_index));
        ("https://d.test/s1.xml", ok (urlset_xml ["https://d.test/1"]));
        ("https://d.test/gone.xml", not_found);
        ("https://d.test/s2.xml", ok (urlset_xml ["https://d.test/2"]))]
       [doc_of_index d_index; doc_of_urlset ["https://d.test/1"];
        doc_of_urlset ["https://d.test/2"]]
       [].

(** A site where nothing answers. *)
Definition site_e : World :=
  site [] [] [("https://example.com", mk_parse "https" "example.com" "")].

(** No sitemap.xml, and a robots.txt that names another sitemap. *)
Definition site_f : World :=
  site [("https://f.test/sitemap.xml", not_found);
        ("https://f.test/robots.txt",
         ok ("Sitemap: https://f.test/custom-sitemap.xml" ++ nl));
        ("https://f.test/custom-sitemap.xml",
         ok (urlset_xml ["https://f.test/a"; "https://f.test/b"]))]
       [doc_of_urlset ["https://f.test/a"; "https://f.test/b"]]
       [("https://f.test", mk_parse "https" "f.test" "")].

End Web.

(** ** Inputs to run [save_markdown_file] on *)

Module Sample.

(** The ASCII part of the regex class [\w]. *)
Definition ascii_word (c : ascii) : bool :=
  let n := code c in
  ((48 <=? n) && (n <=? 57)) || ((65 <=? n) && (n <=? 90)) ||
  ((97 <=? n) && (n <=? 122)) || (n =? 95).

Definition urlparse_docs (url : string) : option ParseResult :=
  if String.eqb url "https://example.com/docs/intro/"
  then Some (mk_parse "https" "example.com" "/docs/intro/")
  else None.

Definition clock : datetime := mk_datetime 2026 11 3 10 1 0.

(** The sitemap URL alone has an index below it on [Web.site_d]. *)
Definition rank_d (url : Url) : nat :=
  match url with
  | Some u => if String.eqb u "https://d.test/sitemap.xml" then 1 else 0
  | None => 0
  end.

End Sample.

(** ** [crawl_parallel] (crawler.py, lines 201-305)

    *** The collaborators *)

(** What one [await crawler.arun(...)] comes back with. *)
Inductive FetchResult : Type :=
| Success (raw_markdown : string)    (* result.success is true *)
| Failure (error_message : string)   (* result.success is false *)
| FetchRaises.                       (* the call raises an Exception *)

(** What one [await process_and_store_document(url, ...)] does,
    evaluating its argument [result.markdown_v2.raw_markdown] included. *)
Inductive StoreResult : Type :=
| Stored
| StoreRaises.

(** The behaviour of the two collaborators towards one task: the answer
    to its [n]-th fetch and the outcome of its [n]-th store, counted
    from 0. *)
Record Oracle : Type := mk_oracle {
  arun : nat -> FetchResult;
  store : nat -> StoreResult
}.

(** *** Coroutines

    A coroutine is the tree of what it does next: the points where it
    awaits, with the continuation for each way the awaited call can end,
    and its updates of the shared counters. *)
Inductive Coro : Type :=
| Done
| Acquire (k : Coro)                          (* async with semaphore: enter *)
| Release (k : Coro)                          (* async with semaphore: leave *)
| Arun (k : FetchResult -> Coro)              (* await crawler.arun(url=url, ...) *)
| Store (markdown : string) (k : StoreResult -> Coro)
| Sleep (seconds : Z) (k : Coro)              (* await asyncio.sleep(seconds) *)
| IncrProcessed (k : Coro)                    (* processed_urls += 1 *)
| IncrFailed (k : Coro).                      (* failed_urls += 1 *)

(** Lines 262-267, and again 270-275: what follows an attempt that did
    not go through, whether it reported a failure or raised. *)
Definition after_failed_attempt (max_retries retry : Z) (next : Coro) : Coro :=
  if (retry <? max_retries - 1)%Z then Sleep 2 next else IncrFailed next.

(** [for retry in range(max_retries): ...], with [n] iterations to go
    from index [retry]; running off the end of the loop leaves the
    [async with] block. *)
Fixpoint retry_loop (max_retries : Z) (n : nat) (retry : Z) : Coro :=
  match n with
  | O => Release Done
  | S n' =>
      let next := retry_loop max_retries n' (retry + 1) in
      (* try: *)
      Arun (fun result =>
        match result with
        | Success raw_markdown =>
            IncrProcessed
              (Store raw_markdown (fun stored =>
                 match stored with
                 | Stored => Release Done           (* return *)
                 | StoreRaises =>                   (* except Exception *)
                     after_failed_attempt max_retries retry next
                 end))
        | Failure _ => after_failed_attempt max_retries retry next
        | FetchRaises =>                            (* except Exception *)
            after_failed_attempt max_retries retry next
        end)
  end.

(** [range(max_retries)] has [max(max_retries, 0)] elements. *)
Definition process_url (max_retries : Z) (url : string) : Coro :=
  Acquire (retry_loop max_retries (Z.to_nat max_retries) 0).

(** What a task can be seen doing. *)
Inductive Event : Type :=
| EvAcquire
| EvRelease
| EvArun
| EvStore (markdown : string)
| EvSleep (seconds : Z)
| EvProcessed
| EvFailed.

Definition is_arun (e : Event) : bool :=
  match e with EvArun => true | _ => false end.
Definition is_sleep (e : Event) : bool :=
  match e with EvSleep _ => true | _ => false end.
Definition is_processed (e : Event) : bool :=
  match e with EvProcessed => true | _ => false end.
Definition is_failed (e : Event) : bool :=
  match e with EvFailed => true | _ => false end.

Definition count (p : Event -> bool) (tr : list Event) : nat :=
  List.length (filter p tr).

(** A coroutine run on its own to its end, from its [calls]-th fetch and
    its [stores]-th store: the events in order. *)
Fixpoint run_alone (o : Oracle) (c : Coro) (calls stores : nat) : list Event :=
  match c with
  | Done => []
  | Acquire k => EvAcquire :: run_alone o k calls stores
  | Release k => EvRelease :: run_alone o k calls stores
  | Arun k => EvArun :: run_alone o (k (arun o calls)) (S calls) stores
  | Store m k => EvStore m :: run_alone o (k (store o stores)) calls (S stores)
  | Sleep d k => EvSleep d :: run_alone o k calls stores
  | IncrProcessed k => EvProcessed :: run_alone o k calls stores
  | IncrFailed k => EvFailed :: run_alone o k calls stores
  end.

(** The events of one URL processed with nothing else going on. *)
Definition process_url_trace (o : Oracle) (max_retries : Z) (url : string)
    : list Event :=
  run_alone o (process_url max_retries url) 0 0.

(** The events of [n] attempts in a row that all fail: a two-second
    sleep after each but the last, the failure counted after the last. *)
Fixpoint failing_attempts (n : nat) : list Event :=
  match n with
  | O => []
  | S O => [EvArun; EvFailed]
  | S n' => EvArun :: EvSleep 2 :: failing_attempts n'
  end.

(** The events of [k] failed attempts, each followed by its sleep. *)
Fixpoint failed_then_slept (k : nat) : list Event :=
  match k with
  | O => []
  | S k' => EvArun :: EvSleep 2 :: failed_then_slept k'
  end.

Definition is_success (r : FetchResult) : bool :=
  match r with Success _ => true | _ => false end.

(** *** The task pool

    [asyncio.gather] runs one [process_url] coroutine per URL on one event
    loop: a task runs until it awaits, then any task that can go on does.
    The pool below steps one task at a time, one event per step, in any
    order; the counters and the semaphore are shared.  The event loop's
    own runs, where a task is not interrupted between two awaits and the
    semaphore wakes its waiters in order, are among these interleavings.
    An update of a counter is one event: there is no await between
    reading and writing it. *)

Record Task : Type := mk_task {
  task_url : string;
  code : Coro;            (* what the task has left to do *)
  holding : bool;         (* it is inside [async with semaphore] *)
  calls : nat;            (* fetches issued so far *)
  stores : nat;           (* stores issued so far *)
  trace : list Event      (* what it has done so far *)
}.

Record Pool : Type := mk_pool {
  sem_value : Z;          (* the semaphore's counter *)
  processed_urls : Z;
  failed_urls : Z;
  tasks : list Task
}.

Fixpoint set_nth {A : Type} (i : nat) (x : A) (l : list A) : list A :=
  match l, i with
  | [], _ => []
  | _ :: l', O => x :: l'
  | y :: l', S i' => y :: set_nth i' x l'
  end.

Definition advance (tk : Task) (ev : Event) (k : Coro) : Task :=
  mk_task (task_url tk) k (holding tk) (calls tk) (stores tk)
          (trace tk ++ [ev]).

(** Task [i] does its next event, when it has one and is not blocked on
    the semaphore. *)
Definition step_at (env : nat -> Oracle) (i : nat) (s : Pool) : option Pool :=
  match nth_error (tasks s) i with
  | None => None
  | Some tk =>
      let put tk' := set_nth i tk' (tasks s) in
      match code tk with
      | Done => None
      | Acquire k =>
          if (0 <? sem_value s)%Z then
            Some (mk_pool (sem_value s - 1) (processed_urls s) (failed_urls s)
                    (put (mk_task (task_url tk) k true (calls tk) (stores tk)
                            (trace tk ++ [EvAcquire]))))
          else None
      | Release k =>
          Some (mk_pool (sem_value s + 1) (processed_urls s) (failed_urls s)
                  (put (mk_task (task_url tk) k false (calls tk) (stores tk)
                          (trace tk ++ [EvRelease]))))
      | Arun k =>
          Some (mk_pool (sem_value s) (processed_urls s) (failed_urls s)
                  (put (mk_task (task_url tk) (k (arun (env i) (calls tk)))
                          (holding tk) (S (calls tk)) (stores tk)
                          (trace tk ++ [EvArun]))))
      | Store m k =>
          Some (mk_pool (sem_value s) (processed_urls s) (failed_urls s)
                  (put (mk_task (task_url tk) (k (store (env i) (stores tk)))
                          (holding tk) (calls tk) (S (stores tk))
                          (trace tk ++ [EvStore m]))))
      | Sleep d k =>
          Some (mk_pool (sem_value s) (processed_urls s) (failed_urls s)
                  (put (advance tk (EvSleep d) k)))
      | IncrProcessed k =>
          Some (mk_pool (sem_value s) (processed_urls s + 1) (failed_urls s)
                  (put (advance tk EvProcessed k)))
      | IncrFailed k =>
          Some (mk_pool (sem_value s) (processed_urls s) (failed_urls s + 1)
                  (put (advance tk EvFailed k)))
      end
  end.

Inductive step (env : nat -> Oracle) : Pool -> Pool -> Prop :=
| step_task (i : nat) (s s' : Pool) :
    step_at env i s = Some s' -> step env s s'.

(** The states a run can be in. *)
Inductive reachable (env : nat -> Oracle) (s0 : Pool) : Pool -> Prop :=
| reach_start : reachable env s0 s0
| reach_step (s s' : Pool) :
    reachable env s0 s -> step env s s' -> reachable env s0 s'.

(** Lines 221-230 and 277: the semaphore, the counters at zero, one task
    per URL.  [asyncio.Semaphore] raises [ValueError] for a negative
    value. *)
Definition crawl_start (urls : list string) (max_concurrent max_retries : Z)
    : option Pool :=
  if (max_concurrent <? 0)%Z then None
  else Some (mk_pool max_concurrent 0 0
               (map (fun url => mk_task url (process_url max_retries url)
                                        false 0 0 [])
                    urls)).

Definition is_done (tk : Task) : bool :=
  match code tk with Done => true | _ => false end.

(** [asyncio.gather] is over. *)
Definition all_done (s : Pool) : bool := forallb is_done (tasks s).

(** The counters of the dictionary returned at lines 297-303; the three
    time stamps of that dictionary, like the progress lines printed on
    the way, depend on the wall clock only and are left out. *)
Record RunStatistics : Type := mk_stats {
  stat_processed_urls : Z;
  stat_failed_urls : Z
}.

Definition crawl_result (s : Pool) : option RunStatistics :=
  if all_done s then Some (mk_stats (processed_urls s) (failed_urls s))
  else None.

(** Tasks inside the semaphore-guarded region, and tasks in the middle
    of a fetch. *)
Definition in_region (s : Pool) : nat :=
  List.length (filter holding (tasks s)).

Definition is_fetching (tk : Task) : bool :=
  match code tk with Arun _ => true | _ => false end.

Definition fetching (s : Pool) : nat :=
  List.length (filter is_fetching (tasks s)).

(** A task that is neither finished nor waiting for the semaphore. *)
Definition can_go (tk : Task) : bool :=
  match code tk with
  | Done | Acquire _ => false
  | _ => true
  end.

(** A run under a given schedule: the listed tasks step in turn, a task
    that cannot step is passed over. *)
Fixpoint run_schedule (env : nat -> Oracle) (schedule : list nat) (s : Pool)
    : Pool :=
  match schedule with
  | [] => s
  | i :: rest =>
      match step_at env i s with
      | Some s' => run_schedule env rest s'
      | None => run_schedule env rest s
      end
  end.

(** The semaphore discipline of a coroutine that [holds] the semaphore
    or not: it enters only when outside, leaves only when inside, fetches,
    stores and sleeps only inside, and ends outside. *)
Fixpoint wf (holds : bool) (c : Coro) : Prop :=
  match c with
  | Done => holds = false
  | Acquire k => holds = false /\ wf true k
  | Release k => holds = true /\ wf false k
  | Arun k => holds = true /\ forall r, wf holds (k r)
  | Store _ k => holds = true /\ forall r, wf holds (k r)
  | Sleep _ k => holds = true /\ wf holds k
  | IncrProcessed k => wf holds k
  | IncrFailed k => wf holds k
  end.

(** The sum of [f] over a list. *)
Definition total {A : Type} (f : A -> nat) (l : list A) : nat :=
  list_sum (map f l).

(** The events task [i] still has to do. *)
Definition events_left (env : nat -> Oracle) (i : nat) (tk : Task)
    : list Event :=
  run_alone (env i) (code tk) (calls tk) (stores tk).

(** The sum of [f i x] over the elements [x] of a list with their
    positions [i], counted from [k]. *)
Fixpoint itotal {A : Type} (f : nat -> A -> nat) (k : nat) (l : list A) : nat :=
  match l with
  | [] => 0
  | x :: l' => f k x + itotal f (S k) l'
  end.

(** The number of events the whole pool still has to do. *)
Definition events_to_go (env : nat -> Oracle) (s : Pool) : nat :=
  itotal (fun i tk => List.length (events_left env i tk)) 0 (tasks s).

(** What holds of every state of a run of
    [crawl_parallel(urls, max_concurrent, max_retries)]. *)
Record pool_inv (env : nat -> Oracle) (urls : list string)
    (max_concurrent max_retries : Z) (s : Pool) : Prop := mk_pool_inv {
  inv_sem_nonneg : (0 <= sem_value s)%Z;
  inv_sem : (sem_value s + Z.of_nat (in_region s) = max_concurrent)%Z;
  inv_processed :
    processed_urls s
      = Z.of_nat (total (fun tk => count is_processed (trace tk)) (tasks s));
  inv_failed :
    failed_urls s
      = Z.of_nat (total (fun tk => count is_failed (trace tk)) (tasks s));
  inv_length : List.length (tasks s) = List.length urls;
  inv_tasks :
    forall i tk, nth_error (tasks s) i = Some tk ->
      wf (holding tk) (code tk) /\
      exists url, nth_error urls i = Some url /\
        (trace tk ++ events_left env i tk)%list
          = process_url_trace (env i) max_retries url
}.

(** [crawl_parallel] under a given schedule: the counters it returns,
    [None] when the semaphore cannot be made or when the schedule stops
    short of the end of [asyncio.gather]. *)
Definition crawl_parallel (env : nat -> Oracle) (schedule : list nat)
    (urls : list string) (max_concurrent max_retries : Z)
    : option RunStatistics :=
  match crawl_start urls max_concurrent max_retries with
  | None => None
  | Some s0 => crawl_result (run_schedule env schedule s0)
  end.


(** C3 as the claim words it, at one input. *)
Definition failing_url_counted_once (o : Oracle) (max_retries : Z)
    (url : string) : Prop :=
  (forall n, is_success (arun o n) = false) ->
  let tr := process_url_trace o max_retries url in
  count is_arun tr = Z.to_nat max_retries /\ count is_failed tr = 1.

(** C4 as the claim words it, at one input. *)
Definition success_ends_attempts (o : Oracle) (max_retries : Z)
    (url : string) (k : nat) : Prop :=
  (Z.of_nat k < max_retries)%Z ->
  (forall n, n < k -> is_success (arun o n) = false) ->
  is_success (arun o k) = true ->
  let tr := process_url_trace o max_retries url in
  count is_arun tr = S k /\ count is_processed tr = 1 /\ count is_failed tr = 0.

(** Collaborators to run the pool with. *)
Module Crew.

(** Every fetch succeeds, every store raises. *)
Definition sink_raises : Oracle :=
  mk_oracle (fun _ => Success "# page") (fun _ => StoreRaises).

(** Every fetch fails. *)
Definition never_fetches : Oracle :=
  mk_oracle (fun _ => Failure "timeout") (fun _ => Stored).

(** The first two fetches fail, the third succeeds; the store works. *)
Definition third_time_lucky : Oracle :=
  mk_oracle (fun n => if n <? 2 then Failure "timeout" else Success "# page")
            (fun _ => Stored).

(** Task 0 never fetches, task 1 raises twice then succeeds, the others
    succeed at once. *)
Definition mixed (i : nat) : Oracle :=
  match i with
  | 0 => never_fetches
  | 1 => mk_oracle (fun n => if n <? 2 then FetchRaises else Success "# one")
                   (fun _ => Stored)
  | _ => mk_oracle (fun _ => Success "# more") (fun _ => Stored)
  end.

(** The pool at the start of a run (an empty pool when the semaphore
    cannot be made). *)
Definition start (urls : list string) (max_concurrent max_retries : Z) : Pool :=
  match crawl_start urls max_concurrent max_retries with
  | Some s0 => s0
  | None => mk_pool 0 0 0 []
  end.

(** Round robin over [n] tasks, [rounds] times. *)
Fixpoint round_robin (n rounds : nat) : list nat :=
  match rounds with
  | O => []
  | S r => (seq 0 n ++ round_robin n r)%list
  end.

End Crew.

(** ** More of the retry loop and of the pool *)

Definition is_acquire (e : Event) : bool :=
  match e with EvAcquire => true | _ => false end.
Definition is_release (e : Event) : bool :=
  match e with EvRelease => true | _ => false end.
Definition is_store (e : Event) : bool :=
  match e with EvStore _ => true | _ => false end.

(** Every sleep of the trace lasts two seconds. *)
Definition sleeps_two (e : Event) : bool :=
  match e with EvSleep d => (d =? 2)%Z | _ => true end.

(** What can be said of the events of the loop with [n] iterations to
    go, and of the events that follow a failed attempt with [n]
    iterations to go after it. *)
Definition loop_shape (n : nat) (tr : list Event) : Prop :=
  count is_arun tr <= n /\
  (1 <= n -> 1 <= count is_arun tr) /\
  count is_sleep tr <= count is_arun tr - 1 /\
  count is_failed tr <= 1 /\
  (1 <= n -> 1 <= count is_processed tr + count is_failed tr) /\
  count is_processed tr = count is_store tr /\
  count is_processed tr <= count is_arun tr /\
  count is_acquire tr = 0 /\
  (exists body, tr = (body ++ [EvRelease])%list /\ count is_release body = 0) /\
  forallb sleeps_two tr = true.

Definition after_shape (n : nat) (tr : list Event) : Prop :=
  count is_arun tr <= n /\
  count is_sleep tr <= count is_arun tr /\
  count is_failed tr <= 1 /\
  1 <= count is_processed tr + count is_failed tr /\
  count is_processed tr = count is_store tr /\
  count is_processed tr <= count is_arun tr /\
  count is_acquire tr = 0 /\
  (exists body, tr = (body ++ [EvRelease])%list /\ count is_release body = 0) /\
  forallb sleeps_two tr = true.

(** The trace without the store statement of lines 256-258: what the
    semaphore, the fetch client, the clock and the two counters see. *)
Definition without_stores (tr : list Event) : list Event :=
  filter (fun e => negb (is_store e)) tr.

(** One pass through the body of the loop, seen that way: the fetch,
    and the count of line 237 when the fetch [succeeded]. *)
Definition pass_events (succeeded : bool) : list Event :=
  if succeeded then [EvArun; EvProcessed] else [EvArun].

(** Passes one after the other, with a sleep of two seconds between one
    pass and the next and nowhere else. *)
Fixpoint with_sleeps (passes : list bool) : list Event :=
  match passes with
  | [] => []
  | p :: rest =>
      (pass_events p ++
       match rest with
       | [] => []
       | _ :: _ => EvSleep 2 :: with_sleeps rest
       end)%list
  end.

(** One task after the other, each given [steps] turns in a row. *)
Fixpoint in_turn (n steps : nat) : list nat :=
  match n with
  | O => []
  | S n' => (in_turn n' steps ++ repeat n' steps)%list
  end.

(** ** More of the resolver *)

Module Sample2.

(** No index anywhere on [Web.site_b]. *)
Definition rank_flat (url : Url) : nat := 0.

Definition urlparse_plain (url : string) : option ParseResult :=
  if String.eqb url "https://example.com/intro"
  then Some (mk_parse "https" "example.com" "/intro")
  else None.

End Sample2.

(** ** More of [save_markdown_file] *)

(** The number a string of decimal digits stands for, read from the
    left with [acc] for the digits already read. *)
Fixpoint digits_value (s : string) (acc : Z) : Z :=
  match s with
  | EmptyString => acc
  | String c s' => digits_value s' (10 * acc + (Z.of_nat (PyStr.code c) - 48))
  end.

(** The characters a file name is made of besides those the regex
    keeps: the digits of the time stamp and the letters of [.md]. *)
Definition stamp_chars : string := "-_.0123456789md".

(** ** [save_sitemap_links_to_markdown] (crawler.py, lines 54-84) *)

(** [f"{url}"] for an element of the URL list: [str(None)] is [None]. *)
Definition py_str (u : Url) : string :=
  match u with
  | Some s => s
  | None => "None"
  end.

(** [d.strftime('%Y-%m-%d %H:%M:%S')] *)
Definition strftime_human (d : datetime) : string :=
  str_of_int (year d) ++ "-" ++ fmt_02 (month d) ++ "-" ++ fmt_02 (day d)
  ++ " " ++ fmt_02 (hour d) ++ ":" ++ fmt_02 (minute d) ++ ":"
  ++ fmt_02 (second d).

(** A file as [open(filepath, 'w')] leaves it: its name under
    MARKDOWN_DIR and the text written to it. *)
Record WrittenFile : Type := mk_file {
  file_name : string;
  file_text : string
}.

(** One line of the list, as line 81 writes it. *)
Definition link_line (i : Z) (url : Url) : string :=
  str_of_int i ++ ". [" ++ py_str url ++ "](" ++ py_str url ++ ")" ++ Web.nl.

(** Lines 80-81: [for i, url in enumerate(sitemap_urls, 1): f.write(...)],
    from number [i] on, [f] being what the file holds so far. *)
Fixpoint write_links (i : Z) (sitemap_urls : list Url) (f : string) : string :=
  match sitemap_urls with
  | [] => f
  | url :: rest => write_links (i + 1) rest (f ++ link_line i url)
  end.

(** [now] is the clock reading of line 64, [now'] that of line 73. *)
Definition save_sitemap_links_to_markdown
    (is_word : ascii -> bool) (urlparse : string -> option ParseResult)
    (now now' : datetime) (base_url : string) (sitemap_urls : list Url)
    : option WrittenFile :=
  match urlparse base_url with
  | None => None
  | Some parsed_url =>
      let domain := netloc parsed_url in
      let filename := re_sub_invalid is_word (domain ++ "_sitemap_links") in
      let timestamp := strftime_stamp now in
      let filename := filename ++ "_" ++ timestamp ++ ".md" in
      let f := "" in
      let f := f ++ ("# Sitemap Links from " ++ base_url ++ Web.nl ++ Web.nl) in
      let f := f ++ ("Date: " ++ strftime_human now' ++ Web.nl ++ Web.nl) in
      let f := f ++ ("Base URL: " ++ base_url ++ Web.nl ++ Web.nl) in
      let f := f ++ ("Total URLs found: "
                     ++ str_of_int (Z.of_nat (List.length sitemap_urls))
                     ++ Web.nl ++ Web.nl) in
      let f := f ++ ("---" ++ Web.nl ++ Web.nl) in
      let f := f ++ ("## All URLs in Sitemap" ++ Web.nl ++ Web.nl) in
      let f := write_links 1 sitemap_urls f in
      Some (mk_file filename f)
  end.

(** The strings of a list one after the other. *)
Definition join (pieces : list string) : string :=
  fold_right append "" pieces.

(** The lines of the list for the URLs [urls], numbered from [i]. *)
Fixpoint numbered_links (i : nat) (urls : list Url) : list string :=
  match urls with
  | [] => []
  | url :: rest => link_line (Z.of_nat i) url :: numbered_links (S i) rest
  end.

(** ** The choice of URLs in [main] (crawler.py, lines 348-380)

    [crawl_all] and [how_many] are the answers typed at the two prompts
    (the second is only asked for when the first is not a yes);
    [int_of] is Python's [int] on a string, [None] when it raises
    [ValueError]. *)
Definition urls_to_crawl (int_of : string -> option Z) (base_url : string)
    (sitemap_urls : list Url) (crawl_all how_many : string) : list Url :=
  if negb (is_empty sitemap_urls) then
    if String.eqb (lower crawl_all) "y" then
      sitemap_urls
    else
      match int_of how_many with
      | Some num_urls =>
          let num_urls :=
            Z.max 1 (Z.min num_urls (Z.of_nat (List.length sitemap_urls))) in
          firstn (Z.to_nat num_urls) sitemap_urls
      | None => [Some base_url]
      end
  else [Some base_url].

(** Lines 364, 372, 376 and 380: the crawl [main] starts, with the
    default limits of [crawl_parallel]. *)
Definition main_crawl (env : nat -> Oracle) (schedule : list nat)
    (int_of : string -> option Z) (base_url : string)
    (sitemap_urls : list Url) (crawl_all how_many : string)
    : option RunStatistics :=
  crawl_parallel env schedule
    (map py_str (urls_to_crawl int_of base_url sitemap_urls crawl_all how_many))
    5 3.

Module Sample3.

(** [int] on the strings used below. *)
Definition int_of (s : string) : option Z :=
  if String.eqb s "2" then Some 2%Z
  else if String.eqb s "-7" then Some (-7)%Z
  else if String.eqb s "50" then Some 50%Z
  else None.

Definition found : list Url :=
  [Some "https://a.test/1"; Some "https://a.test/2"; Some "https://a.test/3"].

End Sample3.

(** * Properties *)

(** ** Worked examples of [format_sitemap_url] *)

Example format_sitemap_url_plain :
  format_sitemap_url "example.com/" = "https://example.com/sitemap.xml".
Proof. reflexivity. Qed.

Example format_sitemap_url_direct :
  format_sitemap_url "http://a.test/SiteMap_index.xml//" = "http://a.test/SiteMap_index.xml".
Proof. reflexivity. Qed.

(** The scheme is looked for after the trailing slashes are gone: a bare
    scheme loses its slashes first and is then given a scheme. *)
Example format_sitemap_url_bare_scheme :
  format_sitemap_url "http://" = "https://http:/sitemap.xml".
Proof. reflexivity. Qed.

Example format_sitemap_url_empty :
  format_sitemap_url "" = "https:///sitemap.xml".
Proof. reflexivity. Qed.

Lemma Some_inj {A : Type} (a b : A) : Some a = Some b -> a = b.
Proof. congruence. Qed.

(** ** Facts about the string primitives *)

Section StringFacts.

Lemma prefix_nil (s : string) : String.prefix "" s = true.
Proof. destruct s; reflexivity. Qed.

Lemma prefix_app_needle (a b s : string) :
  String.prefix (a ++ b) s = true -> String.prefix a s = true.
Proof.
  revert s; induction a as [|c a IH]; intros s H.
  - apply prefix_nil.
  - destruct s as [|d s]; simpl in *; [discriminate|].
    destruct (ascii_dec c d); [auto | discriminate].
Qed.

Lemma prefix_app_hay (p s t : string) :
  String.prefix p s = true -> String.prefix p (s ++ t) = true.
Proof.
  revert s; induction p as [|c p IH]; intros s H; [apply prefix_nil|].
  destruct s as [|d s]; simpl in *; [discriminate|].
  destruct (ascii_dec c d); [auto | discriminate].
Qed.

Lemma prefix_self_app (p t : string) : String.prefix p (p ++ t) = true.
Proof.
  induction p as [|c p IH]; simpl; [apply prefix_nil|].
  destruct (ascii_dec c c); [assumption | congruence].
Qed.

Lemma prefix_split (p s : string) :
  String.prefix p s = true <-> exists t, s = p ++ t.
Proof.
  split.
  - revert s; induction p as [|c p IH]; intros s H.
    + exists s; reflexivity.
    + destruct s as [|d s]; simpl in H; [discriminate|].
      destruct (ascii_dec c d) as [->|]; [|discriminate].
      destruct (IH _ H) as [t ->]. exists t; reflexivity.
  - intros [t ->]. apply prefix_self_app.
Qed.

Lemma contains_app_needle (s a b : string) :
  contains s (a ++ b) = true -> contains s a = true.
Proof.
  induction s as [|c s IH]; cbn [contains]; intros H.
  - apply orb_true_iff in H. destruct H as [H|H]; [|discriminate].
    rewrite (prefix_app_needle _ _ _ H). reflexivity.
  - apply orb_true_iff in H. apply orb_true_iff. destruct H as [H|H].
    + left. exact (prefix_app_needle _ _ _ H).
    + right. auto.
Qed.

Lemma contains_split (s sub : string) :
  contains s sub = true <-> exists pre post, s = pre ++ sub ++ post.
Proof.
  split.
  - induction s as [|c s IH]; cbn [contains]; intros H; apply orb_true_iff in H.
    + destruct H as [H|H]; [|discriminate].
      apply prefix_split in H. destruct H as [t H]. exists "", t. exact H.
    + destruct H as [H|H].
      * apply prefix_split in H. destruct H as [t H]. exists "", t. exact H.
      * destruct (IH H) as (pre & post & ->). exists (String c pre), post. reflexivity.
  - intros (pre & post & ->). induction pre as [|c pre IH].
    + change ("" ++ sub ++ post) with (sub ++ post).
      destruct (sub ++ post) as [|d r] eqn:E; cbn [contains].
      * destruct sub; [reflexivity | discriminate].
      * rewrite <- E, prefix_self_app. reflexivity.
    + change (String c pre ++ sub ++ post) with (String c (pre ++ sub ++ post)).
      cbn [contains]. rewrite IH. apply orb_true_r.
Qed.

Lemma contains_app_r (a b sub : string) :
  contains b sub = true -> contains (a ++ b) sub = true.
Proof.
  intros H. apply contains_split in H. destruct H as (pre & post & ->).
  apply contains_split. exists (a ++ pre), post.
  induction a; simpl; congruence.
Qed.

Lemma lower_app (a b : string) : lower (a ++ b) = lower a ++ lower b.
Proof. induction a; simpl; congruence. Qed.

Lemma lower_length (s : string) : String.length (lower s) = String.length s.
Proof. induction s; simpl; congruence. Qed.

Lemma app_assoc_str (a b c : string) : (a ++ b) ++ c = a ++ b ++ c.
Proof. induction a; simpl; congruence. Qed.

Lemma app_empty_r (a : string) : a ++ "" = a.
Proof. induction a; simpl; congruence. Qed.

Lemma length_app_str (a b : string) :
  String.length (a ++ b) = String.length a + String.length b.
Proof. induction a; simpl; congruence. Qed.

(** A string whose lower-casing splits in two splits the same way. *)
Lemma lower_eq_app (s a b : string) :
  lower s = a ++ b ->
  exists s1 s2, s = s1 ++ s2 /\ lower s1 = a /\ lower s2 = b.
Proof.
  revert s; induction a as [|c a IH]; intros s H.
  - exists "", s. auto.
  - destruct s as [|d s]; simpl in H; [discriminate|].
    injection H as Hc H. destruct (IH _ H) as (s1 & s2 & -> & <- & <-).
    exists (String d s1), s2. simpl. rewrite Hc. auto.
Qed.

Lemma rstrip_split (s chars : string) :
  exists t, s = rstrip s chars ++ t /\
            (forall c, mem c t = true -> mem c chars = true).
Proof.
  induction s as [|a s (t & Ht & Hin)]; simpl.
  - exists "". split; [reflexivity | intros c H; discriminate].
  - destruct (rstrip s chars) as [|b r] eqn:E.
    + destruct (mem a chars) eqn:Ea.
      * exists (String a t). simpl in Ht. split; [simpl; congruence|].
        intros c H. simpl in H. apply orb_true_iff in H. destruct H as [H|H]; [|auto].
        apply Ascii.eqb_eq in H. congruence.
      * exists t. simpl in *. split; [congruence | assumption].
    + exists t. split; [simpl in *; congruence | assumption].
Qed.

Lemma rstrip_last (s chars : string) (c : ascii) :
  last_char (rstrip s chars) = Some c -> mem c chars = false.
Proof.
  revert c; induction s as [|a s IH]; simpl; intros c H; [discriminate|].
  destruct (rstrip s chars) as [|b r] eqn:E.
  - destruct (mem a chars) eqn:Ea; simpl in H; [discriminate|]. congruence.
  - apply IH. simpl in H. exact H.
Qed.

Lemma rstrip_fix (s chars : string) :
  (forall c, last_char s = Some c -> mem c chars = false) ->
  rstrip s chars = s.
Proof.
  induction s as [|a s IH]; intros H; [reflexivity|].
  simpl. destruct s as [|b s].
  - simpl. rewrite (H a eq_refl). reflexivity.
  - rewrite IH by (intros c Hc; apply H; exact Hc).
    reflexivity.
Qed.

Lemma rstrip_idem (s chars : string) :
  rstrip (rstrip s chars) chars = rstrip s chars.
Proof. apply rstrip_fix. intros c. apply rstrip_last. Qed.

Lemma last_char_app (a b : string) :
  b <> "" -> last_char (a ++ b) = last_char b.
Proof.
  intros Hb. induction a as [|c a IH]; [reflexivity|].
  simpl. destruct (a ++ b) eqn:E; [|assumption].
  destruct a; simpl in E; [congruence | discriminate].
Qed.

Lemma all_slashes (t : string) :
  (forall c, mem c t = true -> mem c "/" = true) ->
  t = replicate (String.length t) "/".
Proof.
  induction t as [|a t IH]; intros H; [reflexivity|].
  simpl. assert (Ha : mem a "/" = true).
  { apply H. simpl. rewrite Ascii.eqb_refl. reflexivity. }
  simpl in Ha. rewrite orb_false_r in Ha. apply Ascii.eqb_eq in Ha. subst a.
  f_equal. apply IH. intros c Hc. apply H. simpl. rewrite Hc. apply orb_true_r.
Qed.

End StringFacts.

(** ** [format_sitemap_url] *)

Lemma markers_collapse (s : string) :
  existsb (fun x => contains s x) sitemap_markers = contains s "sitemap".
Proof.
  unfold sitemap_markers. cbn [existsb].
  destruct (contains s "sitemap") eqn:E; [reflexivity|].
  destruct (contains s "sitemap.xml") eqn:E1.
  { apply (contains_app_needle s "sitemap" ".xml") in E1. congruence. }
  destruct (contains s "sitemap_index.xml") eqn:E2.
  { apply (contains_app_needle s "sitemap" "_index.xml") in E2. congruence. }
  reflexivity.
Qed.

Lemma mentions_sitemap_iff (u : string) :
  contains (lower u) "sitemap" = true <-> mentions_sitemap u.
Proof.
  unfold mentions_sitemap. split.
  - intros H. apply contains_split in H. destruct H as (pre & post & H).
    apply lower_eq_app in H. destruct H as (s1 & s2 & -> & _ & H2).
    apply lower_eq_app in H2. destruct H2 as (m & p & -> & Hm & _).
    exists s1, m, p. auto.
  - intros (pre & mid & post & -> & Hm). apply contains_split.
    exists (lower pre), (lower post). rewrite !lower_app, Hm. reflexivity.
Qed.

Lemma format_sitemap_url_unfold (url : string) :
  let stripped := rstrip url "/" in
  let u := if has_scheme stripped then stripped else "https://" ++ stripped in
  format_sitemap_url url =
    if contains (lower u) "sitemap" then u else u ++ "/sitemap.xml".
Proof.
  cbv zeta. unfold format_sitemap_url, has_scheme.
  destruct (startswith (rstrip url "/") "http://" || startswith (rstrip url "/") "https://");
    cbn [negb]; rewrite markers_collapse; reflexivity.
Qed.

(** C8. For every input string, [format_sitemap_url] removes the whole run
    of trailing slashes, puts [https://] in front when what is left starts
    with neither [http://] nor [https://], returns that URL unchanged when
    it mentions "sitemap" in any letter case, and otherwise returns it
    with [/sitemap.xml] appended. *)
Theorem format_sitemap_url_spec (url : string) :
  exists n : nat,
    let stripped := rstrip url "/" in
    let u := if has_scheme stripped then stripped else "https://" ++ stripped in
    url = stripped ++ replicate n "/" /\
    last_char stripped <> Some "/"%char /\
    ((mentions_sitemap u /\ format_sitemap_url url = u) \/
     (~ mentions_sitemap u /\ format_sitemap_url url = u ++ "/sitemap.xml")).
Proof.
  destruct (rstrip_split url "/") as (t & Ht & Hall).
  exists (String.length t). cbv zeta.
  split; [rewrite <- (all_slashes t Hall); exact Ht|].
  split.
  { intros H. apply rstrip_last in H. discriminate. }
  rewrite format_sitemap_url_unfold. cbv zeta.
  set (u := if has_scheme (rstrip url "/") then rstrip url "/"
            else "https://" ++ rstrip url "/").
  destruct (contains (lower u) "sitemap") eqn:E.
  - left. split; [apply mentions_sitemap_iff; exact E | reflexivity].
  - right. split; [|reflexivity].
    intros H. apply mentions_sitemap_iff in H. congruence.
Qed.

Lemma has_scheme_app (u t : string) :
  has_scheme u = true -> has_scheme (u ++ t) = true.
Proof.
  unfold has_scheme, startswith. intros H. apply orb_true_iff in H.
  apply orb_true_iff. destruct H as [H|H]; [left|right];
    apply prefix_app_hay; exact H.
Qed.

Lemma rstrip_app_keep (a b chars : string) :
  b <> "" -> rstrip b chars = b -> rstrip (a ++ b) chars = a ++ b.
Proof.
  intros Hb Hfix. apply rstrip_fix. intros c Hc.
  rewrite last_char_app in Hc by assumption.
  rewrite <- Hfix in Hc. exact (rstrip_last _ _ _ Hc).
Qed.

(** *** The scheme test and the trailing slashes

    The code tests for a scheme after it has removed the trailing
    slashes.  Testing the input instead gives the same answer, except
    when what is left of the input is a bare [http:] or [https:]. *)

Lemma prefix_of_replicate (p : string) (n : nat) (c : ascii) :
  String.prefix p (replicate n c) = true -> p = replicate (String.length p) c.
Proof.
  revert n; induction p as [|d p IH]; intros n H; [reflexivity|].
  destruct n as [|n]; simpl in H; [discriminate|].
  destruct (ascii_dec d c) as [->|]; [|discriminate].
  simpl. f_equal. eapply IH; eauto.
Qed.

Lemma prefix_app_replicate (p : string) (c : ascii) :
  forall (s : string) (n : nat),
    String.prefix p (s ++ replicate n c) = true ->
    String.prefix p s = true \/
    exists j, 1 <= j /\ p = s ++ replicate j c.
Proof.
  induction p as [|d p IH]; intros s n H; [left; apply prefix_nil|].
  destruct s as [|a s].
  - right. exists (String.length (String d p)). split; [simpl; lia|].
    apply (prefix_of_replicate _ n). exact H.
  - simpl in H. destruct (ascii_dec d a) as [->|]; [|discriminate].
    destruct (IH s n H) as [Hp|(j & Hj & ->)].
    + left. simpl. destruct (ascii_dec a a); [exact Hp | congruence].
    + right. exists j. split; [exact Hj | reflexivity].
Qed.

Lemma startswith_stripped (p s : string) (n : nat) :
  (forall j, 1 <= j -> p <> s ++ replicate j "/") ->
  startswith (s ++ replicate n "/") p = startswith s p.
Proof.
  intros Hno. unfold startswith. destruct (String.prefix p s) eqn:E.
  - apply prefix_app_hay. exact E.
  - destruct (String.prefix p (s ++ replicate n "/")) eqn:E2; [|reflexivity].
    destruct (prefix_app_replicate _ _ _ _ E2) as [Hp|(j & Hj & Hpj)];
      [congruence | exfalso; exact (Hno j Hj Hpj)].
Qed.

Ltac peel s H :=
  destruct s as [|? s]; simpl in H;
  [ match type of H with
    | _ = replicate ?j _ =>
        destruct j as [|j]; [lia | simpl in H; try discriminate H]
    end
  | injection H as <- H ].

Lemma http_not_stripped (s : string) (j : nat) :
  1 <= j -> last_char s <> Some "/"%char -> s <> "http:" ->
  "http://" <> s ++ replicate j "/".
Proof.
  intros Hj Hlast Hs H.
  do 5 (peel s H). peel s H.
  - apply Hs. reflexivity.
  - peel s H.
    + apply Hlast. reflexivity.
    + destruct s; [destruct j; [lia | discriminate H] | discriminate H].
Qed.

Lemma https_not_stripped (s : string) (j : nat) :
  1 <= j -> last_char s <> Some "/"%char -> s <> "https:" ->
  "https://" <> s ++ replicate j "/".
Proof.
  intros Hj Hlast Hs H.
  do 6 (peel s H). peel s H.
  - apply Hs. reflexivity.
  - peel s H.
    + apply Hlast. reflexivity.
    + destruct s; [destruct j; [lia | discriminate H] | discriminate H].
Qed.

Lemma has_scheme_rstrip (url : string) :
  rstrip url "/" <> "http:" -> rstrip url "/" <> "https:" ->
  has_scheme url = has_scheme (rstrip url "/").
Proof.
  intros H1 H2. destruct (rstrip_split url "/") as (t & Ht & Hall).
  rewrite (all_slashes t Hall) in Ht.
  assert (Hlast : last_char (rstrip url "/") <> Some "/"%char).
  { intros H. apply rstrip_last in H. discriminate. }
  unfold has_scheme. rewrite Ht at 1 2.
  rewrite !startswith_stripped; [reflexivity | |].
  - intros j Hj. apply https_not_stripped; assumption.
  - intros j Hj. apply http_not_stripped; assumption.
Qed.

(** What every result of [format_sitemap_url] looks like. *)
Lemma format_sitemap_url_shape (url : string) :
  let r := format_sitemap_url url in
  has_scheme r = true /\ rstrip r "/" = r /\ contains (lower r) "sitemap" = true.
Proof.
  cbv zeta. rewrite format_sitemap_url_unfold. cbv zeta.
  set (s := rstrip url "/").
  assert (Hs : rstrip s "/" = s) by apply rstrip_idem.
  set (u := if has_scheme s then s else "https://" ++ s).
  assert (Hu : has_scheme u = true).
  { subst u. destruct (has_scheme s) eqn:E; [exact E|].
    unfold has_scheme, startswith. rewrite (prefix_self_app "https://" s).
    apply orb_true_r. }
  destruct (contains (lower u) "sitemap") eqn:E.
  - split; [exact Hu|]. split; [|exact E].
    subst u. destruct (has_scheme s); [exact Hs|].
    apply rstrip_app_keep; [|exact Hs].
    intros ->. vm_compute in E. discriminate.
  - split; [apply has_scheme_app; exact Hu|]. split.
    + apply rstrip_app_keep; [discriminate | reflexivity].
    + rewrite lower_app. apply contains_app_r. reflexivity.
Qed.

(** C9. [format_sitemap_url] is idempotent, and every result carries a
    scheme, has no trailing slash and mentions "sitemap" (letter case
    ignored). *)
Theorem format_sitemap_url_idempotent (url : string) :
  format_sitemap_url (format_sitemap_url url) = format_sitemap_url url /\
  has_scheme (format_sitemap_url url) = true /\
  last_char (format_sitemap_url url) <> Some "/"%char /\
  mentions_sitemap (format_sitemap_url url).
Proof.
  destruct (format_sitemap_url_shape url) as (Hsch & Hfix & Hsm).
  cbv zeta in *. set (r := format_sitemap_url url) in *.
  split; [|split; [exact Hsch|split]].
  - rewrite (format_sitemap_url_unfold r). cbv zeta.
    rewrite Hfix, Hsch, Hsm. reflexivity.
  - rewrite <- Hfix. intros H. apply rstrip_last in H. discriminate.
  - apply mentions_sitemap_iff. exact Hsm.
Qed.

(** ** [strftime] and the file name of [save_markdown_file] *)

Lemma dec_aux_length (k : nat) :
  forall (fuel : nat) (n : Z) (acc : string),
    (0 <= n < 10 ^ Z.of_nat (S k))%Z ->
    (k = 0 \/ (10 ^ Z.of_nat k <= n)%Z) ->
    S k <= fuel ->
    String.length (dec_aux fuel n acc) = S k + String.length acc.
Proof.
  induction k as [|k IH]; intros fuel n acc Hn Hlow Hfuel;
    (destruct fuel as [|fuel]; [lia|]); cbn [dec_aux].
  - change (10 ^ Z.of_nat 1)%Z with 10%Z in Hn.
    replace (n <? 10)%Z with true by (symmetry; apply Z.ltb_lt; lia).
    reflexivity.
  - destruct Hlow as [Hlow|Hlow]; [discriminate|].
    rewrite Nat2Z.inj_succ, Z.pow_succ_r in Hlow by lia.
    rewrite (Nat2Z.inj_succ (S k)), Z.pow_succ_r in Hn by lia.
    assert (Hpos : (0 < 10 ^ Z.of_nat k)%Z) by (apply Z.pow_pos_nonneg; lia).
    replace (n <? 10)%Z with false by (symmetry; apply Z.ltb_ge; lia).
    rewrite IH.
    + simpl. lia.
    + split; [apply Z.div_pos; lia|].
      apply Z.div_lt_upper_bound; lia.
    + right. apply Z.div_le_lower_bound; lia.
    + lia.
Qed.

Lemma str_of_int_length_1 (n : Z) :
  (0 <= n < 10)%Z -> String.length (str_of_int n) = 1.
Proof.
  intros H. unfold str_of_int.
  rewrite (dec_aux_length 0); [reflexivity | | now left | lia].
  change (10 ^ Z.of_nat 1)%Z with 10%Z. lia.
Qed.

Lemma str_of_int_length_2 (n : Z) :
  (10 <= n < 100)%Z -> String.length (str_of_int n) = 2.
Proof.
  intros H. unfold str_of_int.
  rewrite (dec_aux_length 1); [reflexivity | | right | lia].
  - change (10 ^ Z.of_nat 2)%Z with 100%Z. lia.
  - change (10 ^ Z.of_nat 1)%Z with 10%Z. lia.
Qed.

Lemma str_of_int_length_4 (n : Z) :
  (1000 <= n <= 9999)%Z -> String.length (str_of_int n) = 4.
Proof.
  intros H. unfold str_of_int.
  rewrite (dec_aux_length 3); [reflexivity | | right | lia].
  - change (10 ^ Z.of_nat 4)%Z with 10000%Z. lia.
  - change (10 ^ Z.of_nat 3)%Z with 1000%Z. lia.
Qed.

Lemma fmt_02_length (n : Z) :
  (0 <= n < 100)%Z -> String.length (fmt_02 n) = 2.
Proof.
  intros H. unfold fmt_02. destruct (n <? 10)%Z eqn:E.
  - apply Z.ltb_lt in E. simpl. rewrite str_of_int_length_1; lia.
  - apply Z.ltb_ge in E. apply str_of_int_length_2. lia.
Qed.

(** With a four-digit year the stamp [%Y%m%d_%H%M%S] has 15 characters. *)
Lemma strftime_stamp_length (d : datetime) :
  valid_datetime d -> (1000 <= year d)%Z ->
  String.length (strftime_stamp d) = 15.
Proof.
  intros (Hy & Hm & Hd & Hh & Hmi & Hs) Hy4. unfold strftime_stamp.
  rewrite !length_app_str.
  rewrite str_of_int_length_4 by lia.
  rewrite !fmt_02_length by lia. reflexivity.
Qed.

Lemma re_sub_invalid_length (is_word : ascii -> bool) (s : string) :
  String.length (re_sub_invalid is_word s) = String.length s.
Proof. induction s; simpl; congruence. Qed.

Lemma re_sub_invalid_allowed (is_word : ascii -> bool) (s : string) :
  all_chars (keep_char is_word) (re_sub_invalid is_word s) = true.
Proof.
  induction s as [|c s IH]; [reflexivity|]. simpl. rewrite IH.
  destruct (keep_char is_word c) eqn:E; rewrite ?E; [reflexivity|].
  unfold keep_char. simpl. rewrite orb_true_r. reflexivity.
Qed.

(** Character by character: kept when allowed, an underscore otherwise. *)
Lemma re_sub_invalid_get (is_word : ascii -> bool) (s : string) (i : nat) :
  String.get i (re_sub_invalid is_word s) =
  option_map (fun c => if keep_char is_word c then c else "_"%char) (String.get i s).
Proof.
  revert i; induction s as [|c s IH]; intros [|i]; simpl; auto.
Qed.

Lemma take_length (n : nat) (s : string) : String.length (take n s) <= n.
Proof.
  revert s; induction n as [|n IH]; intros [|c s]; simpl; try lia.
  specialize (IH s). lia.
Qed.

Lemma take_all_chars (p : ascii -> bool) (n : nat) (s : string) :
  all_chars p s = true -> all_chars p (take n s) = true.
Proof.
  revert s; induction n as [|n IH]; intros [|c s]; simpl; auto.
  intros H. apply andb_true_iff in H. destruct H as [-> H]. simpl. auto.
Qed.

Lemma endswith_app (a b : string) : endswith (a ++ b) b = true.
Proof.
  induction a as [|c a IH].
  - change ("" ++ b) with b. destruct b; cbn [endswith];
      rewrite String.eqb_refl; reflexivity.
  - change (String c a ++ b) with (String c (a ++ b)). cbn [endswith].
    rewrite IH. apply orb_true_r.
Qed.

Lemma take_length_min (n : nat) (s : string) :
  String.length (take n s) = Nat.min n (String.length s).
Proof. revert s; induction n as [|n IH]; intros [|c s]; simpl; auto. Qed.

(** Below the cut a slice has the characters of the string. *)
Lemma take_get (n i : nat) (s : string) :
  i < n -> String.get i (take n s) = String.get i s.
Proof.
  revert i s; induction n as [|n IH]; intros i s Hi; [lia|].
  destruct s as [|c s]; [reflexivity|].
  destruct i as [|i]; simpl; [reflexivity|]. apply IH. lia.
Qed.

Lemma keep_char_iff (is_word : ascii -> bool) (c : ascii) :
  keep_char is_word c = true <->
  is_word c = true \/ c = "-"%char \/ c = "_"%char \/ c = "."%char.
Proof.
  unfold keep_char. cbn [mem]. rewrite !orb_true_iff, !Ascii.eqb_eq.
  split.
  - intros [H|[H|[H|[H|H]]]]; auto. discriminate.
  - intros [H|[H|[H|H]]]; auto.
Qed.

Lemma all_chars_get (p : ascii -> bool) (s : string) :
  all_chars p s = true ->
  forall (i : nat) (c : ascii), String.get i s = Some c -> p c = true.
Proof.
  induction s as [|d s IH]; intros H i c Hget; [discriminate|].
  cbn [all_chars] in H. apply andb_true_iff in H. destruct H as [Hd Hs].
  destruct i as [|i]; simpl in Hget.
  - apply Some_inj in Hget. subst d. exact Hd.
  - exact (IH Hs i c Hget).
Qed.

(** C10. Whatever the URL and the content, the file name is a base, then
    [_], the 15-character time stamp and [.md].  The base is the text
    [netloc_path] (the path without the slashes at its ends) cut to its
    first 200 characters, each character kept when it is a word
    character, [-], [_] or [.] and replaced by [_] otherwise; so it is
    made of those characters only and is at most 200 characters long,
    and the name has at most 219 characters and ends in [.md]. *)
Theorem save_markdown_file_name
    (is_word : ascii -> bool) (urlparse : string -> option ParseResult)
    (now : datetime) (url markdown_content name : string) :
  valid_datetime now -> (1000 <= year now)%Z ->
  save_markdown_file is_word urlparse now url markdown_content = Some name ->
  exists (parsed_url : ParseResult) (base : string),
    let raw := netloc parsed_url ++ "_" ++ strip (path parsed_url) "/" in
    let allowed (c : ascii) :=
      is_word c = true \/ c = "-"%char \/ c = "_"%char \/ c = "."%char in
    urlparse url = Some parsed_url /\
    name = base ++ "_" ++ strftime_stamp now ++ ".md" /\
    String.length base = Nat.min 200 (String.length raw) /\
    (forall (i : nat) (c : ascii),
       i < 200 -> String.get i raw = Some c ->
       (allowed c /\ String.get i base = Some c) \/
       (~ allowed c /\ String.get i base = Some "_"%char)) /\
    (forall (i : nat) (c : ascii), String.get i base = Some c -> allowed c) /\
    all_chars (keep_char is_word) base = true /\
    String.length base <= 200 /\
    String.length (strftime_stamp now) = 15 /\
    String.length name <= 219 /\
    endswith name ".md" = true.
Proof.
  intros Hvalid Hy4 Hrun. unfold save_markdown_file in Hrun.
  destruct (urlparse url) as [parsed_url|]; [|discriminate].
  cbv zeta in Hrun. apply Some_inj in Hrun. subst name.
  exists parsed_url.
  set (raw := netloc parsed_url ++ "_" ++ strip (path parsed_url) "/").
  set (sub := re_sub_invalid is_word raw).
  set (base := if 200 <? String.length sub then take 200 sub else sub).
  assert (Hchars : all_chars (keep_char is_word) base = true).
  { subst base. destruct (200 <? String.length sub);
      [apply take_all_chars|]; apply re_sub_invalid_allowed. }
  assert (Hmin : String.length base = Nat.min 200 (String.length raw)).
  { subst base. destruct (200 <? String.length sub) eqn:E.
    - rewrite take_length_min. subst sub.
      rewrite re_sub_invalid_length. reflexivity.
    - apply Nat.ltb_ge in E. subst sub.
      rewrite re_sub_invalid_length in *. lia. }
  assert (Hget : forall i, i < 200 -> String.get i base = String.get i sub).
  { intros i Hi. subst base. destruct (200 <? String.length sub);
      [apply take_get; exact Hi | reflexivity]. }
  assert (Hlen : String.length base <= 200) by lia.
  pose proof (strftime_stamp_length now Hvalid Hy4) as Hts.
  exists base. cbv zeta.
  split; [reflexivity|]. split; [reflexivity|]. split; [exact Hmin|].
  split; [|split; [|split; [exact Hchars|]]].
  - intros i c Hi Hc. rewrite (Hget i Hi). subst sub.
    rewrite re_sub_invalid_get, Hc. cbn [option_map].
    destruct (keep_char is_word c) eqn:E.
    + left. split; [apply keep_char_iff; exact E | reflexivity].
    + right. split; [|reflexivity].
      intros H. apply keep_char_iff in H. congruence.
  - intros i c Hc. apply keep_char_iff.
    exact (all_chars_get _ _ Hchars i c Hc).
  - split; [exact Hlen|]. split; [exact Hts|]. split.
    + rewrite !length_app_str, Hts. simpl. lia.
    + replace (base ++ "_" ++ strftime_stamp now ++ ".md")
        with ((base ++ "_" ++ strftime_stamp now) ++ ".md")
        by (rewrite !app_assoc_str; reflexivity).
      apply endswith_app.
Qed.

(** ** [get_urls_from_sitemap] *)

(** The [try] of [get_urls_from_sitemap] catches everything: the call
    returns or runs out of fuel. *)
Lemma get_urls_no_raise (W : World) (fuel : nat) (url : Url) (t : nat)
    (e : Exn) (t' : nat) :
  get_urls_from_sitemap W fuel url t <> Raise e t'.
Proof.
  destruct fuel as [|fuel]; simpl; [discriminate|].
  unfold try_except.
  match goal with |- context [match ?m t with _ => _ end] => destruct (m t) end;
    unfold ret; discriminate.
Qed.

Lemma for_extend_no_raise (W : World) (fuel : nat) (xs : list Url) :
  forall (acc : list Url) (t : nat) (e : Exn) (t' : nat),
    for_extend (get_urls_from_sitemap W fuel) xs acc t <> Raise e t'.
Proof.
  induction xs as [|x xs IH]; intros acc t e t'; simpl; [discriminate|].
  unfold bind.
  destruct (get_urls_from_sitemap W fuel x t) as [l t1|e1 t1|] eqn:E.
  - apply IH.
  - exfalso. exact (get_urls_no_raise _ _ _ _ _ _ E).
  - discriminate.
Qed.

Lemma for_extend_yield (W : World) (fuel : nat) (xs : list Url) (t t' : nat)
    (ls : list (list Url)) :
  children_yield W fuel xs t ls t' ->
  forall acc, for_extend (get_urls_from_sitemap W fuel) xs acc t
              = Return (acc ++ List.concat ls)%list t'.
Proof.
  induction 1 as [t|c cs t t1 t2 l ls Hc _ IH]; intros acc; simpl.
  - rewrite app_nil_r. reflexivity.
  - unfold bind. rewrite Hc, IH, app_assoc. reflexivity.
Qed.

(** One level of the function, case by case. *)
Lemma get_urls_none (W : World) (fuel t : nat) :
  get_urls_from_sitemap W (S fuel) None t = Return [] t.
Proof. reflexivity. Qed.

Lemma get_urls_request_fails (W : World) (fuel t : nat) (u : string) :
  http W t u = None ->
  get_urls_from_sitemap W (S fuel) (Some u) t = Return [] (S t).
Proof.
  intros H. simpl. unfold try_except, bind, requests_get. rewrite H. reflexivity.
Qed.

Lemma get_urls_status_fails (W : World) (fuel t : nat) (u : string) (r : Response) :
  http W t u = Some r -> is_error_status (status_code r) = true ->
  get_urls_from_sitemap W (S fuel) (Some u) t = Return [] (S t).
Proof.
  intros H Hs. simpl. unfold try_except, bind, requests_get, raise_for_status.
  rewrite H, Hs. reflexivity.
Qed.

Lemma get_urls_parse_fails (W : World) (fuel t : nat) (u : string) (r : Response) :
  http W t u = Some r -> xml_fromstring W (content r) = None ->
  get_urls_from_sitemap W (S fuel) (Some u) t = Return [] (S t).
Proof.
  intros H Hp. simpl.
  unfold try_except, bind, requests_get, raise_for_status, fromstring.
  rewrite H, Hp. destruct (is_error_status (status_code r)); reflexivity.
Qed.

Lemma get_urls_fails_here (W : World) (fuel t : nat) (url : Url) :
  fails_here W t url ->
  get_urls_from_sitemap W (S fuel) url t = Return [] (after_failure t url).
Proof.
  destruct url as [u|]; [|intros _; apply get_urls_none].
  unfold fails_here. simpl after_failure.
  destruct (http W t u) as [r|] eqn:E.
  - intros [Hs|Hp];
      [eapply get_urls_status_fails | eapply get_urls_parse_fails]; eauto.
  - intros _. apply get_urls_request_fails. exact E.
Qed.

Lemma get_urls_document (W : World) (fuel t : nat) (u : string) (r : Response)
    (root : Element) :
  http W t u = Some r ->
  is_error_status (status_code r) = false ->
  xml_fromstring W (content r) = Some root ->
  get_urls_from_sitemap W (S fuel) (Some u) t =
    if endswith (tag root) "sitemapindex"
    then for_extend (get_urls_from_sitemap W fuel)
                    (map elem_text (findall_loc root)) [] (S t)
    else Return (map elem_text (findall_loc root)) (S t).
Proof.
  intros H Hs Hp. cbn [get_urls_from_sitemap].
  unfold try_except, bind, requests_get, raise_for_status, fromstring.
  rewrite H, Hs. cbn [ret]. rewrite Hp. cbn [ret].
  destruct (endswith (tag root) "sitemapindex"); [|reflexivity].
  destruct (for_extend _ _ _ _) as [l t1|e t1|] eqn:E; try reflexivity.
  exfalso. exact (for_extend_no_raise _ _ _ _ _ _ _ E).
Qed.

Lemma length_concat_sum {A : Type} (ls : list (list A)) :
  List.length (List.concat ls) = list_sum (map (@List.length A) ls).
Proof.
  induction ls as [|l ls IH]; simpl; [reflexivity|].
  rewrite length_app, IH. reflexivity.
Qed.

(** C5. A fetched document whose root tag ends in [sitemapindex], with
    child sitemap URLs of which child [i] yields the list [ls_i], resolves
    to the concatenation of the [ls_i] in child order, the sum of their
    lengths in all; a document with any other root tag resolves to its
    own [<loc>] values. *)
Theorem get_urls_from_sitemap_index_concat
    (W : World) (fuel t : nat) (url : string) (r : Response) (root : Element) :
  http W t url = Some r ->
  is_error_status (status_code r) = false ->
  xml_fromstring W (content r) = Some root ->
  (endswith (tag root) "sitemapindex" = true ->
   forall (ls : list (list Url)) (t' : nat),
     children_yield W fuel (map elem_text (findall_loc root)) (S t) ls t' ->
     get_urls_from_sitemap W (S fuel) (Some url) t = Return (List.concat ls) t' /\
     List.length (List.concat ls) = list_sum (map (@List.length Url) ls)) /\
  (endswith (tag root) "sitemapindex" = false ->
   get_urls_from_sitemap W (S fuel) (Some url) t =
     Return (map elem_text (findall_loc root)) (S t)).
Proof.
  intros H Hs Hp. rewrite (get_urls_document W fuel t url r root H Hs Hp).
  split; intros Htag; rewrite Htag; [|reflexivity].
  intros ls t' Hy. split; [|apply length_concat_sum].
  rewrite (for_extend_yield _ _ _ _ _ _ Hy). reflexivity.
Qed.

Lemma children_yield_app (W : World) (fuel : nat) (xs ys : list Url)
    (t t1 t2 : nat) (ls1 ls2 : list (list Url)) :
  children_yield W fuel xs t ls1 t1 ->
  children_yield W fuel ys t1 ls2 t2 ->
  children_yield W fuel (xs ++ ys) t (ls1 ++ ls2) t2.
Proof.
  induction 1 as [t|c cs t ta tb l ls Hc _ IH]; intros Hys; simpl.
  - exact Hys.
  - econstructor; [exact Hc | apply IH; exact Hys].
Qed.

Lemma for_extend_returns (W : World) (fuel : nat) (xs : list Url) :
  (forall c t, In c xs ->
     exists l t', get_urls_from_sitemap W fuel c t = Return l t') ->
  forall acc t, exists l t',
    for_extend (get_urls_from_sitemap W fuel) xs acc t = Return l t'.
Proof.
  induction xs as [|x xs IH]; intros Hall acc t; simpl.
  - eexists _, _. reflexivity.
  - unfold bind. destruct (Hall x t (or_introl eq_refl)) as (l & t1 & ->).
    apply IH. intros c t0 Hc. apply Hall. right. exact Hc.
Qed.

(** On acyclic indexes, fuel above the rank of the URL is enough. *)
Lemma get_urls_returns (W : World) (rank : Url -> nat) :
  ranked W rank ->
  forall (fuel : nat) (url : Url) (t : nat),
    rank url < fuel ->
    exists l t', get_urls_from_sitemap W fuel url t = Return l t'.
Proof.
  intros Hrank. induction fuel as [|fuel IH]; intros url t Hlt; [lia|].
  destruct url as [u|]; [|eexists _, _; apply get_urls_none].
  destruct (http W t u) as [r|] eqn:Hget;
    [|eexists _, _; apply get_urls_request_fails; exact Hget].
  destruct (is_error_status (status_code r)) eqn:Hs;
    [eexists _, _; eapply get_urls_status_fails; eauto|].
  destruct (xml_fromstring W (content r)) as [root|] eqn:Hp;
    [|eexists _, _; eapply get_urls_parse_fails; eauto].
  rewrite (get_urls_document W fuel t u r root Hget Hs Hp).
  destruct (endswith (tag root) "sitemapindex") eqn:Htag;
    [|eexists _, _; reflexivity].
  apply for_extend_returns. intros c t0 Hc. apply IH.
  specialize (Hrank t u r root c Hget Hp Htag Hc). lia.
Qed.

(** More fuel does not change a result. *)
Lemma get_urls_fuel_mono (W : World) (fuel : nat) :
  forall (url : Url) (t : nat) (l : list Url) (t' : nat),
    get_urls_from_sitemap W fuel url t = Return l t' ->
    get_urls_from_sitemap W (S fuel) url t = Return l t'.
Proof.
  induction fuel as [|fuel IH]; intros url t l t' H; [discriminate|].
  destruct url as [u|]; [|exact H].
  destruct (http W t u) as [r|] eqn:Hget.
  2:{ rewrite get_urls_request_fails in H by assumption.
      rewrite get_urls_request_fails by assumption. exact H. }
  destruct (is_error_status (status_code r)) eqn:Hs.
  { rewrite (get_urls_status_fails W fuel t u r) in H by assumption.
    rewrite (get_urls_status_fails W (S fuel) t u r) by assumption. exact H. }
  destruct (xml_fromstring W (content r)) as [root|] eqn:Hp.
  2:{ rewrite (get_urls_parse_fails W fuel t u r) in H by assumption.
      rewrite (get_urls_parse_fails W (S fuel) t u r) by assumption. exact H. }
  rewrite (get_urls_document W (S fuel) t u r root Hget Hs Hp).
  rewrite (get_urls_document W fuel t u r root Hget Hs Hp) in H.
  destruct (endswith (tag root) "sitemapindex"); [|exact H].
  revert H. generalize (@nil Url) (S t) (map elem_text (findall_loc root)).
  intros acc t0 xs; revert acc t0.
  induction xs as [|x xs IHxs]; intros acc t0; cbn [for_extend]; [auto|].
  unfold bind.
  destruct (get_urls_from_sitemap W fuel x t0) as [lx tx|ex tx|] eqn:Ex;
    try discriminate.
  rewrite (IH _ _ _ _ Ex). apply IHxs.
Qed.

(** C7, as the code has it. [get_urls_from_sitemap] never raises; a
    fetch that ends in an exception at some level ([requests.get] raises,
    a 4xx or 5xx status, a body that does not parse) makes that call
    return the empty list; the lists of the other children of the same
    index are returned all the same; and with acyclic indexes the call
    returns. *)
Theorem get_urls_from_sitemap_contains_errors (W : World) :
  (forall fuel url t e t', get_urls_from_sitemap W fuel url t <> Raise e t') /\
  (forall fuel url t,
     fails_here W t url ->
     get_urls_from_sitemap W (S fuel) url t = Return [] (after_failure t url)) /\
  (forall fuel t u r root pre bad post ls1 t1 ls2 t2,
     http W t u = Some r ->
     is_error_status (status_code r) = false ->
     xml_fromstring W (content r) = Some root ->
     endswith (tag root) "sitemapindex" = true ->
     map elem_text (findall_loc root) = (pre ++ bad :: post)%list ->
     children_yield W (S fuel) pre (S t) ls1 t1 ->
     fails_here W t1 bad ->
     children_yield W (S fuel) post (after_failure t1 bad) ls2 t2 ->
     get_urls_from_sitemap W (S (S fuel)) (Some u) t
       = Return (List.concat ls1 ++ List.concat ls2)%list t2) /\
  (forall rank, ranked W rank ->
     forall fuel url t, rank url < fuel ->
       exists l t', get_urls_from_sitemap W fuel url t = Return l t').
Proof.
  split; [intros; apply get_urls_no_raise|].
  split; [intros; apply get_urls_fails_here; assumption|].
  split; [|intros rank Hr; apply get_urls_returns; exact Hr].
  intros fuel t u r root pre bad post ls1 t1 ls2 t2 Hget Hs Hp Htag Hkids H1 Hbad H2.
  rewrite (get_urls_document W (S fuel) t u r root Hget Hs Hp), Htag, Hkids.
  assert (Hy : children_yield W (S fuel) (pre ++ bad :: post) (S t)
                 (ls1 ++ [] :: ls2) t2).
  { apply (children_yield_app _ _ _ _ _ _ _ _ _ H1).
    econstructor; [apply get_urls_fails_here; exact Hbad | exact H2]. }
  rewrite (for_extend_yield _ _ _ _ _ _ Hy). simpl.
  rewrite concat_app. reflexivity.
Qed.

(** *** Runs on the small webs *)

Example resolve_site_a :
  get_urls_from_sitemap Web.site_a 2 (Some "https://a.test/sitemap_index.xml") 0
  = Return (map Some (Web.a_s1 ++ Web.a_s2)%list) 3.
Proof. vm_compute. reflexivity. Qed.

Example resolve_site_b :
  check_and_get_sitemap_urls Web.site_b 2 "b.test" 0
  = Return ("https://b.test/new.xml", [Some "https://b.test/page"]) 4.
Proof. vm_compute. reflexivity. Qed.

Example resolve_site_e :
  check_and_get_sitemap_urls Web.site_e 2 "example.com" 0
  = Return ("https://example.com/sitemap.xml", []) 2.
Proof. vm_compute. reflexivity. Qed.

Example resolve_site_f :
  check_and_get_sitemap_urls Web.site_f 2 "https://f.test/" 0
  = Return ("https://f.test/custom-sitemap.xml",
            [Some "https://f.test/a"; Some "https://f.test/b"]) 3.
Proof. vm_compute. reflexivity. Qed.

Example resolve_site_c :
  get_urls_from_sitemap Web.site_c 1 (Some "https://c.test/sitemap.xml") 0
  = Return [Some "https://c.test/page"] 1.
Proof. vm_compute. reflexivity. Qed.

Example resolve_site_d :
  get_urls_from_sitemap Web.site_d 2 (Some "https://d.test/sitemap.xml") 0
  = Return [Some "https://d.test/1"; Some "https://d.test/2"] 4.
Proof. vm_compute. reflexivity. Qed.

(** ** [check_and_get_sitemap_urls] *)

Lemma lower_char_colon (c : ascii) : lower_char c = ":"%char -> c = ":"%char.
Proof.
  destruct c as [[] [] [] [] [] [] [] []]; vm_compute; intros H;
    first [reflexivity | discriminate H].
Qed.

Lemma mem_colon_lower (s : string) :
  mem ":" (lower s) = true -> mem ":" s = true.
Proof.
  induction s as [|c s IH]; cbn [lower mem]; [auto|]. intros H.
  apply orb_true_iff in H. apply orb_true_iff. destruct H as [H|H]; [left|auto].
  apply Ascii.eqb_eq in H. symmetry in H. apply lower_char_colon in H.
  subst c. reflexivity.
Qed.

Lemma mem_app_l (c : ascii) (a b : string) :
  mem c a = true -> mem c (a ++ b) = true.
Proof.
  induction a as [|d a IH]; [discriminate|].
  change (String d a ++ b) with (String d (a ++ b)). cbn [mem]. intros H.
  apply orb_true_iff in H. apply orb_true_iff. destruct H; auto.
Qed.

Lemma split_once_two (s : string) (sep : ascii) :
  mem sep s = true -> exists a b, split_once s sep = [a; b].
Proof.
  induction s as [|c s IH]; cbn [mem split_once]; [discriminate|]. intros H.
  rewrite Ascii.eqb_sym in H.
  destruct (Ascii.eqb c sep); [eexists _, _; reflexivity|].
  destruct (IH H) as (a & b & ->). eexists _, _; reflexivity.
Qed.

(** A line that starts with [sitemap:] in any letter case has a piece
    after its first colon: the subscript of line 189 is in range. *)
Lemma directive_in_range (line : string) :
  startswith (lower line) "sitemap:" = true ->
  exists piece, nth_error (split_once line ":") 1 = Some piece.
Proof.
  intros H. unfold startswith in H. apply prefix_split in H.
  destruct H as [rest H].
  assert (Hm : mem ":" line = true).
  { apply mem_colon_lower. rewrite H. apply mem_app_l. reflexivity. }
  destruct (split_once_two _ _ Hm) as (a & b & ->). exists b. reflexivity.
Qed.

Lemma scan_robots_step (W : World) (fuel : nat) (line : string)
    (rest : list string) (s : string) (u : list Url) (t : nat) :
  scan_robots W fuel (line :: rest) s u t =
    match directive line with
    | None => scan_robots W fuel rest s u t
    | Some d =>
        match get_urls_from_sitemap W fuel (Some d) t with
        | Return l t1 =>
            if is_empty l then scan_robots W fuel rest s l t1
            else Return (d, l) t1
        | Raise e t1 => Raise e t1
        | OutOfFuel => OutOfFuel
        end
    end.
Proof.
  cbn [scan_robots]. unfold directive.
  destruct (startswith (lower line) "sitemap:") eqn:E; [|reflexivity].
  destruct (directive_in_range line E) as [piece Hp].
  unfold index, bind. rewrite Hp. cbn [option_map ret].
  destruct (get_urls_from_sitemap W fuel (Some (strip piece whitespace)) t)
    as [l t1|e t1|]; try reflexivity.
  destruct l; reflexivity.
Qed.

(** The first directive whose sitemap yields URLs ends the loop. *)
Lemma scan_robots_wins (W : World) (fuel : nat) (lines : list string) :
  forall (pre : list string) (d : string) (post : list string)
         (s : string) (u : list Url) (t t1 t2 : nat) (l : list Url),
    directives lines = (pre ++ d :: post)%list ->
    all_yield_nothing W fuel pre t t1 ->
    get_urls_from_sitemap W fuel (Some d) t1 = Return l t2 ->
    l <> [] ->
    scan_robots W fuel lines s u t = Return (d, l) t2.
Proof.
  induction lines as [|line rest IH];
    intros pre d post s u t t1 t2 l Hds Hpre Hd Hl.
  - destruct pre; discriminate.
  - rewrite scan_robots_step. cbn [directives] in Hds.
    destruct (directive line) as [d0|]; [|eapply IH; eauto].
    destruct pre as [|d1 pre]; unfold all_yield_nothing in Hpre;
      simpl in Hds, Hpre; injection Hds as -> Hds; inversion Hpre; subst.
    + rewrite Hd. destruct l; [congruence | reflexivity].
    + match goal with H : get_urls_from_sitemap _ _ _ _ = _ |- _ => rewrite H end.
      cbn [is_empty]. eapply IH; eauto.
Qed.

(** When no directive yields a URL, the loop changes nothing. *)
Lemma scan_robots_nothing (W : World) (fuel : nat) (lines : list string) :
  forall (s : string) (t t' : nat),
    all_yield_nothing W fuel (directives lines) t t' ->
    scan_robots W fuel lines s [] t = Return (s, []) t'.
Proof.
  induction lines as [|line rest IH]; intros s t t' H.
  - inversion H; subst. reflexivity.
  - rewrite scan_robots_step. cbn [directives] in H.
    destruct (directive line) as [d0|]; [|apply IH; exact H].
    unfold all_yield_nothing in H. simpl in H. inversion H; subst.
    match goal with H : get_urls_from_sitemap _ _ _ _ = _ |- _ => rewrite H end.
    cbn [is_empty]. apply IH. assumption.
Qed.

Lemma check_and_get_sitemap_urls_unfold (W : World) (fuel : nat)
    (url : string) (t t1 : nat) :
  let guess := format_sitemap_url (base_url_of url) in
  get_urls_from_sitemap W fuel (Some guess) t = Return [] t1 ->
  check_and_get_sitemap_urls W fuel url t =
    match urlparse W (base_url_of url) with
    | None => Return (guess, []) t1
    | Some p =>
        match http W t1 (robots_url_of p) with
        | None => Return (guess, []) (S t1)
        | Some r =>
            if (status_code r =? 200)%Z then
              match scan_robots W fuel (split (text r) newline) guess [] (S t1) with
              | Raise _ t2 => Return (guess, []) t2
              | o => o
              end
            else Return (guess, []) (S t1)
        end
    end.
Proof.
  cbv zeta. intros H.
  unfold check_and_get_sitemap_urls. fold (base_url_of url).
  unfold bind at 1. rewrite H. cbn [is_empty].
  unfold try_except, bind, requests_get, robots_url_of.
  destruct (urlparse W (base_url_of url)) as [p|]; [|reflexivity].
  cbn [ret]. destruct (http W t1 _) as [r|]; [|reflexivity].
  destruct (status_code r =? 200)%Z; reflexivity.
Qed.

(** Nothing in the loop over robots.txt raises, so the handler of line
    195 only ever sees [urlparse] and [requests.get] fail. *)
Lemma scan_robots_no_raise (W : World) (fuel : nat) (lines : list string) :
  forall (s : string) (u : list Url) (t : nat) (e : Exn) (t' : nat),
    scan_robots W fuel lines s u t <> Raise e t'.
Proof.
  induction lines as [|line rest IH]; intros s u t e t'; [discriminate|].
  rewrite scan_robots_step. destruct (directive line) as [d|]; [|apply IH].
  destruct (get_urls_from_sitemap W fuel (Some d) t) as [l t1|e1 t1|] eqn:E.
  - destruct (is_empty l); [apply IH | discriminate].
  - exfalso. exact (get_urls_no_raise _ _ _ _ _ _ E).
  - discriminate.
Qed.

Lemma check_and_get_sitemap_urls_no_raise (W : World) (fuel : nat)
    (url : string) (t : nat) (e : Exn) (t' : nat) :
  check_and_get_sitemap_urls W fuel url t <> Raise e t'.
Proof.
  unfold check_and_get_sitemap_urls. fold (base_url_of url).
  unfold bind at 1.
  destruct (get_urls_from_sitemap W fuel _ t) as [l t1|e1 t1|] eqn:E.
  - destruct (is_empty l); [|discriminate].
    unfold try_except, bind, requests_get.
    destruct (urlparse W (base_url_of url)) as [p|]; [|discriminate].
    cbn [ret]. destruct (http W t1 _) as [r|]; [|discriminate].
    destruct (status_code r =? 200)%Z; [|discriminate].
    destruct (scan_robots W fuel _ _ _ _); discriminate.
  - exfalso. exact (get_urls_no_raise _ _ _ _ _ _ E).
  - discriminate.
Qed.

(** C6, as the code has it. When the direct fetch yields no URL, the
    function turns to robots.txt. If robots.txt cannot be had (the URL
    does not parse, the request raises, the status is not 200) the answer
    is the guessed sitemap URL with an empty list. Otherwise the [sitemap:]
    lines are resolved in line order for as long as they yield nothing:
    the first directive whose sitemap yields URLs wins, it is returned
    with its URLs and no later directive is resolved; when none yields a
    URL the answer is the guessed sitemap URL with an empty list. *)
Theorem check_and_get_sitemap_urls_robots
    (W : World) (fuel : nat) (url : string) (t t1 : nat) :
  let guess := format_sitemap_url (base_url_of url) in
  let result := check_and_get_sitemap_urls W fuel url t in
  get_urls_from_sitemap W fuel (Some guess) t = Return [] t1 ->
  (urlparse W (base_url_of url) = None -> result = Return (guess, []) t1) /\
  (forall p : ParseResult,
     urlparse W (base_url_of url) = Some p ->
     (http W t1 (robots_url_of p) = None ->
      result = Return (guess, []) (S t1)) /\
     (forall r : Response,
        http W t1 (robots_url_of p) = Some r ->
        (status_code r <> 200%Z -> result = Return (guess, []) (S t1)) /\
        (status_code r = 200%Z ->
         let ds := directives (split (text r) newline) in
         (forall pre d post l t2 t3,
            ds = (pre ++ d :: post)%list ->
            all_yield_nothing W fuel pre (S t1) t2 ->
            get_urls_from_sitemap W fuel (Some d) t2 = Return l t3 ->
            l <> [] ->
            result = Return (d, l) t3) /\
         (forall t2,
            all_yield_nothing W fuel ds (S t1) t2 ->
            result = Return (guess, []) t2)))).
Proof.
  cbv zeta. intros Hdirect.
  rewrite (check_and_get_sitemap_urls_unfold W fuel url t t1 Hdirect).
  split; [intros ->; reflexivity|].
  intros p ->. split; [intros ->; reflexivity|].
  intros r ->. split.
  - intros Hs. apply Z.eqb_neq in Hs. rewrite Hs. reflexivity.
  - intros Hs. rewrite Hs. cbn [Z.eqb Pos.eqb]. split.
    + intros pre d post l t2 t3 Hds Hpre Hd Hl.
      rewrite (scan_robots_wins W fuel _ pre d post _ _ _ t2 t3 l Hds Hpre Hd Hl).
      reflexivity.
    + intros t2 Hnone. rewrite (scan_robots_nothing W fuel _ _ _ _ Hnone).
      reflexivity.
Qed.

(** C6 as worded fails on the web [Web.site_b]: the first directive
    resolves to nothing, and the function goes on to the second one and
    returns its sitemap. *)
Lemma first_match_wins_fails : ~ first_match_wins Web.site_b 2 "b.test" 0.
Proof.
  intros H.
  specialize (H 1 3 (mk_parse "https" "b.test" "") (Web.ok Web.b_robots)
                "https://b.test/old.xml" []).
  cbv zeta in H.
  assert (E : check_and_get_sitemap_urls Web.site_b 2 "b.test" 0
              = Return ("https://b.test/sitemap.xml", []) 3).
  { apply H; vm_compute; reflexivity. }
  rewrite resolve_site_b in E. discriminate E.
Qed.

(** The status that C7's wording counts as an error and the code does
    not: on [Web.site_c] the sitemap comes with status 300 and its URL is
    returned. *)
Lemma non_2xx_yields_nothing_fails :
  ~ non_2xx_yields_nothing Web.site_c 0 "https://c.test/sitemap.xml" 0.
Proof.
  intros H.
  specialize (H (mk_response 300 (Web.urlset_xml ["https://c.test/page"])
                                 (Web.urlset_xml ["https://c.test/page"]))).
  rewrite resolve_site_c in H.
  assert (E : Return [Some "https://c.test/page"] 1 = Return (@nil Url) 1).
  { apply H; [vm_compute; reflexivity | vm_compute; intros [_ Hc]; discriminate Hc]. }
  discriminate E.
Qed.

(** *** The theorems at work on the small webs *)

Lemma get_urls_from_sitemap_index_concat_witness :
  endswith (tag (Web.index_doc Web.a_index)) "sitemapindex" = true /\
  get_urls_from_sitemap Web.site_a 2 (Some "https://a.test/sitemap_index.xml") 0
    = Return (List.concat [map Some Web.a_s1; map Some Web.a_s2]) 3 /\
  List.length (List.concat [map Some Web.a_s1; map Some Web.a_s2]) = 3 + 2.
Proof.
  split; [reflexivity|].
  refine (proj1 (get_urls_from_sitemap_index_concat Web.site_a 1 0
                   "https://a.test/sitemap_index.xml"
                   (Web.ok (Web.index_xml Web.a_index))
                   (Web.index_doc Web.a_index) _ _ _) _ _ _ _).
  - reflexivity.
  - reflexivity.
  - reflexivity.
  - reflexivity.
  - apply (cy_cons Web.site_a 1 _ _ 1 2 3); [reflexivity|].
    apply (cy_cons Web.site_a 1 _ _ 2 3 3); [reflexivity|].
    apply cy_nil.
Defined.

Lemma check_and_get_sitemap_urls_robots_witness :
  get_urls_from_sitemap Web.site_b 2 (Some "https://b.test/sitemap.xml") 0
    = Return [] 1 /\
  check_and_get_sitemap_urls Web.site_b 2 "b.test" 0
    = Return ("https://b.test/new.xml", [Some "https://b.test/page"]) 4.
Proof.
  split; [reflexivity|].
  refine (proj1 (proj2 (proj2 (proj2
            (check_and_get_sitemap_urls_robots Web.site_b 2 "b.test" 0 1 _)
            (mk_parse "https" "b.test" "") _)
            (Web.ok Web.b_robots) _) _)
            ["https://b.test/old.xml"] "https://b.test/new.xml" []
            [Some "https://b.test/page"] 3 4 _ _ _ _).
  - reflexivity.
  - reflexivity.
  - reflexivity.
  - reflexivity.
  - reflexivity.
  - apply (cy_cons Web.site_b 2 _ _ 2 3 3); [reflexivity | apply cy_nil].
  - reflexivity.
  - discriminate.
Defined.

Lemma rank_d_ranked : ranked Web.site_d Sample.rank_d.
Proof.
  intros t u r root c Hget Hp Htag Hc.
  unfold Web.site_d, Web.site in Hget, Hp. cbn [http xml_fromstring] in Hget, Hp.
  cbn [Web.lookup] in Hget.
  destruct (String.eqb_spec u "https://d.test/sitemap.xml") as [->|_].
  - injection Hget as <-. vm_compute in Hp. injection Hp as <-.
    vm_compute in Hc. vm_compute.
    destruct Hc as [<-|[<-|[<-|[]]]]; lia.
  - destruct (String.eqb u "https://d.test/s1.xml");
      [injection Hget as <-; vm_compute in Hp; injection Hp as <-;
       vm_compute in Htag; discriminate|].
    destruct (String.eqb u "https://d.test/gone.xml");
      [injection Hget as <-; vm_compute in Hp; discriminate|].
    destruct (String.eqb u "https://d.test/s2.xml");
      [injection Hget as <-; vm_compute in Hp; injection Hp as <-;
       vm_compute in Htag; discriminate|].
    discriminate.
Qed.

Lemma get_urls_from_sitemap_contains_errors_witness :
  get_urls_from_sitemap Web.site_d 1 (Some "https://d.test/gone.xml") 2
    = Return [] 3 /\
  get_urls_from_sitemap Web.site_d 2 (Some "https://d.test/sitemap.xml") 0
    = Return [Some "https://d.test/1"; Some "https://d.test/2"] 4 /\
  (exists l t', get_urls_from_sitemap Web.site_d 2
                  (Some "https://d.test/sitemap.xml") 0 = Return l t').
Proof.
  pose proof (get_urls_from_sitemap_contains_errors Web.site_d)
    as (_ & Hfail & Hsib & Hret).
  split; [|split].
  - apply (Hfail 0 (Some "https://d.test/gone.xml") 2). right.
    reflexivity || (left; reflexivity).
  - refine (Hsib 0 0 "https://d.test/sitemap.xml"
              (Web.ok (Web.index_xml Web.d_index)) (Web.index_doc Web.d_index)
              [Some "https://d.test/s1.xml"] (Some "https://d.test/gone.xml")
              [Some "https://d.test/s2.xml"]
              [[Some "https://d.test/1"]] 2 [[Some "https://d.test/2"]] 4
              _ _ _ _ _ _ _ _); try reflexivity.
    + apply (cy_cons Web.site_d 1 _ _ 1 2 2); [reflexivity | apply cy_nil].
    + left. reflexivity.
    + apply (cy_cons Web.site_d 1 _ _ 3 4 4); [reflexivity | apply cy_nil].
  - apply (Hret Sample.rank_d rank_d_ranked). vm_compute. lia.
Defined.

Lemma save_markdown_file_name_witness :
  save_markdown_file Sample.ascii_word Sample.urlparse_docs Sample.clock
    "https://example.com/docs/intro/" "# Intro"
    = Some "example.com_docs_intro_20261103_100100.md" /\
  exists (parsed_url : ParseResult) (base : string),
    let raw := netloc parsed_url ++ "_" ++ strip (path parsed_url) "/" in
    let allowed (c : ascii) :=
      Sample.ascii_word c = true \/
      c = "-"%char \/ c = "_"%char \/ c = "."%char in
    Sample.urlparse_docs "https://example.com/docs/intro/" = Some parsed_url /\
    "example.com_docs_intro_20261103_100100.md"
      = base ++ "_" ++ strftime_stamp Sample.clock ++ ".md" /\
    String.length base = Nat.min 200 (String.length raw) /\
    (forall (i : nat) (c : ascii),
       i < 200 -> String.get i raw = Some c ->
       (allowed c /\ String.get i base = Some c) \/
       (~ allowed c /\ String.get i base = Some "_"%char)) /\
    (forall (i : nat) (c : ascii), String.get i base = Some c -> allowed c) /\
    all_chars (keep_char Sample.ascii_word) base = true /\
    String.length base <= 200 /\
    String.length (strftime_stamp Sample.clock) = 15 /\
    String.length "example.com_docs_intro_20261103_100100.md" <= 219 /\
    endswith "example.com_docs_intro_20261103_100100.md" ".md" = true.
Proof.
  split; [vm_compute; reflexivity|].
  apply (save_markdown_file_name Sample.ascii_word Sample.urlparse_docs
           Sample.clock "https://example.com/docs/intro/" "# Intro").
  - unfold valid_datetime, Sample.clock; simpl; lia.
  - simpl; lia.
  - vm_compute; reflexivity.
Defined.

(** A long path with characters to replace: the cut comes at 200
    characters of [netloc_path], the slash and the blank inside it
    turned into underscores. *)
Example save_markdown_file_long_path :
  save_markdown_file Sample.ascii_word
    (fun _ => Some (mk_parse "https" "a.test"
                      ("/x/y z" ++ replicate 300 "k" ++ "/")))
    Sample.clock "https://a.test/..." ""
  = Some ("a.test_x_y_z" ++ replicate 188 "k" ++ "_20261103_100100.md").
Proof. vm_compute. reflexivity. Qed.

(** ** The retry loop of [process_url]

    *** Worked runs *)

Example trace_never_fetches :
  process_url_trace Crew.never_fetches 3 "https://a.test/1"
  = [EvAcquire; EvArun; EvSleep 2; EvArun; EvSleep 2; EvArun; EvFailed; EvRelease].
Proof. reflexivity. Qed.

Example trace_third_time_lucky :
  process_url_trace Crew.third_time_lucky 3 "https://a.test/1"
  = [EvAcquire; EvArun; EvSleep 2; EvArun; EvSleep 2; EvArun;
     EvProcessed; EvStore "# page"; EvRelease].
Proof. reflexivity. Qed.

Example trace_no_attempt :
  process_url_trace Crew.never_fetches 0 "https://a.test/1"
  = [EvAcquire; EvRelease].
Proof. reflexivity. Qed.

Example trace_sink_raises :
  process_url_trace Crew.sink_raises 3 "https://a.test/1"
  = [EvAcquire;
     EvArun; EvProcessed; EvStore "# page"; EvSleep 2;
     EvArun; EvProcessed; EvStore "# page"; EvSleep 2;
     EvArun; EvProcessed; EvStore "# page"; EvFailed;
     EvRelease].
Proof. reflexivity. Qed.

Example pool_mixed_run :
  crawl_parallel Crew.mixed (Crew.round_robin 4 30) ["u0"; "u1"; "u2"; "u3"] 2 3
  = Some (mk_stats 3 1).
Proof. vm_compute. reflexivity. Qed.

(** A schedule that stops early returns nothing yet. *)
Example pool_mixed_run_short :
  crawl_parallel Crew.mixed (Crew.round_robin 4 5) ["u0"; "u1"; "u2"; "u3"] 2 3
  = None.
Proof. vm_compute. reflexivity. Qed.

(** *** Counting events *)

Lemma count_app (p : Event -> bool) (a b : list Event) :
  count p (a ++ b) = count p a + count p b.
Proof. unfold count. rewrite filter_app, length_app. reflexivity. Qed.

Lemma count_cons (p : Event -> bool) (e : Event) (tr : list Event) :
  count p (e :: tr) = Nat.b2n (p e) + count p tr.
Proof. unfold count. simpl. destruct (p e); reflexivity. Qed.

Lemma count_one (p : Event -> bool) (e : Event) :
  count p [e] = Nat.b2n (p e).
Proof. unfold count. simpl. destruct (p e); reflexivity. Qed.

Lemma failing_attempts_counts (n : nat) :
  1 <= n ->
  count is_arun (failing_attempts n) = n /\
  count is_sleep (failing_attempts n) = n - 1 /\
  count is_failed (failing_attempts n) = 1 /\
  count is_processed (failing_attempts n) = 0.
Proof.
  induction n as [|n IH]; [lia|]. intros _.
  destruct n as [|n]; [repeat split; reflexivity|].
  destruct IH as (Ha & Hs & Hf & Hp); [lia|].
  change (failing_attempts (S (S n)))
    with (EvArun :: EvSleep 2 :: failing_attempts (S n)).
  rewrite !count_cons, Ha, Hs, Hf, Hp. simpl. repeat split; lia.
Qed.

Lemma failed_then_slept_counts (k : nat) :
  count is_arun (failed_then_slept k) = k /\
  count is_sleep (failed_then_slept k) = k /\
  count is_failed (failed_then_slept k) = 0 /\
  count is_processed (failed_then_slept k) = 0.
Proof.
  induction k as [|k (Ha & Hs & Hf & Hp)]; [repeat split; reflexivity|].
  cbn [failed_then_slept]. rewrite !count_cons, Ha, Hs, Hf, Hp. simpl.
  repeat split; lia.
Qed.

(** *** The loop when every attempt fails *)

Lemma retry_loop_all_fail (o : Oracle) (max_retries : Z) :
  (forall n, is_success (arun o n) = false) ->
  forall (n : nat) (retry : Z) (calls stores : nat),
    1 <= n -> (retry + Z.of_nat n = max_retries)%Z ->
    run_alone o (retry_loop max_retries n retry) calls stores
      = (failing_attempts n ++ [EvRelease])%list.
Proof.
  intros Hfail. induction n as [|n IH]; intros retry calls stores Hn Hr; [lia|].
  cbn [retry_loop run_alone].
  assert (Hstep : forall res, is_success res = false ->
            match res with
            | Success raw_markdown =>
                IncrProcessed (Store raw_markdown (fun stored =>
                  match stored with
                  | Stored => Release Done
                  | StoreRaises =>
                      after_failed_attempt max_retries retry
                        (retry_loop max_retries n (retry + 1))
                  end))
            | _ => after_failed_attempt max_retries retry
                     (retry_loop max_retries n (retry + 1))
            end
            = after_failed_attempt max_retries retry
                (retry_loop max_retries n (retry + 1))).
  { intros [m|m|] H; [discriminate | reflexivity | reflexivity]. }
  rewrite (Hstep _ (Hfail calls)). clear Hstep. unfold after_failed_attempt.
  destruct n as [|n].
  - replace (retry <? max_retries - 1)%Z with false
      by (symmetry; apply Z.ltb_ge; lia).
    reflexivity.
  - replace (retry <? max_retries - 1)%Z with true
      by (symmetry; apply Z.ltb_lt; lia).
    cbn [run_alone]. rewrite IH by lia. reflexivity.
Qed.

(** C3, as the code has it. With [max_retries >= 1], a URL whose fetch
    fails every time (failure reported or exception raised) is fetched
    exactly [max_retries] times, with a two-second sleep after each
    attempt but the last; then the failure is counted once, nothing is
    counted as processed, and the coroutine leaves the semaphore and
    ends. *)
Theorem process_url_always_failing
    (o : Oracle) (max_retries : Z) (url : string) :
  (1 <= max_retries)%Z ->
  (forall n, is_success (arun o n) = false) ->
  let tr := process_url_trace o max_retries url in
  tr = (EvAcquire :: failing_attempts (Z.to_nat max_retries) ++ [EvRelease])%list /\
  count is_arun tr = Z.to_nat max_retries /\
  count is_sleep tr = Z.to_nat max_retries - 1 /\
  count is_failed tr = 1 /\
  count is_processed tr = 0.
Proof.
  intros Hr Hfail. cbv zeta.
  assert (E : process_url_trace o max_retries url
              = (EvAcquire :: failing_attempts (Z.to_nat max_retries)
                            ++ [EvRelease])%list).
  { unfold process_url_trace, process_url. cbn [run_alone].
    rewrite (retry_loop_all_fail o max_retries Hfail) by lia. reflexivity. }
  rewrite E. split; [reflexivity|].
  destruct (failing_attempts_counts (Z.to_nat max_retries)) as (Ha & Hs & Hf & Hp);
    [lia|].
  rewrite !count_cons, !count_app, Ha, Hs, Hf, Hp.
  cbn -[Z.to_nat Nat.sub]. repeat split; lia.
Qed.

Lemma process_url_always_failing_witness :
  let tr := process_url_trace Crew.never_fetches 3 "https://a.test/1" in
  tr = [EvAcquire; EvArun; EvSleep 2; EvArun; EvSleep 2; EvArun; EvFailed;
        EvRelease] /\
  count is_arun tr = 3 /\ count is_sleep tr = 2 /\
  count is_failed tr = 1 /\ count is_processed tr = 0.
Proof.
  apply (process_url_always_failing Crew.never_fetches 3 "https://a.test/1").
  - lia.
  - intros n. reflexivity.
Defined.

(** C3 as worded fails for [max_retries = 0]: no attempt is made and the
    failure counter is left alone. *)
Lemma failing_url_counted_once_fails :
  ~ failing_url_counted_once Crew.never_fetches 0 "https://a.test/1".
Proof.
  intros H. destruct H as [_ H]; [intros n; reflexivity|].
  vm_compute in H. discriminate H.
Qed.

(** *** The loop when an attempt succeeds *)

Lemma retry_loop_succeeds (o : Oracle) (max_retries : Z) (m : string) :
  forall (k n : nat) (retry : Z) (calls stores : nat),
    k < n -> (retry + Z.of_nat n = max_retries)%Z ->
    (forall j, j < k -> is_success (arun o (calls + j)) = false) ->
    arun o (calls + k) = Success m ->
    store o stores = Stored ->
    run_alone o (retry_loop max_retries n retry) calls stores
      = (failed_then_slept k ++ [EvArun; EvProcessed; EvStore m; EvRelease])%list.
Proof.
  induction k as [|k IH]; intros n retry calls stores Hk Hr Hfail Hok Hst;
    (destruct n as [|n]; [lia|]); cbn [retry_loop run_alone].
  - rewrite Nat.add_0_r in Hok. rewrite Hok. cbn [run_alone].
    rewrite Hst. reflexivity.
  - pose proof (Hfail 0 ltac:(lia)) as H0. rewrite Nat.add_0_r in H0.
    assert (Hnext :
      run_alone o (after_failed_attempt max_retries retry
                     (retry_loop max_retries n (retry + 1))) (S calls) stores
      = (EvSleep 2 :: failed_then_slept k
           ++ [EvArun; EvProcessed; EvStore m; EvRelease])%list).
    { unfold after_failed_attempt.
      replace (retry <? max_retries - 1)%Z with true
        by (symmetry; apply Z.ltb_lt; lia).
      cbn [run_alone]. rewrite (IH n (retry + 1)%Z (S calls) stores); try lia.
      - reflexivity.
      - intros j Hj. replace (S calls + j) with (calls + S j) by lia.
        apply Hfail. lia.
      - replace (S calls + k) with (calls + S k) by lia. exact Hok.
      - exact Hst. }
    destruct (arun o calls) as [m0|m0|]; [discriminate H0| |];
      rewrite Hnext; reflexivity.
Qed.

(** With a store that goes through: [k] failed attempts, each followed
    by its sleep, one successful fetch, the URL counted as processed once
    and stored, and nothing after that. *)
Lemma process_url_succeeds_after
    (o : Oracle) (max_retries : Z) (url m : string) (k : nat) :
  (Z.of_nat k < max_retries)%Z ->
  (forall n, n < k -> is_success (arun o n) = false) ->
  arun o k = Success m ->
  store o 0 = Stored ->
  let tr := process_url_trace o max_retries url in
  tr = (EvAcquire :: failed_then_slept k
          ++ [EvArun; EvProcessed; EvStore m; EvRelease])%list /\
  count is_arun tr = S k /\ count is_processed tr = 1 /\ count is_failed tr = 0.
Proof.
  intros Hk Hfail Hok Hst. cbv zeta.
  assert (E : process_url_trace o max_retries url
              = (EvAcquire :: failed_then_slept k
                   ++ [EvArun; EvProcessed; EvStore m; EvRelease])%list).
  { unfold process_url_trace, process_url. cbn [run_alone].
    rewrite (retry_loop_succeeds o max_retries m k); try lia; auto. }
  rewrite E. split; [reflexivity|].
  destruct (failed_then_slept_counts k) as (Ha & _ & Hf & Hp).
  rewrite !count_cons, !count_app, Ha, Hf, Hp. cbn. repeat split; lia.
Qed.

(** C4 at a store that raises. The fetch succeeds at the first attempt,
    the store raises, and the exception lands in the handler of the
    fetch: the URL is fetched again, three times in all, counted as
    processed three times and as failed once. *)
Theorem process_url_refetches_when_store_raises :
  let o := Crew.sink_raises in
  let tr := process_url_trace o 3 "https://a.test/1" in
  is_success (arun o 0) = true /\
  tr = [EvAcquire;
        EvArun; EvProcessed; EvStore "# page"; EvSleep 2;
        EvArun; EvProcessed; EvStore "# page"; EvSleep 2;
        EvArun; EvProcessed; EvStore "# page"; EvFailed;
        EvRelease] /\
  count is_arun tr = 3 /\ count is_processed tr = 3 /\ count is_failed tr = 1 /\
  ~ success_ends_attempts o 3 "https://a.test/1" 0.
Proof.
  cbv zeta. repeat split; try reflexivity.
  intros H. destruct H as (H & _); [lia | intros n Hn; lia | reflexivity |].
  vm_compute in H. discriminate H.
Qed.

(** ** The task pool

    *** Lists updated in place *)

Lemma set_nth_length {A : Type} (i : nat) (x : A) (l : list A) :
  List.length (set_nth i x l) = List.length l.
Proof.
  revert i; induction l as [|y l IH]; intros [|i]; simpl; auto.
Qed.

Lemma nth_error_set_nth {A : Type} (l : list A) :
  forall (i j : nat) (x y z : A),
    nth_error l i = Some y ->
    nth_error (set_nth i x l) j = Some z ->
    (j = i /\ z = x) \/ (j <> i /\ nth_error l j = Some z).
Proof.
  induction l as [|a l IH]; intros [|i] [|j] x y z Hi Hj; simpl in *;
    try discriminate.
  - left. split; congruence.
  - right. split; [lia | exact Hj].
  - right. split; [lia | exact Hj].
  - destruct (IH i j x y z Hi Hj) as [[-> ->]|[Hne H]]; [left|right]; auto.
Qed.

Lemma total_set_nth {A : Type} (f : A -> nat) (l : list A) :
  forall (i : nat) (x y : A),
    nth_error l i = Some y ->
    total f (set_nth i x l) + f y = total f l + f x.
Proof.
  unfold total. induction l as [|a l IH]; intros [|i] x y H; simpl in *;
    try discriminate.
  - injection H as ->. lia.
  - specialize (IH i x y H). lia.
Qed.

Lemma itotal_set_nth {A : Type} (f : nat -> A -> nat) (l : list A) :
  forall (k i : nat) (x y : A),
    nth_error l i = Some y ->
    itotal f k (set_nth i x l) + f (k + i) y = itotal f k l + f (k + i) x.
Proof.
  induction l as [|a l IH]; intros k [|i] x y H; simpl in *; try discriminate.
  - injection H as ->. rewrite Nat.add_0_r. lia.
  - specialize (IH (S k) i x y H).
    replace (k + S i) with (S k + i) by lia. lia.
Qed.

Lemma filter_length_total {A : Type} (p : A -> bool) (l : list A) :
  List.length (filter p l) = total (fun x => Nat.b2n (p x)) l.
Proof.
  unfold total. induction l as [|a l IH]; simpl; [reflexivity|].
  destruct (p a); simpl; lia.
Qed.


Lemma filter_length_le {A : Type} (p q : A -> bool) (l : list A) :
  (forall x, In x l -> p x = true -> q x = true) ->
  List.length (filter p l) <= List.length (filter q l).
Proof.
  induction l as [|a l IH]; intros H; simpl; [lia|].
  specialize (IH (fun x Hx => H x (or_intror Hx))).
  destruct (p a) eqn:Ep.
  - rewrite (H a (or_introl eq_refl) Ep). simpl. lia.
  - destruct (q a); simpl; lia.
Qed.

(** *** One step *)

Ltac step_facts :=
  repeat (split; [reflexivity || (cbn; lia)|]);
  cbn [holding code wf advance].

Lemma step_at_inv (env : nat -> Oracle) (i : nat) (s s' : Pool) :
  step_at env i s = Some s' ->
  exists (tk tk' : Task) (ev : Event),
    nth_error (tasks s) i = Some tk /\
    tasks s' = set_nth i tk' (tasks s) /\
    trace tk' = (trace tk ++ [ev])%list /\
    events_left env i tk = ev :: events_left env i tk' /\
    processed_urls s' = (processed_urls s + Z.of_nat (Nat.b2n (is_processed ev)))%Z /\
    failed_urls s' = (failed_urls s + Z.of_nat (Nat.b2n (is_failed ev)))%Z /\
    (wf (holding tk) (code tk) ->
     wf (holding tk') (code tk') /\
     (sem_value s' + Z.of_nat (Nat.b2n (holding tk'))
        = sem_value s + Z.of_nat (Nat.b2n (holding tk)))%Z /\
     ((0 <= sem_value s)%Z -> (0 <= sem_value s')%Z)).
Proof.
  unfold step_at. destruct (nth_error (tasks s) i) as [tk|] eqn:Hi; [|discriminate].
  unfold events_left.
  destruct tk as [url c h n m tr]; cbn [code holding calls stores trace task_url].
  destruct c as [|k|k|k|md k|d k|k|k]; [discriminate| | | | | | |].
  - destruct (0 <? sem_value s)%Z eqn:Hs; [|discriminate].
    apply Z.ltb_lt in Hs. intros H. apply Some_inj in H. subst s'.
    eexists _, _, EvAcquire. step_facts.
    intros [-> Hw]. cbn. repeat split; try assumption; lia.
  - intros H. apply Some_inj in H. subst s'.
    eexists _, _, EvRelease. step_facts.
    intros [-> Hw]. cbn. repeat split; try assumption; lia.
  - intros H. apply Some_inj in H. subst s'.
    eexists _, _, EvArun. step_facts.
    intros [-> Hw]. cbn. repeat split; try apply Hw; lia.
  - intros H. apply Some_inj in H. subst s'.
    eexists _, _, (EvStore md). step_facts.
    intros [-> Hw]. cbn. repeat split; try apply Hw; lia.
  - intros H. apply Some_inj in H. subst s'.
    eexists _, _, (EvSleep d). step_facts.
    intros [-> Hw]. cbn. repeat split; try assumption; lia.
  - intros H. apply Some_inj in H. subst s'.
    eexists _, _, EvProcessed. step_facts.
    intros Hw. cbn. repeat split; try assumption; lia.
  - intros H. apply Some_inj in H. subst s'.
    eexists _, _, EvFailed. step_facts.
    intros Hw. cbn. repeat split; try assumption; lia.
Qed.

(** *** The invariant *)

Lemma wf_retry_loop (max_retries : Z) (n : nat) :
  forall retry : Z, wf true (retry_loop max_retries n retry).
Proof.
  induction n as [|n IH]; intros retry; cbn [retry_loop wf]; [auto|].
  assert (Hnext : wf true (after_failed_attempt max_retries retry
                             (retry_loop max_retries n (retry + 1)))).
  { unfold after_failed_attempt.
    destruct (retry <? max_retries - 1)%Z; cbn [wf]; auto. }
  split; [reflexivity|]. intros [m|m|]; cbn [wf]; auto.
  split; [reflexivity|]. intros []; cbn [wf]; auto.
Qed.

Lemma wf_process_url (max_retries : Z) (url : string) :
  wf false (process_url max_retries url).
Proof. unfold process_url. cbn [wf]. split; [reflexivity|apply wf_retry_loop]. Qed.

Lemma crawl_start_tasks (urls : list string) (c r : Z) (s0 : Pool) :
  crawl_start urls c r = Some s0 ->
  (0 <= c)%Z /\
  s0 = mk_pool c 0 0
         (map (fun url => mk_task url (process_url r url) false 0 0 []) urls).
Proof.
  unfold crawl_start. destruct (c <? 0)%Z eqn:E; [discriminate|].
  apply Z.ltb_ge in E. intros H. apply Some_inj in H. auto.
Qed.

Lemma pool_inv_start (env : nat -> Oracle) (urls : list string) (c r : Z)
    (s0 : Pool) :
  crawl_start urls c r = Some s0 -> pool_inv env urls c r s0.
Proof.
  intros H. apply crawl_start_tasks in H. destruct H as [Hc ->].
  set (mk := fun url => mk_task url (process_url r url) false 0 0 []).
  assert (Hzero : forall f : Task -> nat,
            (forall url, f (mk url) = 0) -> total f (map mk urls) = 0).
  { intros f Hf. unfold total. induction urls as [|u us IH]; simpl; [reflexivity|].
    rewrite Hf, IH. reflexivity. }
  constructor; cbn [sem_value processed_urls failed_urls tasks].
  - exact Hc.
  - unfold in_region. cbn [tasks]. rewrite filter_length_total, Hzero by reflexivity.
    lia.
  - rewrite Hzero by reflexivity. reflexivity.
  - rewrite Hzero by reflexivity. reflexivity.
  - apply length_map.
  - intros i tk Hi. rewrite nth_error_map in Hi.
    destruct (nth_error urls i) as [url|] eqn:Hu; [|discriminate].
    apply Some_inj in Hi. subst tk. subst mk.
    cbn [holding code trace]. split; [apply wf_process_url|].
    exists url. split; reflexivity.
Qed.

Lemma pool_inv_step (env : nat -> Oracle) (urls : list string) (c r : Z)
    (s s' : Pool) :
  pool_inv env urls c r s -> step env s s' -> pool_inv env urls c r s'.
Proof.
  intros Hinv Hst. destruct Hst as [i s1 s2 Hstep].
  destruct Hinv as [Hnn Hsem Hp Hf Hlen Htasks].
  destruct (step_at_inv env i s1 s2 Hstep)
    as (tk & tk' & ev & Hi & Hs' & Htr & Hleft & Hp' & Hf' & Hwf).
  destruct (Htasks i tk Hi) as (Hw & url & Hu & Hwhole).
  destruct (Hwf Hw) as (Hw' & Hsem' & Hnn').
  constructor.
  - auto.
  - unfold in_region in *. rewrite Hs', filter_length_total.
    rewrite filter_length_total in Hsem.
    pose proof (total_set_nth (fun x => Nat.b2n (holding x)) (tasks s1) i tk' tk Hi).
    lia.
  - rewrite Hp', Hp, Hs'.
    pose proof (total_set_nth (fun x => count is_processed (trace x))
                  (tasks s1) i tk' tk Hi) as Ht.
    cbv beta in Ht. rewrite Htr, count_app in Ht.
    rewrite count_one in Ht. lia.
  - rewrite Hf', Hf, Hs'.
    pose proof (total_set_nth (fun x => count is_failed (trace x))
                  (tasks s1) i tk' tk Hi) as Ht.
    cbv beta in Ht. rewrite Htr, count_app in Ht.
    rewrite count_one in Ht. lia.
  - rewrite Hs', set_nth_length. exact Hlen.
  - intros j x Hj. rewrite Hs' in Hj.
    destruct (nth_error_set_nth _ _ _ _ _ _ Hi Hj) as [[-> ->]|[_ Hold]].
    + split; [exact Hw'|]. exists url. split; [exact Hu|].
      rewrite Htr, <- Hwhole, Hleft, <- app_assoc. reflexivity.
    + apply Htasks. exact Hold.
Qed.

Lemma pool_inv_reachable (env : nat -> Oracle) (urls : list string) (c r : Z)
    (s0 s : Pool) :
  crawl_start urls c r = Some s0 -> reachable env s0 s ->
  pool_inv env urls c r s.
Proof.
  intros H0. induction 1 as [|s s' _ IH Hstep].
  - apply pool_inv_start. exact H0.
  - eapply pool_inv_step; eauto.
Qed.

(** C2. In every state of every run of [crawl_parallel], whatever the
    schedule and the collaborators, the tasks inside the semaphore-guarded
    region are at most [max_concurrent], and every task in the middle of
    a fetch is one of them. *)
Theorem crawl_parallel_bounded_concurrency
    (env : nat -> Oracle) (urls : list string) (max_concurrent max_retries : Z)
    (s0 s : Pool) :
  crawl_start urls max_concurrent max_retries = Some s0 ->
  reachable env s0 s ->
  (Z.of_nat (in_region s) <= max_concurrent)%Z /\
  fetching s <= in_region s /\
  (Z.of_nat (fetching s) <= max_concurrent)%Z.
Proof.
  intros H0 Hreach.
  destruct (pool_inv_reachable env urls _ _ s0 s H0 Hreach)
    as [Hnn Hsem _ _ _ Htasks].
  assert (Hle : fetching s <= in_region s).
  { unfold fetching, in_region. apply filter_length_le.
    intros tk Hin Hf. apply In_nth_error in Hin. destruct Hin as [i Hi].
    destruct (Htasks i tk Hi) as [Hw _].
    unfold is_fetching in Hf. destruct (code tk); try discriminate.
    cbn [wf] in Hw. apply Hw. }
  repeat split; lia.
Qed.

(** *** Each URL counted once *)



Lemma all_done_tasks (s : Pool) (i : nat) (tk : Task) :
  all_done s = true -> nth_error (tasks s) i = Some tk -> code tk = Done.
Proof.
  unfold all_done. intros H Hi. rewrite forallb_forall in H.
  specialize (H tk (nth_error_In _ _ Hi)). unfold is_done in H.
  destruct (code tk); [reflexivity | discriminate..].
Qed.

(** At the end of a run the counters are the sums, over the URLs, of
    what each [process_url] counts when run on its own. *)
Lemma finished_task_trace (env : nat -> Oracle) (urls : list string) (c r : Z)
    (s : Pool) (i : nat) (tk : Task) :
  pool_inv env urls c r s -> all_done s = true ->
  nth_error (tasks s) i = Some tk ->
  exists url, nth_error urls i = Some url /\
              trace tk = process_url_trace (env i) r url.
Proof.
  intros Hinv Hdone Hi.
  destruct (inv_tasks _ _ _ _ _ Hinv i tk Hi) as (_ & url & Hu & Hwhole).
  exists url. split; [exact Hu|].
  unfold events_left in Hwhole. rewrite (all_done_tasks s i tk Hdone Hi) in Hwhole.
  cbn [run_alone] in Hwhole. rewrite app_nil_r in Hwhole. exact Hwhole.
Qed.

(** *** Progress and termination *)

Lemma step_events_to_go (env : nat -> Oracle) (s s' : Pool) :
  step env s s' -> events_to_go env s = S (events_to_go env s').
Proof.
  intros [i s1 s2 Hstep].
  destruct (step_at_inv env i s1 s2 Hstep)
    as (tk & tk' & ev & Hi & Hs' & _ & Hleft & _).
  unfold events_to_go. rewrite Hs'.
  pose proof (itotal_set_nth
                (fun j x => List.length (events_left env j x))
                (tasks s1) 0 i tk' tk Hi) as H.
  cbv beta in H. cbn [Nat.add] in H. rewrite Hleft in H. cbn [List.length] in H.
  lia.
Qed.

Lemma reachable_events_to_go (env : nat -> Oracle) (s s' : Pool) :
  reachable env s s' -> events_to_go env s' <= events_to_go env s.
Proof.
  induction 1 as [|s1 s2 _ IH Hstep]; [lia|].
  apply step_events_to_go in Hstep. lia.
Qed.

Lemma reachable_trans (env : nat -> Oracle) (s1 s2 s3 : Pool) :
  reachable env s1 s2 -> reachable env s2 s3 -> reachable env s1 s3.
Proof.
  intros H12 H23. induction H23 as [|s s' _ IH Hstep]; [exact H12|].
  eapply reach_step; eauto.
Qed.

Lemma can_go_steps (env : nat -> Oracle) (s : Pool) (i : nat) (tk : Task) :
  nth_error (tasks s) i = Some tk -> can_go tk = true ->
  exists s', step_at env i s = Some s'.
Proof.
  intros Hi Hgo. unfold step_at. rewrite Hi. unfold can_go in Hgo.
  destruct (code tk); try discriminate; eexists; reflexivity.
Qed.

(** With a semaphore of at least one slot, a pool that is not finished
    can take a step. *)
Lemma pool_progress (env : nat -> Oracle) (urls : list string) (c r : Z)
    (s : Pool) :
  pool_inv env urls c r s -> (1 <= c)%Z -> all_done s = false ->
  exists s', step env s s'.
Proof.
  intros Hinv Hc Hnot.
  destruct (existsb can_go (tasks s)) eqn:Hgo.
  - apply existsb_exists in Hgo. destruct Hgo as (tk & Hin & Hgo).
    apply In_nth_error in Hin. destruct Hin as [i Hi].
    destruct (can_go_steps env s i tk Hi Hgo) as [s' Hs'].
    exists s'. econstructor; exact Hs'.
  - assert (Hout : forall tk, In tk (tasks s) -> holding tk = false).
    { intros tk Hin.
      assert (Hg : can_go tk = false).
      { destruct (can_go tk) eqn:E; [|reflexivity].
        assert (existsb can_go (tasks s) = true)
          by (apply existsb_exists; eauto).
        congruence. }
      apply In_nth_error in Hin. destruct Hin as [i Hi].
      destruct (inv_tasks _ _ _ _ _ Hinv i tk Hi) as [Hw _].
      unfold can_go in Hg. destruct (code tk); try discriminate;
        cbn [wf] in Hw; [exact Hw | apply Hw]. }
    assert (Hzero : in_region s = 0).
    { unfold in_region. clear -Hout. induction (tasks s) as [|a l IH]; [reflexivity|].
      simpl. rewrite (Hout a (or_introl eq_refl)). apply IH.
      intros tk Hin. apply Hout. right. exact Hin. }
    pose proof (inv_sem _ _ _ _ _ Hinv) as Hsem. rewrite Hzero in Hsem.
    assert (Hex : exists tk, In tk (tasks s) /\ is_done tk = false).
    { unfold all_done in Hnot. clear -Hnot.
      induction (tasks s) as [|a l IH]; [discriminate|].
      simpl in Hnot. destruct (is_done a) eqn:Ea.
      - destruct (IH Hnot) as (tk & Hin & Htk). exists tk. split; [right|]; auto.
      - exists a. split; [left|]; auto. }
    destruct Hex as (tk & Hin & Hnd).
    assert (Hg : can_go tk = false).
    { destruct (can_go tk) eqn:E; [|reflexivity].
      assert (existsb can_go (tasks s) = true) by (apply existsb_exists; eauto).
      congruence. }
    apply In_nth_error in Hin. destruct Hin as [i Hi].
    unfold can_go in Hg. unfold is_done in Hnd.
    destruct (code tk) as [|k|k|k|md k|d k|k|k] eqn:Ecode; try discriminate.
    eexists. apply (step_task env i). unfold step_at. rewrite Hi, Ecode.
    replace (0 <? sem_value s)%Z with true by (symmetry; apply Z.ltb_lt; lia).
    reflexivity.
Qed.

(** With a semaphore of at least one slot, every run can be carried to
    its end. *)
Lemma pool_completes (env : nat -> Oracle) (urls : list string) (c r : Z) :
  (1 <= c)%Z ->
  forall (n : nat) (s : Pool),
    events_to_go env s <= n -> pool_inv env urls c r s ->
    exists s', reachable env s s' /\ all_done s' = true.
Proof.
  intros Hc. induction n as [|n IH]; intros s Hn Hinv.
  - destruct (all_done s) eqn:Hd; [exists s; split; [constructor | exact Hd]|].
    destruct (pool_progress env urls c r s Hinv Hc Hd) as [s1 Hs1].
    apply step_events_to_go in Hs1. lia.
  - destruct (all_done s) eqn:Hd; [exists s; split; [constructor | exact Hd]|].
    destruct (pool_progress env urls c r s Hinv Hc Hd) as [s1 Hs1].
    destruct (IH s1) as (s' & Hreach & Hdone).
    + apply step_events_to_go in Hs1. lia.
    + eapply pool_inv_step; eauto.
    + exists s'. split; [|exact Hdone].
      eapply reachable_trans; [|exact Hreach].
      eapply reach_step; [constructor | exact Hs1].
Qed.


Lemma run_schedule_reachable (env : nat -> Oracle) (schedule : list nat) :
  forall s, reachable env s (run_schedule env schedule s).
Proof.
  induction schedule as [|i rest IH]; intros s; cbn [run_schedule]; [constructor|].
  destruct (step_at env i s) as [s'|] eqn:E; [|apply IH].
  eapply reachable_trans; [|apply IH].
  eapply reach_step; [constructor | econstructor; exact E].
Qed.


Lemma run_schedule_app (env : nat -> Oracle) (a b : list nat) :
  forall s, run_schedule env (a ++ b) s = run_schedule env b (run_schedule env a s).
Proof.
  induction a as [|i a IH]; intros s; cbn [run_schedule app]; [reflexivity|].
  destruct (step_at env i s); apply IH.
Qed.

(** Every state of a run is the state after some schedule. *)
Lemma reachable_schedule (env : nat -> Oracle) (s s' : Pool) :
  reachable env s s' -> exists schedule, run_schedule env schedule s = s'.
Proof.
  induction 1 as [|s1 s2 _ [schedule IH] Hstep]; [exists []; reflexivity|].
  destruct Hstep as [i s1 s2 Hstep]. exists (schedule ++ [i])%list.
  rewrite run_schedule_app, IH. cbn [run_schedule]. rewrite Hstep. reflexivity.
Qed.




Lemma crawl_parallel_bounded_concurrency_witness :
  let s0 := Crew.start ["u0"; "u1"; "u2"; "u3"] 2 3 in
  let s := run_schedule Crew.mixed (Crew.round_robin 4 3) s0 in
  in_region s = 2 /\
  (Z.of_nat (in_region s) <= 2)%Z /\
  fetching s <= in_region s /\
  (Z.of_nat (fetching s) <= 2)%Z.
Proof.
  cbv zeta. split; [vm_compute; reflexivity|].
  apply (crawl_parallel_bounded_concurrency Crew.mixed
           ["u0"; "u1"; "u2"; "u3"] 2 3
           (Crew.start ["u0"; "u1"; "u2"; "u3"] 2 3)).
  - reflexivity.
  - apply run_schedule_reachable.
Defined.

(** * Further properties

    ** [process_url] under any collaborators *)

Ltac shape_cons :=
  repeat match goal with
         | H : _ /\ _ |- _ => destruct H
         | H : exists _, _ |- _ => destruct H
         end;
  subst;
  repeat split;
  try (eexists (_ :: _); split; [reflexivity|]);
  rewrite ?count_cons in *; cbn [forallb sleeps_two Z.eqb Pos.eqb andb
    is_arun is_sleep is_failed is_processed is_store is_acquire is_release
    Nat.b2n] in *;
  try assumption; try lia.

Lemma after_shape_last :
  after_shape 0 [EvFailed; EvRelease].
Proof.
  unfold after_shape. repeat split; try (cbn; lia).
  exists [EvFailed]. split; reflexivity.
Qed.

Lemma after_shape_sleep (n : nat) (tr : list Event) :
  1 <= n -> loop_shape n tr -> after_shape n (EvSleep 2 :: tr).
Proof. unfold loop_shape, after_shape. intros Hn H. shape_cons. Qed.

Lemma loop_shape_failed_attempt (n : nat) (tr : list Event) :
  after_shape n tr -> loop_shape (S n) (EvArun :: tr).
Proof. unfold loop_shape, after_shape. intros H. shape_cons. Qed.

Lemma loop_shape_stored (n : nat) (m : string) :
  loop_shape (S n) [EvArun; EvProcessed; EvStore m; EvRelease].
Proof.
  unfold loop_shape. repeat split; try (cbn; lia).
  exists [EvArun; EvProcessed; EvStore m]. split; reflexivity.
Qed.

Lemma loop_shape_store_raised (n : nat) (m : string) (tr : list Event) :
  after_shape n tr ->
  loop_shape (S n) (EvArun :: EvProcessed :: EvStore m :: tr).
Proof.
  unfold loop_shape, after_shape.
  intros (Ha & Hs & Hf & Hacc & Hst & Hp & Hq & (body & -> & Hb) & Htwo).
  rewrite !count_cons in *.
  cbn [forallb sleeps_two andb is_arun is_sleep is_failed is_processed
       is_store is_acquire is_release Nat.b2n] in *.
  repeat split; try assumption; try lia.
  exists (EvArun :: EvProcessed :: EvStore m :: body). split; [reflexivity|].
  rewrite !count_cons. cbn. exact Hb.
Qed.

Lemma retry_loop_shape (o : Oracle) (max_retries : Z) :
  forall (n : nat) (retry : Z) (calls stores : nat),
    (retry + Z.of_nat n = max_retries)%Z ->
    loop_shape n (run_alone o (retry_loop max_retries n retry) calls stores).
Proof.
  induction n as [|n IH]; intros retry calls stores Hr.
  - cbn [retry_loop run_alone]. unfold loop_shape.
    repeat split; try (cbn; lia). exists []. split; reflexivity.
  - cbn [retry_loop run_alone].
    assert (Hafter : forall st,
      after_shape n
        (run_alone o (after_failed_attempt max_retries retry
                        (retry_loop max_retries n (retry + 1))) (S calls) st)).
    { intros st. unfold after_failed_attempt. destruct n as [|n].
      - replace (retry <? max_retries - 1)%Z with false
          by (symmetry; apply Z.ltb_ge; lia).
        exact after_shape_last.
      - replace (retry <? max_retries - 1)%Z with true
          by (symmetry; apply Z.ltb_lt; lia).
        cbn [run_alone]. apply after_shape_sleep; [lia|]. apply IH. lia. }
    destruct (arun o calls) as [m|m|].
    + cbn [run_alone]. destruct (store o stores).
      * apply loop_shape_stored.
      * apply loop_shape_store_raised. apply Hafter.
    + apply loop_shape_failed_attempt. apply Hafter.
    + apply loop_shape_failed_attempt. apply Hafter.
Qed.

Lemma process_url_trace_loop (o : Oracle) (max_retries : Z) (url : string) :
  exists tr,
    process_url_trace o max_retries url = EvAcquire :: tr /\
    loop_shape (Z.to_nat max_retries) tr.
Proof.
  unfold process_url_trace, process_url. cbn [run_alone].
  eexists. split; [reflexivity|].
  destruct (Z.to_nat max_retries) as [|n] eqn:E.
  - cbn [retry_loop run_alone]. unfold loop_shape.
    repeat split; try (cbn; lia). exists []. split; reflexivity.
  - apply retry_loop_shape. lia.
Qed.

Lemma process_url_bounded_attempts_aux
    (o : Oracle) (max_retries : Z) (url : string) :
  let tr := process_url_trace o max_retries url in
  count is_arun tr <= Z.to_nat max_retries /\
  count is_failed tr <= 1 /\
  count is_processed tr <= count is_arun tr.
Proof.
  cbv zeta. destruct (process_url_trace_loop o max_retries url)
    as (tr & -> & Ha & _ & Hs & Hf & _ & Hst & Hp & _).
  rewrite !count_cons. cbn [is_arun is_failed is_processed Nat.b2n].
  repeat split; try assumption; lia.
Qed.

Lemma process_url_counts_at_least_once_aux
    (o : Oracle) (max_retries : Z) (url : string) :
  (1 <= max_retries)%Z ->
  let tr := process_url_trace o max_retries url in
  1 <= count is_processed tr + count is_failed tr.
Proof.
  intros Hr. cbv zeta. destruct (process_url_trace_loop o max_retries url)
    as (tr & -> & _ & _ & _ & Hf & Hacc & _).
  rewrite !count_cons. cbn [is_failed is_processed Nat.b2n].
  specialize (Hacc ltac:(lia)). lia.
Qed.

Lemma with_sleeps_cons (p q : bool) (rest : list bool) :
  with_sleeps (p :: q :: rest)
  = (pass_events p ++ EvSleep 2 :: with_sleeps (q :: rest))%list.
Proof. reflexivity. Qed.

Lemma without_stores_pass (p : bool) (m : string) (tr : list Event) :
  without_stores
    (EvArun :: if p then EvProcessed :: EvStore m :: tr else tr)
  = (pass_events p ++ without_stores tr)%list.
Proof. destruct p; reflexivity. Qed.

(** What the loop does with [n] iterations to go, from its [calls]-th
    fetch on. *)
Lemma retry_loop_passes (o : Oracle) (max_retries : Z) :
  forall (n : nat) (retry : Z) (calls stores : nat),
    (retry + Z.of_nat n = max_retries)%Z ->
    exists (passes : list bool) (ending : list Event),
      without_stores (run_alone o (retry_loop max_retries n retry) calls stores)
        = (with_sleeps passes ++ ending ++ [EvRelease])%list /\
      passes = map (fun i => is_success (arun o i))
                   (seq calls (List.length passes)) /\
      List.length passes <= n /\
      ((ending = [] /\ exists before, passes = (before ++ [true])%list) \/
       (ending = [EvFailed] /\ List.length passes = n /\ 1 <= n) \/
       (ending = [] /\ passes = [] /\ n = 0)).
Proof.
  induction n as [|n IH]; intros retry calls stores Hr.
  - exists [], []. cbn [retry_loop run_alone]. repeat split; auto.
  - cbn [retry_loop run_alone].
    set (p := is_success (arun o calls)).
    assert (Hafter : forall st m,
      exists passes ending,
        without_stores
          (EvArun ::
           if p then EvProcessed :: EvStore m ::
                     run_alone o (after_failed_attempt max_retries retry
                                    (retry_loop max_retries n (retry + 1)))
                       (S calls) st
           else run_alone o (after_failed_attempt max_retries retry
                               (retry_loop max_retries n (retry + 1)))
                  (S calls) st)
          = (with_sleeps passes ++ ending ++ [EvRelease])%list /\
        passes = map (fun i => is_success (arun o i))
                     (seq calls (List.length passes)) /\
        List.length passes <= S n /\
        ((ending = [] /\ exists before, passes = (before ++ [true])%list) \/
         (ending = [EvFailed] /\ List.length passes = S n /\ 1 <= S n) \/
         (ending = [] /\ passes = [] /\ S n = 0))).
    { intros st m. rewrite without_stores_pass.
      unfold after_failed_attempt. destruct n as [|n].
      - replace (retry <? max_retries - 1)%Z with false
          by (symmetry; apply Z.ltb_ge; lia).
        exists [p], [EvFailed]. cbn [retry_loop run_alone].
        split; [|split; [|split]].
        + cbn [with_sleeps]. rewrite app_nil_r. reflexivity.
        + reflexivity.
        + simpl; lia.
        + right; left. repeat split; simpl; lia.
      - replace (retry <? max_retries - 1)%Z with true
          by (symmetry; apply Z.ltb_lt; lia).
        cbn [run_alone].
        destruct (IH (retry + 1)%Z (S calls) st ltac:(lia))
          as (passes & ending & Htr & Hpasses & Hlen & Hend).
        assert (Hne : exists q rest, passes = q :: rest).
        { destruct passes as [|q rest]; [|eauto].
          destruct Hend as [(_ & before & Hb)|[(_ & Hl & _)|(_ & _ & Hn)]].
          - destruct before; discriminate.
          - discriminate.
          - discriminate. }
        destruct Hne as (q & rest & Hq).
        exists (p :: passes), ending. split; [|split; [|split]].
        + rewrite Hq, with_sleeps_cons, <- Hq.
          change (without_stores (EvSleep 2 :: ?t))
            with (EvSleep 2 :: without_stores t).
          rewrite Htr, <- app_assoc. reflexivity.
        + cbn [List.length seq map]. f_equal. exact Hpasses.
        + simpl; lia.
        + destruct Hend as [(He & before & Hb)|[(He & Hl & _)|(_ & _ & Hn)]].
          * left. split; [exact He|]. exists (p :: before).
            rewrite Hb. reflexivity.
          * right; left. repeat split; [exact He | simpl; lia | lia].
          * discriminate. }
    unfold p in Hafter. clear p.
    destruct (arun o calls) as [m|m|] eqn:Ea; cbn [is_success] in Hafter.
    + cbn [run_alone]. destruct (store o stores).
      * exists [true], []. cbn [run_alone]. split; [|split; [|split]].
        -- reflexivity.
        -- cbn [List.length seq map]. rewrite Ea. reflexivity.
        -- simpl; lia.
        -- left. split; [reflexivity|]. exists []. reflexivity.
      * exact (Hafter (S stores) m).
    + exact (Hafter stores "").
    + exact (Hafter stores "").
Qed.

(** X1. Whatever the fetch client and the store do, and the store
    statement of lines 256-258 left aside, the events of [process_url]
    are: the semaphore entered; then one pass per fetch, the [i]-th pass
    counting the URL as processed exactly when the [i]-th fetch reported
    success, with a sleep of two seconds between one pass and the next
    and nowhere else; then the semaphore left.  The passes are at most
    [max_retries]; either the last one succeeded and nothing follows it
    (the return of line 259), or all [max_retries >= 1] passes were made
    and the URL is counted as failed once after the last, or
    [max_retries <= 0] and there is no pass at all.  So the URL is
    fetched at most [max_retries] times, counted as failed at most once
    and as processed at most once per fetch. *)
Theorem process_url_bounded_attempts
    (o : Oracle) (max_retries : Z) (url : string) :
  let tr := process_url_trace o max_retries url in
  (exists (passes : list bool) (ending : list Event),
     without_stores tr
       = (EvAcquire :: with_sleeps passes ++ ending ++ [EvRelease])%list /\
     passes = map (fun i => is_success (arun o i))
                  (seq 0 (List.length passes)) /\
     List.length passes <= Z.to_nat max_retries /\
     ((ending = [] /\ exists before, passes = (before ++ [true])%list) \/
      (ending = [EvFailed] /\ List.length passes = Z.to_nat max_retries /\
       (1 <= max_retries)%Z) \/
      (ending = [] /\ passes = [] /\ (max_retries <= 0)%Z))) /\
  count is_arun tr <= Z.to_nat max_retries /\
  count is_sleep tr <= count is_arun tr - 1 /\
  forallb sleeps_two tr = true /\
  count is_failed tr <= 1 /\
  count is_processed tr <= count is_arun tr.
Proof.
  cbv zeta. split.
  - unfold process_url_trace, process_url. cbn [run_alone].
    change (without_stores (EvAcquire :: ?t))
      with (EvAcquire :: without_stores t).
    destruct (Z.to_nat max_retries) as [|n] eqn:E.
    + exists [], []. cbn [retry_loop run_alone]. repeat split; auto.
      right; right. repeat split; lia.
    + destruct (retry_loop_passes o max_retries (S n) 0 0 0 ltac:(lia))
        as (passes & ending & Htr & Hpasses & Hlen & Hend).
      exists passes, ending. rewrite Htr.
      split; [reflexivity|]. split; [exact Hpasses|]. split; [exact Hlen|].
      destruct Hend as [H|[(He & Hl & _)|(_ & _ & Hn)]].
      * left. exact H.
      * right; left. repeat split; [exact He | exact Hl | lia].
      * discriminate.
  - destruct (process_url_trace_loop o max_retries url)
      as (tr & -> & Ha & _ & Hs & Hf & _ & Hst & Hp & _ & _ & Htwo).
    rewrite !count_cons.
    cbn [forallb sleeps_two andb is_arun is_sleep is_failed is_processed
         is_store Nat.b2n].
    repeat split; try assumption; lia.
Qed.

(** X2. Whatever happens inside, [process_url] enters the semaphore
    first and leaves it last, once each: no path through the retry loop
    keeps the slot. *)
Theorem process_url_releases_semaphore
    (o : Oracle) (max_retries : Z) (url : string) :
  exists body,
    process_url_trace o max_retries url
      = (EvAcquire :: body ++ [EvRelease])%list /\
    count is_acquire body = 0 /\ count is_release body = 0.
Proof.
  destruct (process_url_trace_loop o max_retries url)
    as (tr & -> & _ & _ & _ & _ & _ & _ & _ & Hq & (body & -> & Hb) & _).
  exists body. split; [reflexivity|]. split; [|exact Hb].
  rewrite count_app in Hq. lia.
Qed.

(** X3. With [max_retries >= 1] no URL goes uncounted, even when the
    store raises: a URL that is never counted as processed is counted
    as failed exactly once. *)
Theorem process_url_counts_at_least_once
    (o : Oracle) (max_retries : Z) (url : string) :
  (1 <= max_retries)%Z ->
  let tr := process_url_trace o max_retries url in
  1 <= count is_processed tr + count is_failed tr /\
  (count is_processed tr = 0 -> count is_failed tr = 1).
Proof.
  intros Hr. cbv zeta. destruct (process_url_trace_loop o max_retries url)
    as (tr & -> & _ & _ & _ & Hf & Hacc & _).
  rewrite !count_cons. cbn [is_failed is_processed Nat.b2n].
  specialize (Hacc ltac:(lia)). lia.
Qed.

Lemma process_url_counts_at_least_once_witness :
  let tr := process_url_trace Crew.sink_raises 3 "https://a.test/1" in
  1 <= count is_processed tr + count is_failed tr /\
  (count is_processed tr = 0 -> count is_failed tr = 1).
Proof.
  apply (process_url_counts_at_least_once Crew.sink_raises 3 "https://a.test/1").
  lia.
Defined.

(** ** The pool under any collaborators *)

Lemma total_same {A : Type} (f : A -> nat) (l1 : list A) :
  forall l2 : list A,
    List.length l1 = List.length l2 ->
    (forall i x y, nth_error l1 i = Some x -> nth_error l2 i = Some y ->
                   f x = f y) ->
    total f l1 = total f l2.
Proof.
  unfold total. induction l1 as [|a l1 IH]; intros [|b l2] Hlen H;
    simpl in *; try discriminate; [reflexivity|].
  rewrite (H 0 a b eq_refl eq_refl). f_equal. apply IH; [lia|].
  intros i x y Hx Hy. exact (H (S i) x y Hx Hy).
Qed.

Lemma total_bounds {A : Type} (f : A -> nat) (lo hi : nat) (l : list A) :
  (forall x, In x l -> lo <= f x <= hi) ->
  lo * List.length l <= total f l <= hi * List.length l.
Proof.
  unfold total. induction l as [|a l IH]; intros H; simpl; [lia|].
  pose proof (H a (or_introl eq_refl)).
  specialize (IH (fun x Hx => H x (or_intror Hx))). lia.
Qed.

Lemma crawl_parallel_finished (env : nat -> Oracle) (schedule : list nat)
    (urls : list string) (c r : Z) (st : RunStatistics) :
  crawl_parallel env schedule urls c r = Some st ->
  exists s0 s,
    crawl_start urls c r = Some s0 /\ reachable env s0 s /\
    pool_inv env urls c r s /\ all_done s = true /\
    st = mk_stats (processed_urls s) (failed_urls s).
Proof.
  unfold crawl_parallel. destruct (crawl_start urls c r) as [s0|] eqn:H0;
    [|discriminate].
  unfold crawl_result. destruct (all_done _) eqn:Hd; [|discriminate].
  intros H. apply Some_inj in H. exists s0, (run_schedule env schedule s0).
  split; [reflexivity|]. split; [apply run_schedule_reachable|].
  split; [|split; [exact Hd | auto]].
  eapply pool_inv_reachable; [exact H0 | apply run_schedule_reachable].
Qed.

(** X4. The counters [crawl_parallel] returns do not depend on the
    order in which the event loop runs the tasks: two finished runs on
    the same URLs, against the same collaborators, return the same
    statistics. *)
Theorem crawl_parallel_schedule_independent
    (env : nat -> Oracle) (urls : list string) (max_concurrent max_retries : Z)
    (schedule1 schedule2 : list nat) (st1 st2 : RunStatistics) :
  crawl_parallel env schedule1 urls max_concurrent max_retries = Some st1 ->
  crawl_parallel env schedule2 urls max_concurrent max_retries = Some st2 ->
  st1 = st2.
Proof.
  intros H1 H2.
  destruct (crawl_parallel_finished _ _ _ _ _ _ H1)
    as (s0 & s1 & _ & _ & Hinv1 & Hd1 & ->).
  destruct (crawl_parallel_finished _ _ _ _ _ _ H2)
    as (s0' & s2 & _ & _ & Hinv2 & Hd2 & ->).
  assert (Hsame : forall p : Event -> bool,
            total (fun tk => count p (trace tk)) (tasks s1)
            = total (fun tk => count p (trace tk)) (tasks s2)).
  { intros p. apply total_same.
    - rewrite (inv_length _ _ _ _ _ Hinv1), (inv_length _ _ _ _ _ Hinv2).
      reflexivity.
    - intros i x y Hx Hy.
      destruct (finished_task_trace _ _ _ _ _ i x Hinv1 Hd1 Hx) as (u1 & Hu1 & ->).
      destruct (finished_task_trace _ _ _ _ _ i y Hinv2 Hd2 Hy) as (u2 & Hu2 & ->).
      congruence. }
  rewrite (inv_processed _ _ _ _ _ Hinv1), (inv_failed _ _ _ _ _ Hinv1).
  rewrite (inv_processed _ _ _ _ _ Hinv2), (inv_failed _ _ _ _ _ Hinv2).
  rewrite !Hsame. reflexivity.
Qed.

Lemma crawl_parallel_schedule_independent_witness :
  crawl_parallel Crew.mixed (Crew.round_robin 4 30) ["u0"; "u1"; "u2"; "u3"] 2 3
    = Some (mk_stats 3 1) /\
  crawl_parallel Crew.mixed (in_turn 4 12) ["u0"; "u1"; "u2"; "u3"] 2 3
    = Some (mk_stats 3 1) /\
  mk_stats 3 1 = mk_stats 3 1.
Proof.
  split; [vm_compute; reflexivity|]. split; [vm_compute; reflexivity|].
  apply (crawl_parallel_schedule_independent Crew.mixed
           ["u0"; "u1"; "u2"; "u3"] 2 3
           (Crew.round_robin 4 30) (in_turn 4 12)).
  - vm_compute. reflexivity.
  - vm_compute. reflexivity.
Defined.

Lemma run_schedule_stuck (env : nat -> Oracle) (s : Pool) :
  (forall i, step_at env i s = None) ->
  forall schedule, run_schedule env schedule s = s.
Proof.
  intros H schedule. induction schedule as [|i rest IH]; cbn [run_schedule];
    [reflexivity|].
  rewrite H. exact IH.
Qed.

(** X5. With [max_concurrent = 0] and at least one URL the semaphore
    is made (zero is a value [asyncio.Semaphore] takes) and one task per
    URL is started, but no task ever gets past the semaphore: every task
    waits to enter it, no task can take a step, so the pool stays as it
    started, with no event in any trace and both counters at zero;
    the run does not come to an end and nothing is returned, whatever
    the schedule. *)
Theorem crawl_parallel_zero_slots_never_returns
    (env : nat -> Oracle) (urls : list string) (max_retries : Z) :
  urls <> [] ->
  exists s0 : Pool,
    crawl_start urls 0 max_retries = Some s0 /\
    sem_value s0 = 0%Z /\
    processed_urls s0 = 0%Z /\ failed_urls s0 = 0%Z /\
    map task_url (tasks s0) = urls /\
    (forall tk, In tk (tasks s0) ->
       trace tk = [] /\ holding tk = false /\ exists k, code tk = Acquire k) /\
    (forall s, ~ step env s0 s) /\
    (forall s, reachable env s0 s -> s = s0) /\
    (forall s, reachable env s0 s -> crawl_result s = None) /\
    (forall schedule,
       run_schedule env schedule s0 = s0 /\
       crawl_parallel env schedule urls 0 max_retries = None).
Proof.
  intros Hne. unfold crawl_parallel, crawl_start. cbn [Z.ltb Z.compare].
  eexists. split; [reflexivity|].
  set (s0 := mk_pool 0 0 0 _).
  assert (Hstuck : forall i, step_at env i s0 = None).
  { intros i. unfold step_at. cbn [tasks sem_value s0].
    rewrite nth_error_map. destruct (nth_error urls i); reflexivity. }
  assert (Hnostep : forall s, ~ step env s0 s).
  { intros s Hs. inversion Hs as [i a b Hi]; subst. rewrite Hstuck in Hi.
    discriminate. }
  assert (Hreach : forall s, reachable env s0 s -> s = s0).
  { intros s Hs. induction Hs as [|s s' _ IH Hstep]; [reflexivity|].
    subst s. destruct (Hnostep s' Hstep). }
  assert (Hres : crawl_result s0 = None).
  { unfold crawl_result, all_done. cbn [tasks s0].
    destruct urls as [|u us]; [congruence|]. reflexivity. }
  split; [reflexivity|]. split; [reflexivity|]. split; [reflexivity|].
  split; [|split; [|split; [exact Hnostep|split; [exact Hreach|split]]]].
  - cbn [tasks s0]. rewrite map_map. cbn [task_url]. apply map_id.
  - intros tk Hin. cbn [tasks s0] in Hin. apply in_map_iff in Hin.
    destruct Hin as (u & <- & _). cbn [trace holding code].
    split; [reflexivity|]. split; [reflexivity|].
    unfold process_url. eexists. reflexivity.
  - intros s Hs. rewrite (Hreach s Hs). exact Hres.
  - intros schedule. rewrite run_schedule_stuck by exact Hstuck.
    split; [reflexivity | exact Hres].
Qed.

Lemma crawl_parallel_zero_slots_never_returns_witness :
  exists s0 : Pool,
    crawl_start ["u0"; "u1"] 0 3 = Some s0 /\
    sem_value s0 = 0%Z /\
    processed_urls s0 = 0%Z /\ failed_urls s0 = 0%Z /\
    map task_url (tasks s0) = ["u0"; "u1"] /\
    (forall tk, In tk (tasks s0) ->
       trace tk = [] /\ holding tk = false /\ exists k, code tk = Acquire k) /\
    (forall s, ~ step Crew.mixed s0 s) /\
    (forall s, reachable Crew.mixed s0 s -> s = s0) /\
    (forall s, reachable Crew.mixed s0 s -> crawl_result s = None) /\
    (forall schedule,
       run_schedule Crew.mixed schedule s0 = s0 /\
       crawl_parallel Crew.mixed schedule ["u0"; "u1"] 0 3 = None).
Proof.
  apply (crawl_parallel_zero_slots_never_returns Crew.mixed ["u0"; "u1"] 3).
  discriminate.
Defined.

(** X6. When a run is over every slot of the semaphore is free again:
    no task is left inside the guarded region and the counter of the
    semaphore is back at [max_concurrent]. *)
Theorem crawl_parallel_returns_all_slots
    (env : nat -> Oracle) (urls : list string) (max_concurrent max_retries : Z)
    (s0 s : Pool) :
  crawl_start urls max_concurrent max_retries = Some s0 ->
  reachable env s0 s ->
  all_done s = true ->
  in_region s = 0 /\ sem_value s = max_concurrent.
Proof.
  intros H0 Hreach Hdone.
  pose proof (pool_inv_reachable env urls _ _ s0 s H0 Hreach) as Hinv.
  assert (Hzero : in_region s = 0).
  { unfold in_region.
    assert (Hout : forall tk, In tk (tasks s) -> holding tk = false).
    { intros tk Hin. apply In_nth_error in Hin. destruct Hin as [i Hi].
      destruct (inv_tasks _ _ _ _ _ Hinv i tk Hi) as [Hw _].
      rewrite (all_done_tasks s i tk Hdone Hi) in Hw. exact Hw. }
    clear -Hout. induction (tasks s) as [|a l IH]; [reflexivity|].
    simpl. rewrite (Hout a (or_introl eq_refl)). apply IH.
    intros tk Hin. apply Hout. right. exact Hin. }
  split; [exact Hzero|].
  pose proof (inv_sem _ _ _ _ _ Hinv) as Hsem. rewrite Hzero in Hsem. lia.
Qed.

Lemma crawl_parallel_returns_all_slots_witness :
  let s := run_schedule Crew.mixed (Crew.round_robin 4 30)
             (Crew.start ["u0"; "u1"; "u2"; "u3"] 2 3) in
  in_region s = 0 /\ sem_value s = 2%Z.
Proof.
  cbv zeta.
  apply (crawl_parallel_returns_all_slots Crew.mixed
           ["u0"; "u1"; "u2"; "u3"] 2 3
           (Crew.start ["u0"; "u1"; "u2"; "u3"] 2 3)).
  - reflexivity.
  - apply run_schedule_reachable.
  - vm_compute. reflexivity.
Defined.

Lemma finished_task_counts (env : nat -> Oracle) (urls : list string)
    (c r : Z) (s : Pool) (tk : Task) :
  (1 <= r)%Z -> pool_inv env urls c r s -> all_done s = true ->
  In tk (tasks s) ->
  1 <= count is_processed (trace tk) + count is_failed (trace tk) /\
  count is_failed (trace tk) <= 1 /\
  count is_processed (trace tk) <= Z.to_nat r.
Proof.
  intros Hr Hinv Hdone Hin. apply In_nth_error in Hin. destruct Hin as [i Hi].
  destruct (finished_task_trace _ _ _ _ _ i tk Hinv Hdone Hi) as (u & _ & ->).
  pose proof (process_url_bounded_attempts_aux (env i) r u) as Hb.
  pose proof (process_url_counts_at_least_once_aux (env i) r u Hr) as Hc.
  cbv zeta in Hb, Hc. lia.
Qed.

Lemma total_add {A : Type} (f g : A -> nat) (l : list A) :
  total (fun x => f x + g x) l = total f l + total g l.
Proof. unfold total. induction l as [|a l IH]; simpl; lia. Qed.

Lemma crawl_parallel_counts_at_least (env : nat -> Oracle)
    (urls : list string) (c r : Z) (schedule : list nat) (st : RunStatistics) :
  (1 <= r)%Z ->
  crawl_parallel env schedule urls c r = Some st ->
  (Z.of_nat (List.length urls)
     <= stat_processed_urls st + stat_failed_urls st)%Z.
Proof.
  intros Hr Hrun.
  destruct (crawl_parallel_finished _ _ _ _ _ _ Hrun)
    as (s0 & s & _ & _ & Hinv & Hdone & ->).
  cbn [stat_processed_urls stat_failed_urls].
  rewrite (inv_processed _ _ _ _ _ Hinv), (inv_failed _ _ _ _ _ Hinv).
  rewrite <- (inv_length _ _ _ _ _ Hinv), <- Nat2Z.inj_add, <- total_add.
  apply inj_le.
  pose proof (total_bounds
                (fun tk => count is_processed (trace tk) + count is_failed (trace tk))
                1 (S (Z.to_nat r)) (tasks s)) as Hsum.
  destruct Hsum as [Hlo _]; [|lia].
  intros tk Hin.
  destruct (finished_task_counts env urls c r s tk Hr Hinv Hdone Hin). lia.
Qed.

(** X7. With [max_retries >= 1], whatever the fetch client and the
    store do, a finished run counts every URL at least once and none as
    failed twice: [len(urls) <= processed_urls + failed_urls],
    [failed_urls <= len(urls)] and
    [processed_urls <= max_retries * len(urls)]. *)
Theorem crawl_parallel_counts_every_url
    (env : nat -> Oracle) (urls : list string) (max_concurrent max_retries : Z)
    (schedule : list nat) (st : RunStatistics) :
  (1 <= max_retries)%Z ->
  crawl_parallel env schedule urls max_concurrent max_retries = Some st ->
  (Z.of_nat (List.length urls)
     <= stat_processed_urls st + stat_failed_urls st)%Z /\
  (0 <= stat_failed_urls st <= Z.of_nat (List.length urls))%Z /\
  (0 <= stat_processed_urls st
     <= max_retries * Z.of_nat (List.length urls))%Z.
Proof.
  intros Hr Hrun. split; [eapply crawl_parallel_counts_at_least; eauto|].
  destruct (crawl_parallel_finished _ _ _ _ _ _ Hrun)
    as (s0 & s & _ & _ & Hinv & Hdone & ->).
  cbn [stat_processed_urls stat_failed_urls].
  rewrite (inv_processed _ _ _ _ _ Hinv), (inv_failed _ _ _ _ _ Hinv).
  rewrite <- (inv_length _ _ _ _ _ Hinv).
  pose proof (finished_task_counts env urls max_concurrent max_retries s)
    as Hfacts.
  pose proof (total_bounds (fun tk => count is_failed (trace tk)) 0 1 (tasks s)
                (fun tk Hin =>
                   ltac:(destruct (Hfacts tk Hr Hinv Hdone Hin); lia))) as Hfail.
  pose proof (total_bounds (fun tk => count is_processed (trace tk))
                0 (Z.to_nat max_retries) (tasks s)
                (fun tk Hin =>
                   ltac:(destruct (Hfacts tk Hr Hinv Hdone Hin); lia))) as Hproc.
  nia.
Qed.

Lemma crawl_parallel_counts_every_url_witness :
  crawl_parallel (fun _ => Crew.sink_raises) (Crew.round_robin 1 20)
    ["https://a.test/1"] 5 3 = Some (mk_stats 3 1) /\
  (Z.of_nat 1 <= 3 + 1)%Z /\ (0 <= 1 <= Z.of_nat 1)%Z /\
  (0 <= 3 <= 3 * Z.of_nat 1)%Z.
Proof.
  split; [vm_compute; reflexivity|].
  apply (crawl_parallel_counts_every_url (fun _ => Crew.sink_raises)
           ["https://a.test/1"] 5 3 (Crew.round_robin 1 20) (mk_stats 3 1)).
  - lia.
  - vm_compute. reflexivity.
Defined.

(** X8. In every interleaving, what a task has done so far is the
    beginning of what [process_url] does for its URL when it runs on its
    own against the same collaborators, and all of it once the task is
    finished: the attempts for one URL follow one another in order, and
    neither the schedule nor the other URLs change them. *)
Theorem crawl_parallel_task_runs_process_url
    (env : nat -> Oracle) (urls : list string) (max_concurrent max_retries : Z)
    (s0 s : Pool) (i : nat) (tk : Task) :
  crawl_start urls max_concurrent max_retries = Some s0 ->
  reachable env s0 s ->
  nth_error (tasks s) i = Some tk ->
  exists url rest,
    nth_error urls i = Some url /\
    process_url_trace (env i) max_retries url = (trace tk ++ rest)%list /\
    (code tk = Done -> rest = []).
Proof.
  intros H0 Hreach Hi.
  pose proof (pool_inv_reachable env urls _ _ s0 s H0 Hreach) as Hinv.
  destruct (inv_tasks _ _ _ _ _ Hinv i tk Hi) as (_ & url & Hu & Hwhole).
  exists url, (events_left env i tk). split; [exact Hu|].
  split; [symmetry; exact Hwhole|].
  intros Hdone. unfold events_left. rewrite Hdone. reflexivity.
Qed.

Lemma crawl_parallel_task_runs_process_url_witness :
  exists url rest,
    nth_error ["u0"; "u1"; "u2"; "u3"] 1 = Some url /\
    process_url_trace (Crew.mixed 1) 3 url
      = ([EvAcquire; EvArun; EvSleep 2; EvArun] ++ rest)%list /\
    (Sleep 2 (retry_loop 3 1 (0 + 1 + 1)) = Done -> rest = []).
Proof.
  refine (crawl_parallel_task_runs_process_url Crew.mixed
            ["u0"; "u1"; "u2"; "u3"] 2 3
            (Crew.start ["u0"; "u1"; "u2"; "u3"] 2 3)
            (run_schedule Crew.mixed (Crew.round_robin 4 4)
               (Crew.start ["u0"; "u1"; "u2"; "u3"] 2 3))
            1 (mk_task "u1" (Sleep 2 (retry_loop 3 1 (0 + 1 + 1))) true 2 0
                 [EvAcquire; EvArun; EvSleep 2; EvArun]) _ _ _).
  - reflexivity.
  - apply run_schedule_reachable.
  - vm_compute. reflexivity.
Defined.

(** ** [check_and_get_sitemap_urls] on any web *)

Lemma scan_robots_returns (W : World) (fuel : nat) :
  (forall u t, exists l t', get_urls_from_sitemap W fuel u t = Return l t') ->
  forall (lines : list string) (s : string) (u : list Url) (t : nat),
    exists res t', scan_robots W fuel lines s u t = Return res t'.
Proof.
  intros Hget. induction lines as [|line rest IH]; intros s u t.
  - eexists _, _. reflexivity.
  - rewrite scan_robots_step. destruct (directive line) as [d|]; [|apply IH].
    destruct (Hget (Some d) t) as (l & t1 & ->).
    destruct (is_empty l); [apply IH | eexists _, _; reflexivity].
Qed.

(** X9. [check_and_get_sitemap_urls] never raises to its caller, and on
    a web whose sitemap indexes are acyclic it returns: the fallback to
    robots.txt cannot fail either. *)
Theorem check_and_get_sitemap_urls_total
    (W : World) (fuel : nat) (url : string) (t : nat) :
  (forall e t', check_and_get_sitemap_urls W fuel url t <> Raise e t') /\
  (forall rank : Url -> nat,
     ranked W rank -> (forall u, rank u < fuel) ->
     exists res t', check_and_get_sitemap_urls W fuel url t = Return res t').
Proof.
  split; [intros; apply check_and_get_sitemap_urls_no_raise|].
  intros rank Hrank Hfuel.
  assert (Hget : forall u t0, exists l t',
            get_urls_from_sitemap W fuel u t0 = Return l t').
  { intros u t0. apply (get_urls_returns W rank Hrank). apply Hfuel. }
  unfold check_and_get_sitemap_urls. fold (base_url_of url).
  unfold bind at 1.
  destruct (Hget (Some (format_sitemap_url (base_url_of url))) t) as (l & t1 & ->).
  destruct l as [|x l]; cbn [is_empty]; [|eexists _, _; reflexivity].
  unfold try_except, bind, requests_get.
  destruct (urlparse W (base_url_of url)) as [p|]; [|eexists _, _; reflexivity].
  cbn [ret]. destruct (http W t1 _) as [r|]; [|eexists _, _; reflexivity].
  destruct (status_code r =? 200)%Z; [|eexists _, _; reflexivity].
  destruct (scan_robots_returns W fuel Hget (split (text r) newline)
              (format_sitemap_url (base_url_of url)) [] (S t1)) as (res & t' & ->).
  eexists _, _. reflexivity.
Qed.

Lemma rank_flat_ranked : ranked Web.site_b Sample2.rank_flat.
Proof.
  intros t u r root c Hget Hp Htag Hc. exfalso.
  unfold Web.site_b, Web.site in Hget, Hp. cbn [http xml_fromstring] in Hget, Hp.
  cbn [Web.lookup Web.doc_of_urlset] in Hp.
  destruct (String.eqb (content r) (Web.urlset_xml ["https://b.test/page"]));
    [|discriminate].
  apply Some_inj in Hp. subst root. vm_compute in Htag. discriminate.
Qed.

Lemma check_and_get_sitemap_urls_total_witness :
  exists res t', check_and_get_sitemap_urls Web.site_b 1 "b.test" 0 = Return res t'.
Proof.
  apply (proj2 (check_and_get_sitemap_urls_total Web.site_b 1 "b.test" 0)
           Sample2.rank_flat rank_flat_ranked).
  intros u. unfold Sample2.rank_flat. lia.
Defined.

Lemma scan_robots_result (W : World) (fuel : nat) (lines : list string) :
  forall (s0 : string) (u0 : list Url) (t : nat)
         (s : string) (urls : list Url) (t' : nat),
    scan_robots W fuel lines s0 u0 t = Return (s, urls) t' ->
    (s = s0 /\ (urls = u0 \/ urls = [])) \/
    (urls <> [] /\ In s (directives lines)).
Proof.
  induction lines as [|line rest IH]; intros s0 u0 t s urls t' H.
  - cbn in H. injection H as <- <- _. left. auto.
  - rewrite scan_robots_step in H. cbn [directives].
    destruct (directive line) as [d|]; [|apply IH in H; exact H].
    destruct (get_urls_from_sitemap W fuel (Some d) t) as [l t1|e t1|];
      try discriminate.
    destruct l as [|x l]; cbn [is_empty] in H.
    + apply IH in H. destruct H as [[-> H]|[Hne Hin]].
      * left. split; [reflexivity|]. right. destruct H; assumption.
      * right. split; [exact Hne | right; exact Hin].
    + injection H as <- <- _. right. split; [discriminate | left; reflexivity].
Qed.

(** X10. What [check_and_get_sitemap_urls] returns is consistent: an
    empty list always comes with the guessed sitemap URL, another
    sitemap URL only ever comes with a non-empty list; and when the
    direct fetch yields URLs they are returned as they are with the
    guessed URL, without a request for robots.txt. *)
Theorem check_and_get_sitemap_urls_result
    (W : World) (fuel : nat) (url : string) (t : nat) :
  let guess := format_sitemap_url (base_url_of url) in
  (forall s urls t',
     check_and_get_sitemap_urls W fuel url t = Return (s, urls) t' ->
     (urls = [] -> s = guess) /\ (s <> guess -> urls <> [])) /\
  (forall l t1,
     get_urls_from_sitemap W fuel (Some guess) t = Return l t1 ->
     l <> [] ->
     check_and_get_sitemap_urls W fuel url t = Return (guess, l) t1).
Proof.
  cbv zeta. split.
  - intros s urls t' H.
    assert (Hor : s = format_sitemap_url (base_url_of url) \/ urls <> []).
    { unfold check_and_get_sitemap_urls in H. fold (base_url_of url) in H.
      unfold bind at 1 in H.
      destruct (get_urls_from_sitemap W fuel _ t) as [l t1|e t1|];
        try discriminate.
      destruct l as [|x l]; cbn [is_empty] in H;
        [|injection H as <- <- _; right; discriminate].
      unfold try_except, bind, requests_get in H.
      destruct (urlparse W (base_url_of url)) as [p|];
        [|injection H as <- _ _; left; reflexivity].
      cbn [ret] in H. destruct (http W t1 _) as [r|];
        [|injection H as <- _ _; left; reflexivity].
      destruct (status_code r =? 200)%Z;
        [|injection H as <- _ _; left; reflexivity].
      destruct (scan_robots W fuel _ _ _ _) as [[s1 u1] t2|e t2|] eqn:Es;
        try discriminate.
      - injection H as <- <- _. apply scan_robots_result in Es.
        destruct Es as [[-> _]|[Hne _]]; [left; reflexivity | right; exact Hne].
      - injection H as <- _ _. left; reflexivity. }
    split.
    + intros ->. destruct Hor as [Hs|Hne]; [exact Hs | congruence].
    + intros Hs. destruct Hor as [Heq|Hne]; [congruence | exact Hne].
  - intros l t1 Hget Hl. unfold check_and_get_sitemap_urls.
    fold (base_url_of url). unfold bind at 1. rewrite Hget.
    destruct l; [congruence | reflexivity].
Qed.

Lemma check_and_get_sitemap_urls_result_witness :
  check_and_get_sitemap_urls Web.site_a 2 "https://a.test/sitemap_index.xml" 0
    = Return ("https://a.test/sitemap_index.xml",
              map Some (Web.a_s1 ++ Web.a_s2)%list) 3.
Proof.
  refine (proj2 (check_and_get_sitemap_urls_result Web.site_a 2
                   "https://a.test/sitemap_index.xml" 0)
                (map Some (Web.a_s1 ++ Web.a_s2)%list) 3 _ _).
  - vm_compute. reflexivity.
  - discriminate.
Defined.

(** X11. The sitemap URL [check_and_get_sitemap_urls] tries first is
    [format_sitemap_url] of its argument: formatting the already
    normalised base URL changes nothing more, as long as something is
    left of the argument once its trailing slashes are gone.  For an
    argument made of slashes only (the empty string included) the base
    URL is the bare scheme, and the first sitemap URL tried is
    [https://https:/sitemap.xml]. *)
Theorem check_and_get_sitemap_urls_guess (url : string) :
  (rstrip url "/" <> "" ->
   format_sitemap_url (base_url_of url) = format_sitemap_url url) /\
  (rstrip url "/" = "" ->
   format_sitemap_url (base_url_of url) = "https://https:/sitemap.xml").
Proof.
  split.
  - intros Hne.
    assert (Hbase : base_url_of url
                    = if has_scheme (rstrip url "/") then rstrip url "/"
                      else "https://" ++ rstrip url "/").
    { unfold base_url_of, has_scheme.
      destruct (startswith (rstrip url "/") "http://"
                || startswith (rstrip url "/") "https://"); reflexivity. }
    rewrite (format_sitemap_url_unfold url).
    rewrite (format_sitemap_url_unfold (base_url_of url)). cbv zeta.
    assert (Hfix : rstrip (base_url_of url) "/" = base_url_of url).
    { rewrite Hbase. destruct (has_scheme (rstrip url "/"));
        [apply rstrip_idem|].
      apply rstrip_app_keep; [exact Hne | apply rstrip_idem]. }
    assert (Hsch : has_scheme (base_url_of url) = true).
    { rewrite Hbase. destruct (has_scheme (rstrip url "/")) eqn:E; [exact E|].
      unfold has_scheme, startswith.
      rewrite (prefix_self_app "https://" (rstrip url "/")). apply orb_true_r. }
    rewrite Hfix, Hsch, Hbase. reflexivity.
  - intros He. unfold base_url_of. rewrite He. reflexivity.
Qed.

Lemma check_and_get_sitemap_urls_guess_witness :
  format_sitemap_url (base_url_of "example.com/docs//")
    = format_sitemap_url "example.com/docs//" /\
  format_sitemap_url (base_url_of "//") = "https://https:/sitemap.xml".
Proof.
  split.
  - apply (proj1 (check_and_get_sitemap_urls_guess "example.com/docs//")).
    vm_compute. discriminate.
  - apply (proj2 (check_and_get_sitemap_urls_guess "//")). reflexivity.
Defined.

(** ** The [sitemap:] lines of robots.txt *)

Lemma lower_char_not_colon (c d : ascii) :
  lower_char c = d -> d <> ":"%char -> Ascii.eqb c ":" = false.
Proof.
  intros H Hd. destruct (Ascii.eqb_spec c ":") as [->|]; [|reflexivity].
  vm_compute in H. congruence.
Qed.

Lemma sitemap_prefix_shape (p : string) :
  lower p = "sitemap:" ->
  exists name, p = name ++ ":" /\ split_once p ":" = [name; ""] /\
               forall rest, split_once (p ++ rest) ":" = [name; rest].
Proof.
  intros H.
  destruct p as [|c0 [|c1 [|c2 [|c3 [|c4 [|c5 [|c6 [|c7 [|c8 p]]]]]]]]];
    try discriminate H.
  cbn [lower] in H.
  injection H as H0 H1 H2 H3 H4 H5 H6 H7.
  apply lower_char_colon in H7. subst c7.
  exists (String c0 (String c1 (String c2 (String c3 (String c4
           (String c5 (String c6 ""))))))).
  assert (E0 := lower_char_not_colon _ _ H0 ltac:(discriminate)).
  assert (E1 := lower_char_not_colon _ _ H1 ltac:(discriminate)).
  assert (E2 := lower_char_not_colon _ _ H2 ltac:(discriminate)).
  assert (E3 := lower_char_not_colon _ _ H3 ltac:(discriminate)).
  assert (E4 := lower_char_not_colon _ _ H4 ltac:(discriminate)).
  assert (E5 := lower_char_not_colon _ _ H5 ltac:(discriminate)).
  assert (E6 := lower_char_not_colon _ _ H6 ltac:(discriminate)).
  split; [reflexivity|].
  split; [|intros rest];
    cbn [split_once append]; rewrite E0, E1, E2, E3, E4, E5, E6;
    reflexivity.
Qed.

(** X12. A line of robots.txt is read as a sitemap directive exactly
    when it begins, at its very first character, with [sitemap:] in any
    letter case; the sitemap URL is then everything after that first
    colon (later colons included), with the white space at both ends
    removed. *)
Theorem directive_reads_sitemap_lines (line : string) :
  (forall p rest,
     line = p ++ rest -> lower p = "sitemap:" ->
     directive line = Some (strip rest whitespace)) /\
  (forall d,
     directive line = Some d ->
     exists p rest,
       line = p ++ rest /\ lower p = "sitemap:" /\ d = strip rest whitespace).
Proof.
  assert (Hfwd : forall p rest,
            lower p = "sitemap:" ->
            directive (p ++ rest) = Some (strip rest whitespace)).
  { intros p rest Hp. unfold directive, startswith.
    rewrite lower_app, Hp, (prefix_self_app "sitemap:" (lower rest)).
    destruct (sitemap_prefix_shape p Hp) as (name & _ & _ & Hsplit).
    rewrite Hsplit. reflexivity. }
  split.
  - intros p rest -> Hp. apply Hfwd. exact Hp.
  - intros d Hd. unfold directive in Hd.
    destruct (startswith (lower line) "sitemap:") eqn:E; [|discriminate].
    unfold startswith in E. apply prefix_split in E. destruct E as [r E].
    apply lower_eq_app in E. destruct E as (p & rest & -> & Hp & _).
    exists p, rest. split; [reflexivity|]. split; [exact Hp|].
    assert (H := Hfwd p rest Hp). unfold directive in H.
    destruct (startswith (lower (p ++ rest)) "sitemap:"); congruence.
Qed.

Lemma directive_reads_sitemap_lines_witness :
  directive "SiteMap:  https://b.test/s.xml?a=1:2 "
    = Some "https://b.test/s.xml?a=1:2".
Proof.
  apply (proj1 (directive_reads_sitemap_lines
                  "SiteMap:  https://b.test/s.xml?a=1:2 ")
           "SiteMap:" "  https://b.test/s.xml?a=1:2 ");
    reflexivity.
Defined.

Lemma lstrip_first (s chars : string) (c : ascii) (r : string) :
  lstrip s chars = String c r -> mem c chars = false.
Proof.
  induction s as [|a s IH]; cbn [lstrip]; [discriminate|].
  destruct (mem a chars) eqn:E; [exact IH|].
  intros H. injection H as <- _. exact E.
Qed.

Lemma rstrip_first (s chars : string) (c : ascii) (r : string) :
  rstrip s chars = String c r -> exists r', s = String c r'.
Proof.
  destruct s as [|a s]; cbn [rstrip]; [discriminate|].
  destruct (rstrip s chars); [destruct (mem a chars); [discriminate|]|];
    intros H; injection H as <- _; eexists; reflexivity.
Qed.

(** X13. The sitemap URL taken from a robots.txt line carries no white
    space at either end, so the carriage return of a CRLF line ending
    and the blanks after the colon never reach the request. *)
Theorem directive_is_stripped (line d : string) :
  directive line = Some d ->
  (forall c r, d = String c r -> mem c whitespace = false) /\
  (forall c, last_char d = Some c -> mem c whitespace = false).
Proof.
  intros H. unfold directive in H.
  destruct (startswith (lower line) "sitemap:"); [|discriminate].
  destruct (nth_error (split_once line ":") 1) as [rest|]; [|discriminate].
  cbn [option_map] in H. apply Some_inj in H. subst d.
  unfold strip. split.
  - intros c r Hd. apply rstrip_first in Hd. destruct Hd as [r' Hd].
    exact (lstrip_first _ _ _ _ Hd).
  - intros c. apply rstrip_last.
Qed.

Lemma directive_is_stripped_witness :
  directive ("sitemap: https://b.test/s.xml" ++ String (ascii_of_nat 13) "")
    = Some "https://b.test/s.xml" /\
  (forall c r, "https://b.test/s.xml" = String c r -> mem c whitespace = false) /\
  (forall c, last_char "https://b.test/s.xml" = Some c ->
             mem c whitespace = false).
Proof.
  split; [vm_compute; reflexivity|].
  apply (directive_is_stripped
           ("sitemap: https://b.test/s.xml" ++ String (ascii_of_nat 13) "")).
  vm_compute. reflexivity.
Defined.

(** ** The file name of [save_markdown_file], continued *)

Lemma mem_app (c : ascii) (a b : string) :
  mem c (a ++ b) = mem c a || mem c b.
Proof.
  induction a as [|d a IH]; [reflexivity|].
  change (String d a ++ b) with (String d (a ++ b)). cbn [mem].
  rewrite IH, orb_assoc. reflexivity.
Qed.

Lemma digit_in_stamp_chars (n : Z) :
  (0 <= n < 10)%Z -> mem (digit n) "0123456789" = true.
Proof.
  intros H. unfold digit.
  assert (Hk : Z.to_nat n < 10) by lia.
  destruct (Z.to_nat n) as [|[|[|[|[|[|[|[|[|[|k]]]]]]]]]]; try reflexivity; lia.
Qed.

Lemma mem_sub (c : ascii) (a b : string) :
  (forall x, mem x a = true -> mem x b = true) ->
  mem c b = false -> mem c a = false.
Proof.
  intros H Hb. destruct (mem c a) eqn:E; [|reflexivity].
  rewrite (H c E) in Hb. discriminate.
Qed.

Lemma dec_aux_chars (c : ascii) (fuel : nat) :
  forall (n : Z) (acc : string),
    mem c "0123456789" = false ->
    mem c (dec_aux fuel n acc) = mem c acc.
Proof.
  induction fuel as [|fuel IH]; intros n acc Hc; cbn [dec_aux]; [reflexivity|].
  assert (Hd : Ascii.eqb c (digit (n mod 10)) = false).
  { destruct (Ascii.eqb_spec c (digit (n mod 10))) as [->|]; [|reflexivity].
    rewrite digit_in_stamp_chars in Hc; [discriminate|].
    apply Z.mod_pos_bound. lia. }
  destruct (n <? 10)%Z.
  - cbn [mem]. rewrite Hd. reflexivity.
  - rewrite IH by exact Hc. cbn [mem]. rewrite Hd. reflexivity.
Qed.

Lemma strftime_stamp_chars (c : ascii) (d : datetime) :
  mem c "_0123456789" = false -> mem c (strftime_stamp d) = false.
Proof.
  intros Hc. cbn [mem] in Hc. apply orb_false_iff in Hc. destruct Hc as [Hu Hc].
  assert (Hs : forall n, mem c (str_of_int n) = false).
  { intros n. unfold str_of_int. rewrite dec_aux_chars by exact Hc. reflexivity. }
  assert (Hf : forall n, mem c (fmt_02 n) = false).
  { intros n. unfold fmt_02. destruct (n <? 10)%Z; [|apply Hs].
    cbn [mem]. rewrite Hs, orb_false_r.
    destruct (Ascii.eqb_spec c "0") as [->|]; [discriminate Hc | reflexivity]. }
  unfold strftime_stamp. rewrite !mem_app, Hs, !Hf. cbn [mem].
  rewrite Hu. reflexivity.
Qed.

Lemma all_chars_mem (p : ascii -> bool) (s : string) (c : ascii) :
  all_chars p s = true -> p c = false -> mem c s = false.
Proof.
  induction s as [|d s IH]; cbn [all_chars mem]; [reflexivity|].
  intros H Hc. apply andb_true_iff in H. destruct H as [Hd Hs].
  rewrite (IH Hs Hc), orb_false_r.
  destruct (Ascii.eqb_spec c d) as [->|]; [congruence | reflexivity].
Qed.

Ltac not_these :=
  repeat match goal with
         | H : _ = false |- _ => rewrite H
         end;
  reflexivity.

Lemma save_markdown_file_shape
    (is_word : ascii -> bool) (urlparse : string -> option ParseResult)
    (now : datetime) (url markdown_content name : string) :
  save_markdown_file is_word urlparse now url markdown_content = Some name ->
  exists parsed base,
    urlparse url = Some parsed /\
    base = (let raw := re_sub_invalid is_word
                         (netloc parsed ++ "_" ++ strip (path parsed) "/") in
            if 200 <? String.length raw then take 200 raw else raw) /\
    all_chars (keep_char is_word) base = true /\
    name = base ++ "_" ++ strftime_stamp now ++ ".md".
Proof.
  unfold save_markdown_file. intros H.
  destruct (urlparse url) as [parsed|]; [|discriminate].
  cbv zeta in H. apply Some_inj in H. subst name.
  eexists parsed, _. split; [reflexivity|]. split; [reflexivity|].
  split; [|reflexivity]. cbv zeta.
  destruct (200 <? _); [apply take_all_chars|]; apply re_sub_invalid_allowed.
Qed.

(** X14. A character that is neither a word character nor one of
    [-_.], a digit, [m] or [d] never occurs in the name of the file: in
    particular, with a regex class [\w] that does not match the slash,
    the name has no slash, and joined to MARKDOWN_DIR it names a file
    in that very directory. *)
Theorem save_markdown_file_name_chars
    (is_word : ascii -> bool) (urlparse : string -> option ParseResult)
    (now : datetime) (url markdown_content name : string) (c : ascii) :
  save_markdown_file is_word urlparse now url markdown_content = Some name ->
  is_word c = false ->
  mem c stamp_chars = false ->
  mem c name = false.
Proof.
  intros H Hw Hc.
  destruct (save_markdown_file_shape _ _ _ _ _ _ H)
    as (parsed & base & _ & _ & Hbase & ->).
  unfold stamp_chars in Hc. cbn [mem] in Hc.
  repeat (apply orb_false_iff in Hc; destruct Hc as [? Hc]).
  assert (Hstamp : mem c (strftime_stamp now) = false).
  { apply strftime_stamp_chars. cbn [mem]. not_these. }
  assert (Hkeep : keep_char is_word c = false).
  { unfold keep_char. rewrite Hw. cbn [mem orb]. not_these. }
  rewrite !mem_app, (all_chars_mem _ base c Hbase Hkeep), Hstamp.
  cbn [mem orb]. not_these.
Qed.

Lemma save_markdown_file_name_chars_witness :
  mem "/" "example.com_docs_intro_20261103_100100.md" = false.
Proof.
  apply (save_markdown_file_name_chars Sample.ascii_word Sample.urlparse_docs
           Sample.clock "https://example.com/docs/intro/" "# Intro").
  - vm_compute. reflexivity.
  - reflexivity.
  - reflexivity.
Defined.

(** *** Reading a time stamp back *)

Lemma dec_aux_acc (fuel : nat) :
  forall (n : Z) (acc : string),
    dec_aux fuel n acc = dec_aux fuel n "" ++ acc.
Proof.
  induction fuel as [|fuel IH]; intros n acc; cbn [dec_aux]; [reflexivity|].
  destruct (n <? 10)%Z; [reflexivity|].
  rewrite IH, (IH _ (String _ "")), app_assoc_str. reflexivity.
Qed.

Lemma digits_value_app (a b : string) :
  forall acc, digits_value (a ++ b) acc = digits_value b (digits_value a acc).
Proof.
  induction a as [|c a IH]; intros acc; [reflexivity|].
  change (String c a ++ b) with (String c (a ++ b)). cbn [digits_value].
  apply IH.
Qed.

Lemma digit_value (n : Z) :
  (0 <= n < 10)%Z -> (Z.of_nat (PyStr.code (digit n)) - 48 = n)%Z.
Proof.
  intros H. unfold digit, PyStr.code.
  rewrite nat_ascii_embedding by lia. lia.
Qed.

(** Reading the decimal digits of a number gives the number back. *)
Lemma digits_value_str_of_int (fuel : nat) :
  forall n : Z,
    (0 <= n)%Z -> Z.to_nat n < fuel ->
    digits_value (dec_aux fuel n "") 0 = n.
Proof.
  induction fuel as [|fuel IH]; intros n Hn Hfuel; [lia|]. cbn [dec_aux].
  assert (Hmod : (0 <= n mod 10 < 10)%Z) by (apply Z.mod_pos_bound; lia).
  destruct (n <? 10)%Z eqn:E.
  - apply Z.ltb_lt in E. cbn [digits_value].
    rewrite digit_value by exact Hmod. rewrite Z.mod_small by lia. lia.
  - apply Z.ltb_ge in E. rewrite dec_aux_acc, digits_value_app.
    assert (Hdiv : (0 <= n / 10 < n)%Z).
    { split; [apply Z.div_pos; lia | apply Z.div_lt; lia]. }
    rewrite IH by lia. cbn [digits_value].
    rewrite digit_value by exact Hmod.
    pose proof (Z.div_mod n 10 ltac:(lia)). lia.
Qed.

Lemma digits_value_fmt_02 (n : Z) :
  (0 <= n)%Z -> digits_value (fmt_02 n) 0 = n.
Proof.
  intros Hn. unfold fmt_02, str_of_int.
  destruct (n <? 10)%Z; [cbn [digits_value]|];
    change (10 * 0 + (Z.of_nat (PyStr.code "0") - 48))%Z with 0%Z;
    apply digits_value_str_of_int; lia.
Qed.

Lemma app_inj_length (a a' b b' : string) :
  String.length a = String.length a' ->
  a ++ b = a' ++ b' -> a = a' /\ b = b'.
Proof.
  revert a'; induction a as [|c a IH]; intros [|c' a'] Hlen H;
    simpl in *; try discriminate; [auto|].
  injection H as -> H. destruct (IH a' ltac:(lia) H) as [-> ->]. auto.
Qed.

Lemma app_inv_head_str (a b b' : string) : a ++ b = a ++ b' -> b = b'.
Proof.
  induction a as [|c a IH]; simpl; intros H; [exact H|].
  injection H as H. auto.
Qed.

Lemma strftime_stamp_injective (d1 d2 : datetime) :
  valid_datetime d1 -> valid_datetime d2 ->
  (1000 <= year d1)%Z -> (1000 <= year d2)%Z ->
  strftime_stamp d1 = strftime_stamp d2 -> d1 = d2.
Proof.
  intros (Hy1 & Hm1 & Hd1 & Hh1 & Hmi1 & Hs1) (Hy2 & Hm2 & Hd2 & Hh2 & Hmi2 & Hs2)
         Hk1 Hk2 H.
  unfold strftime_stamp in H.
  apply app_inj_length in H;
    [|rewrite !str_of_int_length_4 by lia; reflexivity].
  destruct H as [Ey H].
  apply app_inj_length in H; [|rewrite !fmt_02_length by lia; reflexivity].
  destruct H as [Em H].
  apply app_inj_length in H; [|rewrite !fmt_02_length by lia; reflexivity].
  destruct H as [Ed H].
  apply (app_inj_length "_" "_") in H; [|reflexivity]. destruct H as [_ H].
  apply app_inj_length in H; [|rewrite !fmt_02_length by lia; reflexivity].
  destruct H as [Eh H].
  apply app_inj_length in H; [|rewrite !fmt_02_length by lia; reflexivity].
  destruct H as [Emi Es].
  apply (f_equal (fun s => digits_value s 0)) in Ey, Em, Ed, Eh, Emi, Es.
  unfold str_of_int in Ey.
  rewrite !digits_value_str_of_int in Ey by lia.
  rewrite !digits_value_fmt_02 in Em, Ed, Eh, Emi, Es by lia.
  destruct d1, d2. simpl in *. congruence.
Qed.

(** X15. The time stamp does what line 35 adds it for, down to the
    second: two files saved for the same URL get the same name only when
    the clock shows the same second (with a four-digit year). *)
Theorem save_markdown_file_unique_per_second
    (is_word : ascii -> bool) (urlparse : string -> option ParseResult)
    (now1 now2 : datetime) (url content1 content2 name : string) :
  valid_datetime now1 -> valid_datetime now2 ->
  (1000 <= year now1)%Z -> (1000 <= year now2)%Z ->
  save_markdown_file is_word urlparse now1 url content1 = Some name ->
  save_markdown_file is_word urlparse now2 url content2 = Some name ->
  now1 = now2.
Proof.
  intros Hv1 Hv2 Hy1 Hy2 H1 H2.
  destruct (save_markdown_file_shape _ _ _ _ _ _ H1)
    as (p1 & base1 & Hp1 & Hb1 & _ & Hn1).
  destruct (save_markdown_file_shape _ _ _ _ _ _ H2)
    as (p2 & base2 & Hp2 & Hb2 & _ & Hn2).
  assert (p1 = p2) by congruence. subst p2.
  rewrite <- Hb1 in Hb2. clear Hb1. subst base2.
  rewrite Hn1 in Hn2. apply app_inv_head_str in Hn2.
  apply (app_inv_head_str "_") in Hn2.
  apply app_inj_length in Hn2;
    [|rewrite !strftime_stamp_length by assumption; reflexivity].
  apply strftime_stamp_injective; tauto.
Qed.

Lemma save_markdown_file_unique_per_second_witness :
  Sample.clock = Sample.clock.
Proof.
  apply (save_markdown_file_unique_per_second Sample.ascii_word
           Sample.urlparse_docs Sample.clock Sample.clock
           "https://example.com/docs/intro/" "# Intro" "# Intro again"
           "example.com_docs_intro_20261103_100100.md").
  - unfold valid_datetime, Sample.clock; simpl; lia.
  - unfold valid_datetime, Sample.clock; simpl; lia.
  - simpl; lia.
  - simpl; lia.
  - vm_compute; reflexivity.
  - vm_compute; reflexivity.
Defined.

Lemma re_sub_invalid_fixed (is_word : ascii -> bool) (s : string) :
  all_chars (keep_char is_word) s = true -> re_sub_invalid is_word s = s.
Proof.
  induction s as [|c s IH]; cbn [all_chars re_sub_invalid]; [reflexivity|].
  intros H. apply andb_true_iff in H. destruct H as [Hc Hs].
  rewrite Hc, (IH Hs). reflexivity.
Qed.

(** X16. A URL whose host and path are already made of allowed
    characters, 200 at most with the underscore between them, keeps
    them in the file name as they are: the name is host, [_], path
    without its outer slashes, [_], time stamp, [.md]. *)
Theorem save_markdown_file_clean_name
    (is_word : ascii -> bool) (urlparse : string -> option ParseResult)
    (now : datetime) (url markdown_content : string) (parsed : ParseResult) :
  urlparse url = Some parsed ->
  let stem := netloc parsed ++ "_" ++ strip (path parsed) "/" in
  all_chars (keep_char is_word) stem = true ->
  String.length stem <= 200 ->
  save_markdown_file is_word urlparse now url markdown_content
    = Some (stem ++ "_" ++ strftime_stamp now ++ ".md").
Proof.
  intros Hp stem Hall Hlen. unfold save_markdown_file. rewrite Hp. cbv zeta.
  fold stem. rewrite (re_sub_invalid_fixed is_word stem Hall).
  replace (200 <? String.length stem) with false
    by (symmetry; apply Nat.ltb_ge; exact Hlen).
  reflexivity.
Qed.

Lemma save_markdown_file_clean_name_witness :
  save_markdown_file Sample.ascii_word Sample2.urlparse_plain Sample.clock
    "https://example.com/intro" "# Intro"
  = Some ("example.com_intro" ++ "_" ++ strftime_stamp Sample.clock ++ ".md").
Proof.
  apply (save_markdown_file_clean_name Sample.ascii_word Sample2.urlparse_plain
           Sample.clock "https://example.com/intro" "# Intro"
           (mk_parse "https" "example.com" "/intro")).
  - reflexivity.
  - vm_compute. reflexivity.
  - vm_compute. lia.
Defined.

(** ** [save_sitemap_links_to_markdown] *)

Lemma write_links_numbered (urls : list Url) :
  forall (i : nat) (f : string),
    write_links (Z.of_nat i) urls f = f ++ join (numbered_links i urls).
Proof.
  induction urls as [|u urls IH]; intros i f; cbn [write_links numbered_links].
  - unfold join. cbn [fold_right]. rewrite app_empty_r. reflexivity.
  - replace (Z.of_nat i + 1)%Z with (Z.of_nat (S i)) by lia.
    rewrite IH. unfold join. cbn [fold_right]. rewrite app_assoc_str.
    reflexivity.
Qed.

Lemma numbered_links_nth (urls : list Url) :
  forall (i k : nat) (u : Url),
    nth_error urls k = Some u ->
    nth_error (numbered_links i urls) k = Some (link_line (Z.of_nat (i + k)) u).
Proof.
  induction urls as [|x urls IH]; intros i [|k] u H; simpl in H;
    try discriminate; cbn [numbered_links nth_error].
  - apply Some_inj in H. subst x. rewrite Nat.add_0_r. reflexivity.
  - rewrite (IH (S i) k u H). replace (i + S k) with (S i + k) by lia.
    reflexivity.
Qed.

Lemma numbered_links_length (urls : list Url) :
  forall i, List.length (numbered_links i urls) = List.length urls.
Proof. induction urls as [|x urls IH]; intros i; simpl; auto. Qed.

(** X17. The file of sitemap links is exactly a header of six
    paragraphs (title with the base URL, date, base URL, total, rule,
    heading) followed by one line per URL and nothing else: the lines
    are in the order of the list, numbered from 1, each giving the URL
    as link text and as target, and the total the header announces is
    the number of those lines.  The file is named after the host, with
    the time stamp of the first clock reading. *)
Theorem save_sitemap_links_lists_every_url
    (is_word : ascii -> bool) (urlparse : string -> option ParseResult)
    (now now' : datetime) (base_url : string) (sitemap_urls : list Url)
    (file : WrittenFile) :
  save_sitemap_links_to_markdown is_word urlparse now now' base_url sitemap_urls
    = Some file ->
  exists (parsed_url : ParseResult) (lines : list string),
    urlparse base_url = Some parsed_url /\
    file_name file
      = re_sub_invalid is_word (netloc parsed_url ++ "_sitemap_links")
        ++ "_" ++ strftime_stamp now ++ ".md" /\
    file_text file
      = "# Sitemap Links from " ++ base_url ++ Web.nl ++ Web.nl
        ++ "Date: " ++ strftime_human now' ++ Web.nl ++ Web.nl
        ++ "Base URL: " ++ base_url ++ Web.nl ++ Web.nl
        ++ "Total URLs found: "
        ++ str_of_int (Z.of_nat (List.length lines)) ++ Web.nl ++ Web.nl
        ++ "---" ++ Web.nl ++ Web.nl
        ++ "## All URLs in Sitemap" ++ Web.nl ++ Web.nl
        ++ join lines /\
    List.length lines = List.length sitemap_urls /\
    forall k u,
      nth_error sitemap_urls k = Some u ->
      nth_error lines k
        = Some (str_of_int (Z.of_nat (k + 1)) ++ ". [" ++ py_str u ++ "]("
                  ++ py_str u ++ ")" ++ Web.nl).
Proof.
  unfold save_sitemap_links_to_markdown. intros H.
  destruct (urlparse base_url) as [parsed|]; [|discriminate].
  cbv zeta in H. apply Some_inj in H. subst file. cbn [file_text file_name].
  change 1%Z with (Z.of_nat 1). rewrite write_links_numbered.
  exists parsed, (numbered_links 1 sitemap_urls).
  rewrite numbered_links_length.
  split; [reflexivity|]. split; [reflexivity|].
  split; [|split; [reflexivity|]].
  - change ("" ++ ?x) with x. rewrite !app_assoc_str. reflexivity.
  - intros k u Hk. rewrite (numbered_links_nth _ 1 k u Hk).
    unfold link_line. replace (1 + k) with (k + 1) by lia. reflexivity.
Qed.

Lemma save_sitemap_links_lists_every_url_witness :
  exists (parsed_url : ParseResult) (lines : list string),
    Sample2.urlparse_plain "https://example.com/intro" = Some parsed_url /\
    file_name (mk_file
        (re_sub_invalid Sample.ascii_word ("example.com" ++ "_sitemap_links")
           ++ "_" ++ strftime_stamp Sample.clock ++ ".md")
        (write_links 1 Sample3.found
           ("" ++ ("# Sitemap Links from " ++ "https://example.com/intro"
                     ++ Web.nl ++ Web.nl)
               ++ ("Date: " ++ strftime_human Sample.clock ++ Web.nl ++ Web.nl)
               ++ ("Base URL: " ++ "https://example.com/intro"
                     ++ Web.nl ++ Web.nl)
               ++ ("Total URLs found: " ++ str_of_int (Z.of_nat 3)
                     ++ Web.nl ++ Web.nl)
               ++ ("---" ++ Web.nl ++ Web.nl)
               ++ ("## All URLs in Sitemap" ++ Web.nl ++ Web.nl))))
      = re_sub_invalid Sample.ascii_word (netloc parsed_url ++ "_sitemap_links")
        ++ "_" ++ strftime_stamp Sample.clock ++ ".md" /\
    file_text (mk_file
        (re_sub_invalid Sample.ascii_word ("example.com" ++ "_sitemap_links")
           ++ "_" ++ strftime_stamp Sample.clock ++ ".md")
        (write_links 1 Sample3.found
           ("" ++ ("# Sitemap Links from " ++ "https://example.com/intro"
                     ++ Web.nl ++ Web.nl)
               ++ ("Date: " ++ strftime_human Sample.clock ++ Web.nl ++ Web.nl)
               ++ ("Base URL: " ++ "https://example.com/intro"
                     ++ Web.nl ++ Web.nl)
               ++ ("Total URLs found: " ++ str_of_int (Z.of_nat 3)
                     ++ Web.nl ++ Web.nl)
               ++ ("---" ++ Web.nl ++ Web.nl)
               ++ ("## All URLs in Sitemap" ++ Web.nl ++ Web.nl))))
      = "# Sitemap Links from " ++ "https://example.com/intro"
        ++ Web.nl ++ Web.nl
        ++ "Date: " ++ strftime_human Sample.clock ++ Web.nl ++ Web.nl
        ++ "Base URL: " ++ "https://example.com/intro" ++ Web.nl ++ Web.nl
        ++ "Total URLs found: "
        ++ str_of_int (Z.of_nat (List.length lines)) ++ Web.nl ++ Web.nl
        ++ "---" ++ Web.nl ++ Web.nl
        ++ "## All URLs in Sitemap" ++ Web.nl ++ Web.nl
        ++ join lines /\
    List.length lines = List.length Sample3.found /\
    forall k u,
      nth_error Sample3.found k = Some u ->
      nth_error lines k
        = Some (str_of_int (Z.of_nat (k + 1)) ++ ". [" ++ py_str u ++ "]("
                  ++ py_str u ++ ")" ++ Web.nl).
Proof.
  apply (save_sitemap_links_lists_every_url Sample.ascii_word
           Sample2.urlparse_plain Sample.clock Sample.clock
           "https://example.com/intro" Sample3.found).
  vm_compute. reflexivity.
Defined.

Example sitemap_links_text :
  option_map file_text
    (save_sitemap_links_to_markdown Sample.ascii_word Sample2.urlparse_plain
       Sample.clock Sample.clock "https://example.com/intro"
       [Some "https://a.test/1"; None])
  = Some ("# Sitemap Links from https://example.com/intro" ++ Web.nl ++ Web.nl
          ++ "Date: 2026-11-03 10:01:00" ++ Web.nl ++ Web.nl
          ++ "Base URL: https://example.com/intro" ++ Web.nl ++ Web.nl
          ++ "Total URLs found: 2" ++ Web.nl ++ Web.nl
          ++ "---" ++ Web.nl ++ Web.nl
          ++ "## All URLs in Sitemap" ++ Web.nl ++ Web.nl
          ++ "1. [https://a.test/1](https://a.test/1)" ++ Web.nl
          ++ "2. [None](None)" ++ Web.nl).
Proof. vm_compute. reflexivity. Qed.

(** ** The URLs [main] crawls *)

Lemma lower_char_y (c : ascii) :
  lower_char c = "y"%char <-> c = "y"%char \/ c = "Y"%char.
Proof.
  split.
  - destruct c as [[] [] [] [] [] [] [] []]; vm_compute; intros H;
      first [discriminate | left; reflexivity | right; reflexivity].
  - intros [->| ->]; reflexivity.
Qed.

(** The answers [crawl_all.lower() == 'y'] takes for a yes. *)
Lemma lower_is_y (s : string) :
  lower s = "y" <-> s = "y" \/ s = "Y".
Proof.
  split.
  - destruct s as [|c [|d s]]; cbn [lower]; intros H; try discriminate.
    injection H as H. apply lower_char_y in H. destruct H as [->| ->]; auto.
  - intros [->| ->]; reflexivity.
Qed.

(** X18. Which URLs [main] crawls, case by case.  Nothing found: the
    base URL alone.  Otherwise, for the answer [y] or [Y]: every URL
    found; for any other answer and a number that does not parse: the
    base URL alone; for any other answer and the number [num]: the first
    [n] URLs found, in their order, with [n] the number brought into the
    range from 1 to the size of the list, so the first URL alone for
    [num <= 1] and the whole list for [num] at or above its size.  In
    every case at least one URL is crawled. *)
Theorem urls_to_crawl_choice
    (int_of : string -> option Z) (base_url : string)
    (sitemap_urls : list Url) (crawl_all how_many : string) :
  let chosen := urls_to_crawl int_of base_url sitemap_urls crawl_all how_many in
  let len := Z.of_nat (List.length sitemap_urls) in
  chosen <> [] /\
  (sitemap_urls = [] -> chosen = [Some base_url]) /\
  (sitemap_urls <> [] ->
   (crawl_all = "y" \/ crawl_all = "Y" -> chosen = sitemap_urls) /\
   (crawl_all <> "y" -> crawl_all <> "Y" ->
    (int_of how_many = None -> chosen = [Some base_url]) /\
    (forall num, int_of how_many = Some num ->
       chosen = firstn (Z.to_nat (Z.max 1 (Z.min num len))) sitemap_urls /\
       Z.of_nat (List.length chosen) = Z.max 1 (Z.min num len) /\
       (forall k, k < List.length chosen ->
          nth_error chosen k = nth_error sitemap_urls k) /\
       ((num <= 1)%Z ->
        exists first, nth_error sitemap_urls 0 = Some first /\
                      chosen = [first]) /\
       ((len <= num)%Z -> chosen = sitemap_urls)))).
Proof.
  cbv zeta. unfold urls_to_crawl.
  destruct sitemap_urls as [|x rest]; cbn [is_empty negb].
  { split; [discriminate|]. split; [reflexivity | congruence]. }
  set (urls := x :: rest).
  assert (Hlen : 1 <= List.length urls) by (simpl; lia).
  split; [|split; [discriminate|]].
  - destruct (String.eqb (lower crawl_all) "y"); [discriminate|].
    destruct (int_of how_many) as [num|]; [|discriminate].
    intros E. apply (f_equal (@List.length Url)) in E.
    rewrite length_firstn in E. simpl in E. lia.
  - intros _. split.
    + intros Hy. apply lower_is_y in Hy. rewrite Hy. reflexivity.
    + intros Hn1 Hn2.
      destruct (String.eqb_spec (lower crawl_all) "y") as [Hy|_].
      { apply lower_is_y in Hy. destruct Hy; contradiction. }
      split.
      * intros E. rewrite E. reflexivity.
      * intros num E. rewrite E.
        set (n := Z.to_nat (Z.max 1 (Z.min num (Z.of_nat (List.length urls))))).
        assert (Hn : 1 <= n <= List.length urls) by (subst n; lia).
        assert (Hl : List.length (firstn n urls) = n)
          by (rewrite length_firstn; lia).
        split; [reflexivity|]. split; [rewrite Hl; subst n; lia|].
        split; [|split].
        -- intros k Hk. rewrite Hl in Hk. rewrite nth_error_firstn.
           replace (k <? n) with true by (symmetry; apply Nat.ltb_lt; lia).
           reflexivity.
        -- intros Hnum. exists x. split; [reflexivity|].
           replace n with 1 by (subst n; lia). reflexivity.
        -- intros Hnum. replace n with (List.length urls) by (subst n; lia).
           apply firstn_all.
Qed.

Lemma urls_to_crawl_choice_witness :
  urls_to_crawl Sample3.int_of "https://a.test" Sample3.found "Y" ""
    = Sample3.found /\
  urls_to_crawl Sample3.int_of "https://a.test" Sample3.found "n" "many"
    = [Some "https://a.test"] /\
  urls_to_crawl Sample3.int_of "https://a.test" Sample3.found "n" "50"
    = Sample3.found /\
  (exists first, nth_error Sample3.found 0 = Some first /\
     urls_to_crawl Sample3.int_of "https://a.test" Sample3.found "yes" "-7"
       = [first]).
Proof.
  split; [|split; [|split]].
  - apply (proj2 (proj2 (urls_to_crawl_choice Sample3.int_of "https://a.test"
                           Sample3.found "Y" ""))); [discriminate|].
    right. reflexivity.
  - apply (proj2 (proj2 (urls_to_crawl_choice Sample3.int_of "https://a.test"
                           Sample3.found "n" "many")));
      [discriminate | discriminate | discriminate | reflexivity].
  - refine (proj2 (proj2 (proj2 (proj2
              (proj2 (proj2 (proj2 (proj2
                 (urls_to_crawl_choice Sample3.int_of "https://a.test"
                    Sample3.found "n" "50")) _) _ _) 50%Z _)))) _);
      [discriminate | discriminate | discriminate | reflexivity
      | vm_compute; discriminate].
  - refine (proj1 (proj2 (proj2 (proj2
              (proj2 (proj2 (proj2 (proj2
                 (urls_to_crawl_choice Sample3.int_of "https://a.test"
                    Sample3.found "yes" "-7")) _) _ _) (-7)%Z _)))) _);
      [discriminate | discriminate | discriminate | reflexivity
      | vm_compute; discriminate].
Defined.

Lemma crawl_parallel_can_finish (env : nat -> Oracle) (urls : list string)
    (c r : Z) (schedule : list nat) :
  (1 <= c)%Z ->
  exists more st, crawl_parallel env (schedule ++ more) urls c r = Some st.
Proof.
  intros Hc. unfold crawl_parallel.
  destruct (crawl_start urls c r) as [s0|] eqn:H0.
  - pose proof (pool_inv_reachable env urls _ _ s0 _ H0
                  (run_schedule_reachable env schedule s0)) as Hinv.
    destruct (pool_completes env urls _ _ Hc _ _ (le_n _) Hinv)
      as (s' & Hreach' & Hdone).
    destruct (reachable_schedule env _ _ Hreach') as [more Hmore].
    exists more, (mk_stats (processed_urls s') (failed_urls s')).
    rewrite run_schedule_app, Hmore. unfold crawl_result. rewrite Hdone.
    reflexivity.
  - unfold crawl_start in H0. destruct (c <? 0)%Z eqn:E; [|discriminate].
    apply Z.ltb_lt in E. lia.
Qed.

(** X19. The crawl [main] starts, with the default limits of five
    concurrent tasks and three attempts, can always be carried to its
    end, whatever was found and typed and whatever the fetch client and
    the store do; and when it ends it has counted at least one URL, and
    no fewer URLs than it was given. *)
Theorem main_crawl_finishes_and_counts
    (env : nat -> Oracle) (int_of : string -> option Z) (base_url : string)
    (sitemap_urls : list Url) (crawl_all how_many : string) :
  (forall schedule, exists more st,
     main_crawl env (schedule ++ more) int_of base_url sitemap_urls
       crawl_all how_many = Some st) /\
  (forall schedule st,
     main_crawl env schedule int_of base_url sitemap_urls crawl_all how_many
       = Some st ->
     (1 <= stat_processed_urls st + stat_failed_urls st)%Z /\
     (Z.of_nat (List.length
                  (urls_to_crawl int_of base_url sitemap_urls crawl_all how_many))
        <= stat_processed_urls st + stat_failed_urls st)%Z).
Proof.
  unfold main_crawl. split.
  - intros schedule. apply crawl_parallel_can_finish. lia.
  - intros schedule st H.
    pose proof (crawl_parallel_counts_at_least env _ 5 3 schedule st
                  ltac:(lia) H) as Hsum.
    rewrite length_map in Hsum. split; [|exact Hsum].
    assert (Hne : urls_to_crawl int_of base_url sitemap_urls crawl_all how_many
                  <> []).
    { unfold urls_to_crawl. destruct sitemap_urls as [|x rest];
        cbn [is_empty negb]; [discriminate|].
      destruct (String.eqb (lower crawl_all) "y"); [discriminate|].
      destruct (int_of how_many) as [num|]; [|discriminate].
      intros E. apply (f_equal (@List.length Url)) in E.
      rewrite length_firstn in E. simpl in E. lia. }
    destruct (urls_to_crawl int_of base_url sitemap_urls crawl_all how_many);
      [congruence|]. simpl in Hsum. lia.
Qed.

Lemma main_crawl_finishes_and_counts_witness :
  main_crawl Crew.mixed (Crew.round_robin 2 30) Sample3.int_of "https://a.test"
    Sample3.found "n" "2" = Some (mk_stats 1 1) /\
  (1 <= 1 + 1)%Z /\
  (Z.of_nat (List.length
               (urls_to_crawl Sample3.int_of "https://a.test" Sample3.found
                  "n" "2")) <= 1 + 1)%Z.
Proof.
  split; [vm_compute; reflexivity|].
  apply (proj2 (main_crawl_finishes_and_counts Crew.mixed Sample3.int_of
                  "https://a.test" Sample3.found "n" "2")
           (Crew.round_robin 2 30) (mk_stats 1 1)).
  vm_compute. reflexivity.
Defined.
